(** * The polite mirror crawler of [ragchat] ([src/ragchat/crawl.py]) and its
      sibling PDF crawlers ([scripts/crawl_pdfs*.py]): a shallow embedding.

    Python values are modelled as follows.
    - [str] is [string]; the model covers ASCII text (one [ascii] per
      character), so [lower] is ASCII lower-casing.
    - An exception raised by a call is [None] in an [option]; a [try/except
      Exception] is a [match] on that option.
    - [dict] is stdpp's [gmap], [set] is [gset], [deque] and [list] are [list].
    - [time.monotonic()] reads a clock kept in the state as an exact rational
      number of seconds ([Q]); [asyncio.sleep d] advances it by [d].
    - The standard library's URL functions ([urllib.parse]) are embedded from
      CPython 3.11's [urllib/parse.py]; the robots.txt parser, the SHA digests,
      the HTTP client and the disk are fields of an environment record. *)

From Stdlib Require Import String Ascii List ZArith NArith QArith Lqa Lia Bool.
From Stdlib Require Import DecimalString.
From stdpp Require Import base option gmap strings list.

Close Scope Q_scope.
Open Scope string_scope.
Open Scope list_scope.

(* ===================================================================== *)
(** ** Python [str] methods used by the crawler *)
(* ===================================================================== *)

Module Str.

Definition code (c : ascii) : nat := nat_of_ascii c.

Definition between (lo hi : nat) (c : ascii) : bool :=
  (lo <=? code c)%nat && (code c <=? hi)%nat.

Definition is_upper : ascii -> bool := between 65 90.
Definition is_lower : ascii -> bool := between 97 122.
Definition is_digit : ascii -> bool := between 48 57.
Definition is_alpha (c : ascii) : bool := is_upper c || is_lower c.

(** [c.isspace()] on ASCII: TAB..CR, FS..US and the space. *)
Definition is_space (c : ascii) : bool :=
  between 9 13 c || between 28 32 c.

Definition lower_char (c : ascii) : ascii :=
  if is_upper c then ascii_of_nat (code c + 32) else c.

(** [s.lower()] *)
Fixpoint lower (s : string) : string :=
  match s with
  | EmptyString => EmptyString
  | String c r => String (lower_char c) (lower r)
  end.

(** [bool(s)]: a string is truthy when it is not empty. *)
Definition truthy (s : string) : bool :=
  match s with EmptyString => false | String _ _ => true end.

(** [c in s] for a single character. *)
Fixpoint has_char (c : ascii) (s : string) : bool :=
  match s with
  | EmptyString => false
  | String d r => Ascii.eqb d c || has_char c r
  end.

(** [s.startswith(p)] *)
Definition startswith (p s : string) : bool := String.prefix p s.

(** [sub in s] *)
Fixpoint contains (sub s : string) : bool :=
  startswith sub s ||
  match s with
  | EmptyString => false
  | String _ r => contains sub r
  end.

Fixpoint rev_onto (s acc : string) : string :=
  match s with
  | EmptyString => acc
  | String c r => rev_onto r (String c acc)
  end.

Definition rev (s : string) : string := rev_onto s EmptyString.

(** [s.endswith(suf)] *)
Definition endswith (suf s : string) : bool := startswith (rev suf) (rev s).

(** [s.endswith((a, b, ...))] *)
Definition endswith_any (sufs : list string) (s : string) : bool :=
  existsb (fun suf => endswith suf s) sufs.

(** [s.partition(sep)] for a one-character separator: the text before the
    first [sep], whether [sep] was found, and the text after it. *)
Fixpoint partition (sep : ascii) (s : string) : string * bool * string :=
  match s with
  | EmptyString => (EmptyString, false, EmptyString)
  | String c r =>
      if Ascii.eqb c sep then (EmptyString, true, r)
      else let '(a, f, b) := partition sep r in (String c a, f, b)
  end.

(** [s.rpartition(sep)]: [Some (before, after)] around the last [sep], and
    [None] when there is none (Python then returns [('', '', s)]). *)
Fixpoint rpartition (sep : ascii) (s : string) : option (string * string) :=
  match s with
  | EmptyString => None
  | String c r =>
      match rpartition sep r with
      | Some (a, b) => Some (String c a, b)
      | None => if Ascii.eqb c sep then Some (EmptyString, r) else None
      end
  end.

(** [s.split(sep)] for a one-character separator; never the empty list. *)
Fixpoint split (sep : ascii) (s : string) : list string :=
  match s with
  | EmptyString => [EmptyString]
  | String c r =>
      if Ascii.eqb c sep then EmptyString :: split sep r
      else match split sep r with
           | h :: t => String c h :: t
           | [] => [String c EmptyString]
           end
  end.

(** [sep.join(l)] *)
Definition join (sep : string) (l : list string) : string := String.concat sep l.

(** [s.lstrip(chars)] and [s.strip(chars)] with the set given as a predicate. *)
Fixpoint lstrip_by (p : ascii -> bool) (s : string) : string :=
  match s with
  | EmptyString => EmptyString
  | String c r => if p c then lstrip_by p r else s
  end.

Definition rstrip_by (p : ascii -> bool) (s : string) : string :=
  rev (lstrip_by p (rev s)).

Definition strip_by (p : ascii -> bool) (s : string) : string :=
  rstrip_by p (lstrip_by p s).

(** [s.strip()] *)
Definition strip : string -> string := strip_by is_space.

(** Deleting every character that satisfies [p]: [s.replace(c, "")]. *)
Fixpoint remove_by (p : ascii -> bool) (s : string) : string :=
  match s with
  | EmptyString => EmptyString
  | String c r => if p c then remove_by p r else String c (remove_by p r)
  end.

Fixpoint all_chars (p : ascii -> bool) (s : string) : bool :=
  match s with
  | EmptyString => true
  | String c r => p c && all_chars p r
  end.

(** [s.isdigit()] (with [s.isascii()]): not empty and decimal digits only. *)
Definition isdigit (s : string) : bool := truthy s && all_chars is_digit s.

Fixpoint int_acc (s : string) (acc : N) : N :=
  match s with
  | EmptyString => acc
  | String c r => int_acc r (10 * acc + N.of_nat (code c - 48))%N
  end.

(** [int(s)] for a string of decimal digits. *)
Definition to_int (s : string) : N := int_acc s 0%N.

(** [str(n)] for a natural number. *)
Definition of_int (n : N) : string := NilEmpty.string_of_uint (N.to_uint n).

(** [s[:n]] and [s[n:]] *)
Fixpoint take (n : nat) (s : string) : string :=
  match n, s with
  | S k, String c r => String c (take k r)
  | _, _ => EmptyString
  end.

Fixpoint drop (n : nat) (s : string) : string :=
  match n, s with
  | S k, String _ r => drop k r
  | _, _ => s
  end.

End Str.

(* ===================================================================== *)
(** ** [urllib.parse]: urlsplit, urlparse, urlunparse, urljoin, urldefrag *)
(* ===================================================================== *)

Module Url.
Import Str.

(** A [ParseResult]: the six components of a URL. *)
Record ParseResult := mkParse {
  scheme : string;
  netloc : string;
  path : string;
  params : string;
  query : string;
  fragment : string
}.

Definition uses_relative : list string :=
  [""; "ftp"; "http"; "gopher"; "nntp"; "imap"; "wais"; "file"; "https";
   "shttp"; "mms"; "prospero"; "rtsp"; "rtspu"; "sftp"; "svn"; "svn+ssh";
   "ws"; "wss"].

Definition uses_netloc : list string :=
  [""; "ftp"; "http"; "gopher"; "nntp"; "telnet"; "imap"; "wais"; "file";
   "mms"; "https"; "shttp"; "snews"; "prospero"; "rtsp"; "rtspu"; "rsync";
   "svn"; "svn+ssh"; "sftp"; "nfs"; "git"; "git+ssh"; "ws"; "wss"].

Definition uses_params : list string :=
  [""; "ftp"; "hdl"; "prospero"; "http"; "imap"; "https"; "shttp"; "rtsp";
   "rtspu"; "sip"; "sips"; "mms"; "sftp"; "tel"].

Definition mem (s : string) (l : list string) : bool := existsb (String.eqb s) l.

Definition is_scheme_char (c : ascii) : bool :=
  is_alpha c || is_digit c || has_char c "+-.".

(** [_WHATWG_C0_CONTROL_OR_SPACE]: the characters 0..32. *)
Definition is_c0_or_space (c : ascii) : bool := (code c <=? 32)%nat.

(** [_UNSAFE_URL_BYTES_TO_REMOVE]: TAB, CR and LF. *)
Definition is_unsafe (c : ascii) : bool :=
  (code c =? 9)%nat || (code c =? 10)%nat || (code c =? 13)%nat.

(** *** The bracketed-host check ([_check_bracketed_host]) *)

Definition is_hex (c : ascii) : bool :=
  is_digit c || between 65 70 c || between 97 102 c.

(** [IPv4Address._parse_octet]: one to three decimal digits, no leading
    zero on a longer octet, value at most 255. *)
Definition ipv4_octet_ok (o : string) : bool :=
  isdigit o && (String.length o <=? 3)%nat &&
  negb (negb (String.eqb o "0") && startswith "0" o) &&
  (to_int o <=? 255)%N.

Definition ipv4_ok (s : string) : bool :=
  let octets := split "." s in
  (length octets =? 4)%nat && forallb ipv4_octet_ok octets.

(** [IPv6Address._parse_hextet] *)
Definition hextet_ok (h : string) : bool :=
  truthy h && all_chars is_hex h && (String.length h <=? 4)%nat.

Definition is_empty (s : string) : bool := negb (truthy s).

(** The indices [1 .. len-2] of [parts] that hold the empty string. *)
Definition inner_empties (parts : list string) : list nat :=
  List.filter (fun i => (1 <=? i)%nat && (i + 1 <? length parts)%nat &&
                   is_empty (nth i parts "x"))
         (seq 0 (length parts)).

(** [IPv6Address._ip_int_from_string], as a validity test.  [parts] is the
    address split at [:], an IPv4-style last part being replaced by two
    hextets. *)
Definition ipv6_parts_ok (parts : list string) : bool :=
  (length parts <=? 9)%nat &&
  match inner_empties parts with
  | [skip] =>
      let first_empty := is_empty (hd "" parts) in
      let last_empty := is_empty (List.last parts "") in
      let parts_hi := if first_empty then (skip - 1)%nat else skip in
      let lo0 := (length parts - skip - 1)%nat in
      let parts_lo := if last_empty then (lo0 - 1)%nat else lo0 in
      negb (first_empty && negb (parts_hi =? 0)%nat) &&
      negb (last_empty && negb (parts_lo =? 0)%nat) &&
      (parts_hi + parts_lo <? 8)%nat &&
      forallb hextet_ok (firstn parts_hi parts) &&
      forallb hextet_ok (skipn (length parts - parts_lo) parts)
  | [] =>
      (length parts =? 8)%nat && forallb hextet_ok parts
  | _ => false
  end.

Definition ipv6_ok (s : string) : bool :=
  let '(addr, has_scope, scope) := partition "%" s in
  negb (has_char "/" s) &&
  negb (has_scope && (is_empty scope || has_char "%" scope)) &&
  truthy addr &&
  let parts := split ":" addr in
  (3 <=? length parts)%nat &&
  let lastp := List.last parts "" in
  if has_char "." lastp
  then ipv4_ok lastp && ipv6_parts_ok (removelast parts ++ ["0"; "0"])
  else ipv6_parts_ok parts.

(** [re.match(r"\Av[a-fA-F0-9]+\..+\Z", hostname)] *)
Definition ipvfuture_ok (h : string) : bool :=
  match h with
  | String "v" r =>
      let '(hexes, dot, rest) := partition "." r in
      dot && truthy hexes && all_chars is_hex hexes && truthy rest &&
      negb (has_char "010"%char rest)
  | _ => false
  end.

Definition _check_bracketed_host (hostname : string) : bool :=
  if startswith "v" hostname then ipvfuture_ok hostname else ipv6_ok hostname.

(** The text after the last [@] of a netloc. *)
Definition hostinfo_of (netloc : string) : string :=
  match rpartition "@" netloc with
  | Some (_, h) => h
  | None => netloc
  end.

(** [_check_bracketed_netloc]: [true] when no [ValueError] is raised. *)
Definition _check_bracketed_netloc (netloc : string) : bool :=
  let '(before_bracket, have_open_br, bracketed) :=
    partition "[" (hostinfo_of netloc) in
  if have_open_br then
    let '(hostname, _, port) := partition "]" bracketed in
    negb (truthy before_bracket) &&
    negb (truthy port && negb (startswith ":" port)) &&
    _check_bracketed_host hostname
  else
    let '(hostname, _, _) := partition ":" (hostinfo_of netloc) in
    _check_bracketed_host hostname.

(** [_splitnetloc(url, 2)] applied to the text after the leading [//]. *)
Fixpoint _splitnetloc (s : string) : string * string :=
  match s with
  | EmptyString => (EmptyString, EmptyString)
  | String c r =>
      if has_char c "/?#" then (EmptyString, s)
      else let '(d, rest) := _splitnetloc r in (String c d, rest)
  end.

(** [urlsplit(url, scheme)] with [allow_fragments=True]: the scheme, the
    netloc, the path, the query and the fragment; [None] for [ValueError]. *)
Definition urlsplit (url0 scheme0 : string)
  : option (string * string * string * string * string) :=
  let url := remove_by is_unsafe (lstrip_by is_c0_or_space url0) in
  let scheme := remove_by is_unsafe (strip_by is_c0_or_space scheme0) in
  let '(scheme, url) :=
    let '(pre, found, post) := partition ":" url in
    match pre with
    | String c0 _ =>
        if found && is_alpha c0 && all_chars is_scheme_char pre
        then (lower pre, post) else (scheme, url)
    | EmptyString => (scheme, url)
    end in
  nl ← (match url with
        | String "/" (String "/" r) =>
            let '(netloc, rest) := _splitnetloc r in
            let lb := has_char "[" netloc in
            let rb := has_char "]" netloc in
            if (lb && negb rb) || (rb && negb lb) then None
            else if lb && rb && negb (_check_bracketed_netloc netloc) then None
            else Some (netloc, rest)
        | _ => Some (EmptyString, url)
        end);
  let '(netloc, url) := nl in
  let '(url, _, fragment) := partition "#" url in
  let '(url, _, query) := partition "?" url in
  Some (scheme, netloc, url, query, fragment).

(** [s.find(c, start)] as the split of [s] at that position. *)
Definition split_at_first_from (c : ascii) (start : nat) (s : string)
  : option (string * string) :=
  let '(a, f, b) := partition c (drop start s) in
  if f then Some (take start s +:+ a, b) else None.

(** The index of the last [/], when there is one. *)
Definition rfind_slash (s : string) : option nat :=
  match rpartition "/" s with
  | Some (a, _) => Some (String.length a)
  | None => None
  end.

(** [_splitparams] *)
Definition _splitparams (url : string) : string * string :=
  match rfind_slash url with
  | Some i =>
      match split_at_first_from ";" i url with
      | Some (u, p) => (u, p)
      | None => (url, EmptyString)
      end
  | None =>
      let '(u, _, p) := partition ";" url in (u, p)
  end.

(** [urlparse(url, scheme)] *)
Definition urlparse_with (url scheme0 : string) : option ParseResult :=
  '(scheme, netloc, url, query, fragment) ← urlsplit url scheme0;
  let '(url, params) :=
    if mem scheme uses_params && has_char ";" url
    then _splitparams url else (url, EmptyString) in
  Some (mkParse scheme netloc url params query fragment).

Definition urlparse (url : string) : option ParseResult :=
  urlparse_with url EmptyString.

(** [urlunsplit] *)
Definition urlunsplit (scheme netloc url query fragment : string) : string :=
  let url :=
    if truthy netloc ||
       (truthy scheme && mem scheme uses_netloc && negb (startswith "//" url))
    then "//" +:+ netloc +:+
         (if truthy url && negb (startswith "/" url) then "/" +:+ url else url)
    else url in
  let url := if truthy scheme then scheme +:+ ":" +:+ url else url in
  let url := if truthy query then url +:+ "?" +:+ query else url in
  if truthy fragment then url +:+ "#" +:+ fragment else url.

(** [urlunparse], which is also [ParseResult.geturl()] *)
Definition urlunparse (p : ParseResult) : string :=
  let url := if truthy (params p) then path p +:+ ";" +:+ params p else path p in
  urlunsplit (scheme p) (netloc p) url (query p) (fragment p).

Definition geturl : ParseResult -> string := urlunparse.

(** [p._replace(netloc=n)] *)
Definition replace_netloc (p : ParseResult) (n : string) : ParseResult :=
  mkParse (scheme p) n (path p) (params p) (query p) (fragment p).

(** [_hostinfo]: the host name and the port text of the netloc. *)
Definition _hostinfo (p : ParseResult) : string * option string :=
  let hostinfo := hostinfo_of (netloc p) in
  let '(_, have_open_br, bracketed) := partition "[" hostinfo in
  let '(hostname, port) :=
    if have_open_br then
      let '(hostname, _, port) := partition "]" bracketed in
      let '(_, _, port) := partition ":" port in (hostname, port)
    else
      let '(hostname, _, port) := partition ":" hostinfo in (hostname, port) in
  (hostname, if truthy port then Some port else None).

(** The [hostname] property: [None] is Python's [None]. *)
Definition hostname (p : ParseResult) : option string :=
  let h := fst (_hostinfo p) in
  if truthy h then
    let '(h, percent, zone) := partition "%" h in
    Some (lower h +:+ (if percent then "%" else "") +:+ zone)
  else None.

(** The [port] property: the outer [None] is a [ValueError], the inner one
    Python's [None]. *)
Definition port (p : ParseResult) : option (option N) :=
  match snd (_hostinfo p) with
  | None => Some None
  | Some txt =>
      if isdigit txt then
        let n := to_int txt in
        if (n <=? 65535)%N then Some (Some n) else None
      else None
  end.

(** [segments[1:-1] = filter(None, segments[1:-1])] *)
Definition filter_inner (segments : list string) : list string :=
  match segments with
  | [] => []
  | [h] => [h]
  | h :: t => h :: List.filter truthy (removelast t) ++ [List.last t EmptyString]
  end.

(** The loop of [urljoin] that resolves [.] and [..]. *)
Definition resolve (segments : list string) : list string :=
  fold_left
    (fun resolved seg =>
       if String.eqb seg ".." then removelast resolved
       else if String.eqb seg "." then resolved
       else resolved ++ [seg])
    segments [].

(** [urljoin(base, url)] *)
Definition urljoin (base url : string) : option string :=
  if negb (truthy base) then Some url
  else if negb (truthy url) then Some base
  else
    b ← urlparse_with base EmptyString;
    u ← urlparse_with url (scheme b);
    if negb (String.eqb (scheme u) (scheme b)) || negb (mem (scheme u) uses_relative)
    then Some url
    else if mem (scheme u) uses_netloc && truthy (netloc u)
    then Some (urlunparse u)
    else
      let netloc' := if mem (scheme u) uses_netloc then netloc b else netloc u in
      if negb (truthy (path u)) && negb (truthy (params u)) then
        Some (urlunparse
                (mkParse (scheme u) netloc' (path b) (params b)
                   (if truthy (query u) then query u else query b)
                   (fragment u)))
      else
        let base_parts :=
          let bp := split "/" (path b) in
          if truthy (List.last bp EmptyString) then removelast bp else bp in
        let segments :=
          if startswith "/" (path u) then split "/" (path u)
          else filter_inner (base_parts ++ split "/" (path u)) in
        let resolved :=
          let r := resolve segments in
          if mem (List.last segments EmptyString) ["."; ".."] then r ++ [EmptyString] else r in
        let joined := join "/" resolved in
        Some (urlunparse
                (mkParse (scheme u) netloc'
                   (if truthy joined then joined else "/")
                   (params u) (query u) (fragment u))).

(** [urldefrag(url)[0]] *)
Definition urldefrag (url : string) : option string :=
  if has_char "#" url then
    p ← urlparse url;
    Some (urlunparse (mkParse (scheme p) (netloc p) (path p) (params p) (query p) EmptyString))
  else Some url.

End Url.

(* ===================================================================== *)
(** ** [src/ragchat/crawl.py]: the pure helpers *)
(* ===================================================================== *)

Module Crawl.
Import Str Url.

Definition USER_AGENT : string := "ragchat-mirror/0.2 (+local)".
Definition HTML_CT : list string := ["text/html"; "application/xhtml+xml"].
Definition PDF_CT : list string := ["application/pdf"].
Definition SAVE_SUFFIXES : list string := [".html"; ".htm"; ".pdf"].

(** [x or ""] for an optional string. *)
Definition or_empty (o : option string) : string :=
  match o with Some s => s | None => EmptyString end.

(** [f"{x}"] for an optional string: Python prints [None] as "None". *)
Definition fmt_opt (o : option string) : string :=
  match o with Some s => s | None => "None" end.

(** [_norm_url(base, href)]: [None] is both the returned [None] and the
    [except Exception] branch. *)
Definition _norm_url (base href : string) : option string :=
  if negb (truthy href) then None
  else
    absu ← urljoin base href;
    u ← urldefrag absu;
    parsed ← urlparse u;
    if negb (startswith "http" (scheme parsed)) then None
    else
      prt ← port parsed;
      let netloc :=
        match prt with
        | Some p =>
            if (p =? 0)%N then or_empty (hostname parsed)
            else if (String.eqb (scheme parsed) "http" && (p =? 80)%N)
                    || (String.eqb (scheme parsed) "https" && (p =? 443)%N)
            then or_empty (hostname parsed)
            else fmt_opt (hostname parsed) +:+ ":" +:+ of_int p
        | None => or_empty (hostname parsed)
        end in
      Some (geturl (replace_netloc parsed netloc)).

(** [dom.lower().lstrip(".")] *)
Definition clean_domain (dom : string) : string :=
  lstrip_by (Ascii.eqb ".") (lower dom).

(** The [for dom in allow_domains] loop of [_domain_allowed]. *)
Definition host_matches (host : string) (allow_domains : list string)
    (include_subdomains : bool) : bool :=
  existsb
    (fun dom =>
       let d := clean_domain dom in
       String.eqb host d || (include_subdomains && endswith ("." +:+ d) host))
    allow_domains.

(** [_domain_allowed(url, allow_domains, include_subdomains)]; [None] when
    [urlparse] raises. *)
Definition _domain_allowed (url : string) (allow_domains : list string)
    (include_subdomains : bool) : option bool :=
  p ← urlparse url;
  let host := lower (or_empty (hostname p)) in
  if negb (truthy host) then Some false
  else Some (host_matches host allow_domains include_subdomains).

(** [_guess_kind(url, content_type)] *)
Definition _guess_kind (url content_type : string) : string :=
  if endswith ".pdf" (lower url) || contains "pdf" content_type then "pdf" else "html".

(** [_should_enqueue(url)]: [... or True]. *)
Definition _should_enqueue (url : string) : bool :=
  endswith_any SAVE_SUFFIXES (lower url) || true.

(** [urlparse(url).netloc] *)
Definition netloc_of (url : string) : option string :=
  p ← urlparse url; Some (netloc p).


(* ===================================================================== *)
(** ** The world the crawler talks to *)
(* ===================================================================== *)

(** What the crawler reads of an [httpx.Response]. *)
Record Response := mkResponse {
  status_code : Z;
  (** [r.headers.get("content-type")] *)
  content_type : option string;
  (** [r.text] and [r.content] *)
  text : string;
  content : string;
  (** the [href] values of the [<a href=...>] elements that
      [BeautifulSoup(r.text, "lxml")] finds, in document order; [None] when
      building the soup raises *)
  hrefs : option (list string);
  (** [re.findall(r"<loc>\s*(https?://[^<]+)\s*</loc>", r.text)] *)
  locs : list string
}.

(** The collaborators of the crawl: a site, a robots parser, a disk, a
    clock.  The site does not change while the crawler runs. *)
Record Env := mkEnv {
  (** [await client.get(url, timeout=20)]; [None] when the request raises *)
  client_get : string -> option Response;
  (** the GET of [RobotsCache.allowed] followed by [resp.status_code] and
      [resp.text.splitlines()]; [None] when anything there raises (a client
      whose [get] returns a coroutine, as [httpx.AsyncClient] does, raises
      at [resp.status_code]) *)
  robots_get : string -> option (Z * list string);
  (** [RobotFileParser]: [rp.parse(lines)] then [rp.can_fetch(agent, url)] *)
  robots_can_fetch : list string -> string -> string -> bool;
  (** [hashlib.sha256(url.encode("utf-8")).hexdigest()] *)
  sha256_hexdigest : string -> string;
  (** whether a write to the file at this path goes through; a failed
      write raises [OSError] and leaves the store as it was *)
  write_ok : string -> bool;
  (** the time a GET of this URL takes by the clock *)
  latency : string -> Q;
  (** the reading of [time.monotonic()] when the crawl starts *)
  clock0 : Q
}.

Record CrawlConfig := mkConfig {
  allow_domains : list string;
  obey_robots_txt : bool;
  rate_limit_per_domain : Q;
  max_pages : Z;
  raw_dir : string;
  include_subdomains : bool;
  use_sitemaps : bool
}.


(* ===================================================================== *)
(** ** [RobotsCache] *)
(* ===================================================================== *)

(** [cache] holds, per netloc, the lines the parser of that netloc was fed. *)
Record RobotsCache := mkRobots {
  cache : gmap string (list string);
  sitemap_urls : gmap string (list string)
}.

Definition RobotsCache_init : RobotsCache := mkRobots ∅ ∅.

(** The [Sitemap:] lines: [line.split(":", 1)[1].strip()] for each line whose
    lower-cased text starts with [sitemap:]. *)
Definition sitemap_lines (lines : list string) : list string :=
  omap (fun line =>
          if startswith "sitemap:" (lower line)
          then let '(_, _, v) := partition ":" line in Some (strip v)
          else None)
       lines.

(** [RobotsCache.allowed(url)]: the answer and the cache after the call;
    [None] when [urlparse] raises. *)
Definition allowed (env : Env) (rc : RobotsCache) (url : string)
  : option (bool * RobotsCache) :=
  p ← urlparse url;
  let nl := netloc p in
  match cache rc !! nl with
  | Some lines => Some (robots_can_fetch env lines USER_AGENT url, rc)
  | None =>
      let robots_url := scheme p +:+ "://" +:+ nl +:+ "/robots.txt" in
      let '(lines, smaps) :=
        match robots_get env robots_url with
        | Some (status, lines) =>
            if (status >=? 400)%Z then ([], sitemap_urls rc)
            else (lines, <[nl := sitemap_lines lines]> (sitemap_urls rc))
        | None => ([], <[nl := []]> (sitemap_urls rc))
        end in
      Some (robots_can_fetch env lines USER_AGENT url,
            mkRobots (<[nl := lines]> (cache rc)) smaps)
  end.

(** [RobotsCache.sitemaps_for(url)] *)
Definition sitemaps_for (rc : RobotsCache) (url : string) : option (list string) :=
  nl ← netloc_of url;
  Some (default [] (sitemap_urls rc !! nl)).

(* ===================================================================== *)
(** ** [RateLimiter] *)
(* ===================================================================== *)

Definition Qmax (a b : Q) : Q := if Qlt_le_dec a b then b else a.

(** [self.min_interval = 1.0 / max(per_domain_rps, 0.001)] *)
Definition min_interval (per_domain_rps : Q) : Q :=
  (1 / Qmax per_domain_rps (1 # 1000))%Q.

(** [RateLimiter.wait(url)]: the [last] table and the clock after the call.
    ([Qred] keeps a rational in lowest terms; it does not change its value.) *)
Definition wait (mi : Q) (last : gmap string Q) (now : Q) (url : string)
  : option (gmap string Q * Q) :=
  host ← netloc_of url;
  let delta := (now - default 0%Q (last !! host))%Q in
  let woke := if Qlt_le_dec delta mi then Qred (now + (mi - delta)) else now in
  Some (<[host := woke]> last, woke).

(* ===================================================================== *)
(** ** The raw store and [_save_blob] *)
(* ===================================================================== *)

Inductive File :=
| Blob (bytes : string)
| Sidecar (url content_type saved_path : string) (time : Q).

Record ManifestEntry := mkEntry {
  m_url : string;
  m_content_type : string;
  m_saved_path : string
}.

(** What is on the disk under [raw_dir]: the files, the lines of
    [_manifest.jsonl] and of [urls.txt] (oldest first). *)
Record Disk := mkDisk {
  files : gmap string File;
  manifest : list ManifestEntry;
  urls_txt : list string
}.

(** [_hash_name(url)] *)
Definition _hash_name (env : Env) (url : string) : string :=
  take 16 (sha256_hexdigest env url).

(** One [write_bytes]/[write_text]: [None] when it raises. *)
Definition write_file (env : Env) (fs : gmap string File) (path : string) (f : File)
  : option (gmap string File) :=
  if write_ok env path then Some (<[path := f]> fs) else None.

(** [_save_blob(raw_dir, url, content, content_type)]: the store after the
    two writes and the relative path returned; on a failed write the store
    reached so far and no path. *)
Definition _save_blob (env : Env) (raw_dir : string) (now : Q)
    (fs : gmap string File) (url body content_type : string)
  : gmap string File * option string :=
  let h := _hash_name env url in
  let kind := _guess_kind url content_type in
  let ext := if String.eqb kind "pdf" then ".pdf" else ".html" in
  let out_dir := raw_dir +:+ "/" +:+ kind in
  let rel := kind +:+ "/" +:+ h +:+ ext in
  match write_file env fs (out_dir +:+ "/" +:+ h +:+ ext) (Blob body) with
  | None => (fs, None)
  | Some fs1 =>
      match write_file env fs1 (out_dir +:+ "/" +:+ h +:+ ".meta.json")
              (Sidecar url content_type rel now) with
      | None => (fs1, None)
      | Some fs2 => (fs2, Some rel)
      end
  end.

(* ===================================================================== *)
(** ** Link extraction and sitemap discovery *)
(* ===================================================================== *)

(** [_parse_links(base_url, html)], given the anchors of the soup. *)
Definition _parse_links (base_url : string) (anchors : list string) : list string :=
  omap (fun href =>
          match _norm_url base_url href with
          | Some n => if truthy n then Some n else None
          | None => None
          end)
       anchors.

(** [set.update]: a Python set is modelled by the list of its elements in
    the order they were first added. *)
Definition set_update (s : list string) (new : list string) : list string :=
  fold_left (fun acc u => if mem u acc then acc else acc ++ [u]) new s.

(** The body of [for sm in robots.sitemaps_for(s)]. *)
Definition discover_sitemap (env : Env) (discovered : list string) (sm : string)
  : list string :=
  match client_get env sm with
  | None => discovered
  | Some r =>
      if (status_code r >=? 400)%Z then discovered
      else set_update discovered (locs r)
  end.

(** [_discover_from_sitemaps(client, start_urls)]; [None] when
    [robots.allowed] raises. *)
Fixpoint discover_from (env : Env) (rc : RobotsCache) (discovered : list string)
    (start_urls : list string) : option (list string) :=
  match start_urls with
  | [] => Some discovered
  | s :: rest =>
      '(_, rc1) ← allowed env rc s;
      smaps ← sitemaps_for rc1 s;
      discover_from env rc1 (fold_left (discover_sitemap env) smaps discovered) rest
  end.

Definition _discover_from_sitemaps (env : Env) (start_urls : list string)
  : option (list string) :=
  discover_from env RobotsCache_init [] start_urls.

(* ===================================================================== *)
(** ** [crawl]: the state of the loop *)
(* ===================================================================== *)

Record State := mkState {
  (** the deque [q] *)
  q : list string;
  seen : gset string;
  robots : RobotsCache;
  (** [limiter.last] and the clock *)
  last : gmap string Q;
  clock : Q;
  fetched : Z;
  saved : Z;
  disk : Disk;
  (** every [_fetch] of the loop with the time it was issued, newest first *)
  requests : list (string * Q)
}.

Inductive Outcome :=
| Done (st : State)     (* the loop ended and the files were closed *)
| Raised (st : State).  (* an exception left [crawl] *)

Definition final (o : Outcome) : State :=
  match o with Done st | Raised st => st end.

(** The seeds loop: [n = _norm_url(s, "") or s], kept when [n] is not empty
    and [_domain_allowed(n, ...)]; [None] when [_domain_allowed] raises. *)
Fixpoint seeds_n (allow : list string) (subdomains : bool) (seeds : list string)
  : option (list string) :=
  match seeds with
  | [] => Some []
  | s :: rest =>
      let n := match _norm_url s EmptyString with
               | Some n => if truthy n then n else s
               | None => s
               end in
      ok ← (if truthy n
            then _domain_allowed n allow subdomains
            else Some false);
      tl ← seeds_n allow subdomains rest;
      Some (if (ok : bool) then n :: tl else tl)
  end.

(** [for u in ...: q.append(u); seen.add(u)] *)
Definition enqueue_all (us : list string) (qs : list string * gset string)
  : list string * gset string :=
  fold_left (fun '(q, seen) u => (q ++ [u], {[u]} ∪ seen)) us qs.

(** The [for nurl in links] loop; it runs inside [try], so an exception of
    [_domain_allowed] ends it with what was enqueued so far. *)
Fixpoint enqueue_links (allow : list string) (subdomains : bool) (links : list string)
    (qs : list string * gset string) : list string * gset string :=
  match links with
  | [] => qs
  | nurl :: rest =>
      let '(q, seen) := qs in
      if decide (nurl ∈ seen) then enqueue_links allow subdomains rest qs
      else
        match _domain_allowed nurl allow subdomains with
        | None => qs
        | Some false => enqueue_links allow subdomains rest qs
        | Some true =>
            if negb (_should_enqueue nurl) then enqueue_links allow subdomains rest qs
            else enqueue_links allow subdomains rest (q ++ [nurl], {[nurl]} ∪ seen)
        end
  end.

(** [(r.headers.get("content-type") or "").split(";")[0].strip().lower()] *)
Definition media_type (r : Response) : string :=
  lower (strip (hd EmptyString (split ";" (or_empty (content_type r))))).

(** [is_pdf] and [is_html] of the loop body. *)
Definition is_pdf (ct url : string) : bool :=
  mem ct PDF_CT || endswith ".pdf" (lower url).

Definition is_html (ct url : string) : bool :=
  mem ct HTML_CT || endswith_any [".html"; ".htm"; "/"] (lower url).

Inductive Step :=
| Exit                    (* the [while] condition is false *)
| Continue (st : State)   (* one iteration ran *)
| Raise (st : State).     (* an exception left the loop body *)

Definition set_q (st : State) (q' : list string) : State :=
  mkState q' (seen st) (robots st) (last st) (clock st) (fetched st) (saved st)
    (disk st) (requests st).

(** One pass through [while q and fetched < config.max_pages]. *)
Definition step (env : Env) (cfg : CrawlConfig) (st : State) : Step :=
  match q st with
  | [] => Exit
  | url :: rest =>
      if negb (fetched st <? max_pages cfg)%Z then Exit
      else
        match (if obey_robots_txt cfg then allowed env (robots st) url
               else Some (true, robots st)) with
        | None => Raise (set_q st rest)
        | Some (false, rc) =>
            Continue (mkState rest (seen st) rc (last st) (clock st) (fetched st)
                        (saved st) (disk st) (requests st))
        | Some (true, rc) =>
            match wait (min_interval (rate_limit_per_domain cfg)) (last st) (clock st) url with
            | None =>
                Raise (mkState rest (seen st) rc (last st) (clock st) (fetched st)
                         (saved st) (disk st) (requests st))
            | Some (last', woke) =>
                let now := Qred (woke + latency env url) in
                let reqs := (url, woke) :: requests st in
                let n := (fetched st + 1)%Z in
                match client_get env url with
                | None =>
                    Continue (mkState rest (seen st) rc last' now n (saved st) (disk st) reqs)
                | Some r =>
                    let ct := media_type r in
                    let pdf := is_pdf ct url in
                    let html := is_html ct url in
                    let '(qs, sn) :=
                      if html then
                        match hrefs r with
                        | Some anchors =>
                            enqueue_links (allow_domains cfg) (include_subdomains cfg)
                              (_parse_links url anchors) (rest, seen st)
                        | None => (rest, seen st)
                        end
                      else (rest, seen st) in
                    if pdf || html then
                      match _save_blob env (raw_dir cfg) now (files (disk st)) url
                              (if pdf then content r else text r) ct with
                      | (fs, None) =>
                          Raise (mkState rest (seen st) rc last' now n (saved st)
                                   (mkDisk fs (manifest (disk st)) (urls_txt (disk st))) reqs)
                      | (fs, Some saved_path) =>
                          Continue (mkState qs sn rc last' now n (saved st + 1)%Z
                                      (mkDisk fs
                                         (manifest (disk st) ++ [mkEntry url ct saved_path])
                                         (urls_txt (disk st) ++ [url]))
                                      reqs)
                      end
                    else
                      Continue (mkState qs sn rc last' now n (saved st) (disk st) reqs)
                end
            end
        end
  end.

(** The [while] loop, bounded by [fuel] passes; [None] when the fuel runs
    out before the loop ends. *)
Fixpoint loop (fuel : nat) (env : Env) (cfg : CrawlConfig) (st : State) : option Outcome :=
  match step env cfg st with
  | Exit => Some (Done st)
  | Raise st' => Some (Raised st')
  | Continue st' =>
      match fuel with
      | O => None
      | S k => loop k env cfg st'
      end
  end.

(** [for u in discovered: if _domain_allowed(u, ...)]: the URLs kept. *)
Fixpoint keep_allowed (allow : list string) (subdomains : bool) (us : list string)
  : option (list string) :=
  match us with
  | [] => Some []
  | u :: rest =>
      ok ← _domain_allowed u allow subdomains;
      tl ← keep_allowed allow subdomains rest;
      Some (if (ok : bool) then u :: tl else tl)
  end.

(** The state in which the loop starts: sitemap URLs first, then the
    seeds; [None] when an exception is raised before the loop. *)
Definition start (env : Env) (cfg : CrawlConfig) (seeds : list string) (d : Disk)
  : option State :=
  sn ← seeds_n (allow_domains cfg) (include_subdomains cfg) seeds;
  discovered ← (if use_sitemaps cfg then _discover_from_sitemaps env sn else Some []);
  allowed_disc ← keep_allowed (allow_domains cfg) (include_subdomains cfg) discovered;
  let '(q0, seen0) := enqueue_all sn (enqueue_all allowed_disc ([], ∅ : gset string)) in
  Some (mkState q0 seen0 RobotsCache_init ∅ (clock0 env) 0 0 d []).

(** [crawl(config, seeds)] on a disk [d]. *)
Definition crawl (fuel : nat) (env : Env) (cfg : CrawlConfig) (seeds : list string)
    (d : Disk) : option Outcome :=
  match start env cfg seeds d with
  | None => Some (Raised (mkState [] ∅ RobotsCache_init ∅ (clock0 env) 0 0 d []))
  | Some st => loop fuel env cfg st
  end.

(** What a run of [crawl] shows from outside: whether it ended normally,
    what was left in the queue, the fetches in the order they were issued,
    the two counters and the URLs of the manifest lines. *)
Record Report := mkReport {
  ended_normally : bool;
  queue_left : list string;
  fetches : list (string * Q);
  fetched_count : Z;
  saved_count : Z;
  manifest_urls : list string
}.

Definition report (o : Outcome) : Report :=
  mkReport (match o with Done _ => true | Raised _ => false end)
    (q (final o)) (List.rev (requests (final o)))
    (fetched (final o)) (saved (final o))
    (map m_url (manifest (disk (final o)))).

End Crawl.

(* ===================================================================== *)
(** ** The sibling PDF crawlers under [scripts/] *)
(* ===================================================================== *)

Module PdfScripts.
Import Str Url Crawl.

(** [re.search(r"\.pdf(\?|$)", u, re.I)]: [$] matches at the end of the
    text and before a final newline. *)
Definition at_dollar_or_query (r : string) : bool :=
  is_empty r || String.eqb r (String "010" EmptyString) || startswith "?" r.

Fixpoint looks_pdf (u : string) : bool :=
  (String.eqb (lower (take 4 u)) ".pdf" && at_dollar_or_query (drop 4 u)) ||
  match u with
  | EmptyString => false
  | String _ r => looks_pdf r
  end.

(** The test of [crawl_pdfs.py] and [crawl_pdfs_sync.py] that a response is
    a PDF: ["application/pdf" in ct or looks_pdf(u)]. *)
Definition worker_is_pdf (ct u : string) : bool :=
  contains "application/pdf" ct || looks_pdf u.

(** What the scripts need of the world: the SHA-1 digest, the site (status,
    lower-cased content type and body of a GET; [None] when it raises) and
    the disk. *)
Record Env := mkEnv {
  sha1_hexdigest : string -> string;
  http_get : string -> option (Z * string * string);
  write_ok : string -> bool
}.

Definition sha16 (env : Env) (s : string) : string := take 16 (sha1_hexdigest env s).

(** *** [crawl_pdfs.py], [worker]: the block that saves a PDF *)

(** Lines 124-136: both writes sit in one [try]; [except Exception: pass].
    The result is the store and [pdf_saved]; the worker goes on to the next
    URL in either case. *)
Definition worker_save (env : Env) (out_dir : string) (now : Q)
    (fs : gmap string File) (pdf_saved : Z) (u body : string)
  : gmap string File * Z :=
  let sid := sha16 env u in
  let pdf_path := out_dir +:+ "/" +:+ sid +:+ ".pdf" in
  let meta_path := out_dir +:+ "/" +:+ sid +:+ ".meta.json" in
  if write_ok env pdf_path then
    let fs1 := <[pdf_path := Blob body]> fs in
    if write_ok env meta_path
    then (<[meta_path := Sidecar u "application/pdf" pdf_path now]> fs1, (pdf_saved + 1)%Z)
    else (fs1, pdf_saved)
  else (fs, pdf_saved).

(** *** [crawl_pdfs_sitemaps_first.py]: the resumable downloader *)

Definition RETRIES : nat := 3.

(** [os.path.basename(path)] *)
Definition basename (path : string) : string :=
  match rpartition "/" path with
  | Some (_, b) => b
  | None => path
  end.

(** [re.sub(r"[^A-Za-z0-9._-]", "_", name)] *)
Fixpoint sanitize (name : string) : string :=
  match name with
  | EmptyString => EmptyString
  | String c r =>
      String (if is_alpha c || is_digit c || has_char c "._-" then c else "_"%char)
             (sanitize r)
  end.

(** [target_paths_for(url)]; [None] when [urlparse] raises. *)
Definition target_paths_for (env : Env) (out_dir url : string) : option (string * string) :=
  let sid := sha16 env url in
  parsed ← urlparse url;
  let name0 := basename (path parsed) in
  let name1 := sanitize (if truthy name0 then name0 else sid +:+ ".pdf") in
  let name := if endswith ".pdf" (lower name1) then name1 else name1 +:+ ".pdf" in
  Some (out_dir +:+ "/" +:+ sid +:+ "_" +:+ name, out_dir +:+ "/" +:+ sid +:+ ".meta.json").

(** [fetch(url, stream)]: up to [RETRIES] GETs, the first answer with status
    200 wins.  The result carries the number of GETs issued. *)
Fixpoint fetch (env : Env) (tries : nat) (url : string) : option (string * string) * nat :=
  match tries with
  | O => (None, O)
  | S k =>
      match http_get env url with
      | Some (200%Z, ct, body) => (Some (ct, body), 1%nat)
      | _ => let '(r, n) := fetch env k url in (r, S n)
      end
  end.

Record DownloadResult := mkResult {
  d_url : string;
  d_path : string;
  d_ok : bool;
  d_size : nat
}.

(** The size of the file at [path] when it exists. *)
Definition file_size (fs : gmap string File) (path : string) : option nat :=
  match fs !! path with
  | Some (Blob b) => Some (String.length b)
  | Some (Sidecar _ _ _ _) => Some 1%nat
  | None => None
  end.

(** [pdf_path.exists() and pdf_path.stat().st_size > 0 and meta_path.exists()] *)
Definition already_saved (fs : gmap string File) (pdf_path meta_path : string) : bool :=
  match file_size fs pdf_path, fs !! meta_path with
  | Some n, Some _ => (0 <? n)%nat
  | _, _ => false
  end.

(** [download_one(url)]: the result, the store afterwards and the number of
    GETs issued. *)
Definition download_one (env : Env) (out_dir : string) (now : Q)
    (fs : gmap string File) (url : string) : DownloadResult * gmap string File * nat :=
  match target_paths_for env out_dir url with
  | None => (mkResult url EmptyString false 0, fs, O)
  | Some (pdf_path, meta_path) =>
      if already_saved fs pdf_path meta_path
      then (mkResult url pdf_path true (default O (file_size fs pdf_path)), fs, O)
      else
        match fetch env RETRIES url with
        | (None, n) => (mkResult url pdf_path false 0, fs, n)
        | (Some (ctype, body), n) =>
            if negb (contains "pdf" ctype) && negb (looks_pdf url)
            then (mkResult url pdf_path false 0, fs, n)
            else if negb (write_ok env pdf_path)
            then (mkResult url EmptyString false 0, fs, n)
            else
              let fs1 := <[pdf_path := Blob body]> fs in
              if write_ok env meta_path
              then (mkResult url pdf_path true (String.length body),
                    <[meta_path := Sidecar url "application/pdf" pdf_path now]> fs1, n)
              else (mkResult url EmptyString false 0, fs1, n)
        end
  end.

End PdfScripts.

(* ===================================================================== *)
(** ** The robots.txt rules of [urllib.robotparser] *)
(* ===================================================================== *)

(** The parser the example environments use for [robots_can_fetch]:
    [RobotFileParser.parse] and [can_fetch] of CPython's
    [urllib/robotparser.py], on ASCII text. *)
Module RobotsTxt.
Import Str Url.

Definition hex_digit (n : nat) : ascii :=
  ascii_of_nat (if (n <? 10)%nat then 48 + n else 55 + n).

Definition hex_value (c : ascii) : option nat :=
  if is_digit c then Some (code c - 48)%nat
  else if between 65 70 c then Some (code c - 55)%nat
  else if between 97 102 c then Some (code c - 87)%nat
  else None.

(** [urllib.parse.quote(s)] with the default [safe="/"]. *)
Fixpoint quote (s : string) : string :=
  match s with
  | EmptyString => EmptyString
  | String c r =>
      if is_alpha c || is_digit c || has_char c "_.-~/" then String c (quote r)
      else String "%" (String (hex_digit (code c / 16)) (String (hex_digit (code c mod 16)) (quote r)))
  end.

(** [urllib.parse.unquote(s)]: every [%XX] below 128 is decoded. *)
Fixpoint unquote (s : string) : string :=
  match s with
  | String "%" (String a (String b r) as r0) =>
      match hex_value a, hex_value b with
      | Some x, Some y =>
          if (x <? 8)%nat then String (ascii_of_nat (16 * x + y)) (unquote r)
          else String "%" (unquote r0)
      | _, _ => String "%" (unquote r0)
      end
  | String c r => String c (unquote r)
  | EmptyString => EmptyString
  end.

Record Entry := mkEntry {
  useragents : list string;
  (** the rule lines: a path and its allowance *)
  rulelines : list (string * bool)
}.

Record Parser := mkParser {
  entries : list Entry;
  default_entry : option Entry
}.

Definition empty_entry : Entry := mkEntry [] [].

Definition _add_entry (p : Parser) (e : Entry) : Parser :=
  if mem "*" (useragents e)
  then match default_entry p with
       | None => mkParser (entries p) (Some e)
       | Some _ => p
       end
  else mkParser (entries p ++ [e]) (default_entry p).

(** [RuleLine(path, allowance)] *)
Definition rule_line (path : string) (allowance : bool) : string * bool :=
  (quote (match urlparse path with Some p => urlunparse p | None => path end),
   if negb (truthy path) && negb allowance then true else allowance).

(** The body of [for line in lines] on the parser state
    (0: start, 1: saw user-agent, 2: saw a rule). *)
Definition parse_line (acc : nat * Entry * Parser) (line : string)
  : nat * Entry * Parser :=
  let '(state, entry, p) := acc in
  let '(state, entry, p) :=
    if truthy line then (state, entry, p)
    else match state with
         | 1%nat => (0%nat, empty_entry, p)
         | 2%nat => (0%nat, empty_entry, _add_entry p entry)
         | _ => (state, entry, p)
         end in
  let '(uncommented, _, _) := partition "#" line in
  let line := strip uncommented in
  if negb (truthy line) then (state, entry, p)
  else
    let '(k, colon, v) := partition ":" line in
    if negb colon then (state, entry, p)
    else
      let key := lower (strip k) in
      let value := unquote (strip v) in
      if String.eqb key "user-agent" then
        let '(entry, p) :=
          if (state =? 2)%nat then (empty_entry, _add_entry p entry) else (entry, p) in
        (1%nat, mkEntry (useragents entry ++ [value]) (rulelines entry), p)
      else if String.eqb key "disallow" || String.eqb key "allow" then
        if (state =? 0)%nat then (state, entry, p)
        else (2%nat,
              mkEntry (useragents entry)
                (rulelines entry ++ [rule_line value (String.eqb key "allow")]),
              p)
      else if String.eqb key "crawl-delay" || String.eqb key "request-rate" then
        if (state =? 0)%nat then (state, entry, p) else (2%nat, entry, p)
      else (state, entry, p).

(** [rp.parse(lines)] on a fresh parser. *)
Definition parse (lines : list string) : Parser :=
  let '(state, entry, p) := fold_left parse_line lines (0%nat, empty_entry, mkParser [] None) in
  if (state =? 2)%nat then _add_entry p entry else p.

(** [Entry.applies_to(useragent)] *)
Definition applies_to (e : Entry) (useragent : string) : bool :=
  let ua := lower (hd EmptyString (split "/" useragent)) in
  existsb (fun agent => String.eqb agent "*" || contains (lower agent) ua)
          (useragents e).

(** [Entry.allowance(filename)] *)
Definition allowance (e : Entry) (filename : string) : bool :=
  match List.find (fun r => String.eqb (fst r) "*" || startswith (fst r) filename)
          (rulelines e) with
  | Some r => snd r
  | None => true
  end.

(** [rp.can_fetch(useragent, url)] after [rp.parse(lines)]. *)
Definition can_fetch (lines : list string) (useragent url : string) : bool :=
  let rp := parse lines in
  let target :=
    match urlparse (unquote url) with
    | Some p =>
        let t := quote (urlunparse (mkParse "" "" (path p) (params p) (query p) (fragment p))) in
        if truthy t then t else "/"
    | None => "/"
    end in
  match List.find (fun e => applies_to e useragent) (entries rp) with
  | Some e => allowance e target
  | None =>
      match default_entry rp with
      | Some e => allowance e target
      | None => true
      end
  end.

End RobotsTxt.

(* ===================================================================== *)
(** ** A small site to run the crawler on *)
(* ===================================================================== *)

Module Site.
Import Str Url Crawl.

Definition page (ct : string) (anchors : list string) : Response :=
  mkResponse 200 (Some ct) "<html>page</html>" "<html>page</html>" (Some anchors) [].

Definition pdf (ct : string) : Response :=
  mkResponse 200 (Some ct) "" "%PDF-1.7" (Some []) [].

(** The pages of [example.org]: the home page links to [/a] twice, through
    two fragments, and to three more pages. *)
Definition get (url : string) : option Response :=
  if String.eqb url "http://example.org/" then
    Some (page "text/html; charset=utf-8" ["/a#x"; "/a#y"; "/b/"; "/report.pdf?v=2"; "/c.pdf"])
  else if String.eqb url "http://example.org/a" then
    Some (page "text/html" ["/"; "/b/"; "/private/d"])
  else if String.eqb url "http://example.org/b/" then
    Some (page "application/octet-stream" ["e"])
  else if String.eqb url "http://example.org/report.pdf?v=2" then
    Some (pdf "application/octet-stream")
  else if String.eqb url "http://example.org/c.pdf" then
    Some (pdf "application/pdf")
  else if String.eqb url "http://example.org/private/d" then
    Some (page "text/html" [])
  else None.

(** [robots.txt] of the site keeps crawlers out of [/private]. *)
Definition robots (url : string) : option (Z * list string) :=
  if String.eqb url "http://example.org/robots.txt"
  then Some (200%Z, ["User-agent: *"; "Disallow: /private"])
  else None.

(** A stand-in for the SHA-256 digest, injective on the URLs of the site. *)
Definition digest (url : string) : string := rev url.

Definition env : Env :=
  mkEnv get robots RobotsTxt.can_fetch digest (fun _ => true) (fun _ => 0%Q) 0%Q.

Definition config (k : Z) : CrawlConfig :=
  mkConfig ["example.org"] true 2%Q k "data/raw" true false.

Definition empty_disk : Disk := mkDisk ∅ [] [].

Definition home : string := "http://example.org/".


(** The same site on a disk that refuses every write. *)
Definition env_disk_full : Env :=
  mkEnv get robots RobotsTxt.can_fetch digest (fun _ => false) (fun _ => 0%Q) 0%Q.



(** The site as the PDF scripts see it, with a stand-in for SHA-1. *)
Definition scripts_env : PdfScripts.Env :=
  PdfScripts.mkEnv digest
    (fun url => match get url with
                | Some r => Some (status_code r, lower (or_empty (content_type r)), content r)
                | None => None
                end)
    (fun _ => true).


(** The pages of the site. *)
Definition page_a : string := "http://example.org/a".
Definition page_b : string := "http://example.org/b/".
Definition page_c : string := "http://example.org/c.pdf".
Definition page_d : string := "http://example.org/private/d".
Definition page_e : string := "http://example.org/b/e".
Definition report_pdf : string := "http://example.org/report.pdf?v=2".

(** The run from the home page at 2 requests a second: [/private/d] is
    kept out by robots.txt, [/b/e] does not answer, [/report.pdf?v=2] is
    fetched and not saved. *)
Definition full_report : Report :=
  mkReport true []
    [(home, 1 # 2); (page_a, 1); (page_b, 3 # 2); (report_pdf, 2); (page_c, 5 # 2);
     (page_e, 3)]%Q
    6 4 [home; page_a; page_b; page_c].


(** The run under a cap of three pages. *)
Definition capped_report : Report :=
  mkReport true [report_pdf; page_c; page_d; page_e]
    [(home, 1 # 2); (page_a, 1); (page_b, 3 # 2)]%Q
    3 3 [home; page_a; page_b].

(** The run under a cap of one page. *)
Definition first_page_report : Report :=
  mkReport true [page_a; page_b; report_pdf; page_c] [(home, 1 # 2)%Q] 1 1 [home].

(** The run with the home page given twice as a seed. *)
Definition twice_report : Report :=
  mkReport true []
    [(home, 1 # 2); (home, 1); (page_a, 3 # 2); (page_b, 2); (report_pdf, 5 # 2);
     (page_c, 3); (page_e, 7 # 2)]%Q
    7 5 [home; home; page_a; page_b; page_c].

(** The run from two seeds on the disk that refuses every write. *)
Definition disk_full_report : Report :=
  mkReport false [page_a] [(home, 1 # 2)%Q] 1 0 [].




End Site.

(* ===================================================================== *)
(** ** Predicates on the states and logs of a crawl *)
(* ===================================================================== *)

Module Props.
Import Str Url Crawl.





(** The robots.txt address [allowed] asks for. *)
Definition robots_url (p : ParseResult) : string :=
  scheme p +:+ "://" +:+ netloc p +:+ "/robots.txt".

(** The rules cached for a netloc are empty, or the lines of an answer with
    a status below 400 from a robots.txt address of that netloc. *)
Definition served (env : Env) (nl : string) (lines : list string) : Prop :=
  lines = [] \/
  exists sch status,
    robots_get env (sch +:+ "://" +:+ nl +:+ "/robots.txt") = Some (status, lines)
    /\ (status < 400)%Z.



(** The robots check of the loop lets [url] through. *)
Definition passes_robots (env : Env) (cfg : CrawlConfig) (st : State) (url : string) : Prop :=
  obey_robots_txt cfg = false \/
  exists rc, allowed env (robots st) url = Some (true, rc).

(** The request failed, or the answer is neither HTML nor a PDF. *)
Definition nothing_to_save (env : Env) (url : string) : Prop :=
  client_get env url = None \/
  exists r, client_get env url = Some r /\
            is_pdf (media_type r) url = false /\ is_html (media_type r) url = false.

(** The states the loop of [crawl(config, seeds)] goes through. *)
Inductive reachable (env : Env) (cfg : CrawlConfig) (seeds : list string) (d : Disk)
  : State -> Prop :=
| reach_start st :
    start env cfg seeds d = Some st -> reachable env cfg seeds d st
| reach_step st st' :
    reachable env cfg seeds d st -> step env cfg st = Continue st' ->
    reachable env cfg seeds d st'.

(** Every URL in the queue was accepted by the domain policy. *)
Definition queue_allowed (cfg : CrawlConfig) (st : State) : Prop :=
  forall u, In u (q st) ->
    _domain_allowed u (allow_domains cfg) (include_subdomains cfg) = Some true.


End Props.

(* ===================================================================== *)
(** ** The sitemap-first script: hosts and URLs *)
(* ===================================================================== *)

Module SitemapScript.
Import Str Url Crawl PdfScripts.

(** [ALLOWED] of [crawl_pdfs_sitemaps_first.py] *)
Definition ALLOWED : list string := ["scnat.ch"; "portal-cdn.scnat.ch"].

(** [is_allowed_host(u)]: [False] when [urlparse] raises. *)
Definition is_allowed_host (u : string) : bool :=
  match urlparse u with
  | None => false
  | Some p =>
      let h := or_empty (hostname p) in
      mem h ALLOWED || existsb (fun d => endswith ("." +:+ d) h) ALLOWED
  end.

(** [normalize_url(u)]: [urldefrag(u.strip())[0]]; [None] when it raises. *)
Definition normalize_url (u : string) : option string := urldefrag (strip u).

End SitemapScript.

(* ===================================================================== *)
(** ** [gather_from_sitemaps] of the sitemap-first script *)
(* ===================================================================== *)

Module Gather.
Import Str Url Crawl PdfScripts SitemapScript.

(** What [gather_from_sitemaps] needs of the world besides [http_get]. *)
Record Web := mkWeb {
  (** [rp.set_url(url); rp.read(); rp.site_maps()]: the sitemaps the
      robots.txt at [url] lists; [None] when it lists none or the read
      raised *)
  site_maps : string -> option (list string);
  (** [parse_sitemap(body)]: the stripped texts of the [<loc>] elements *)
  parse_sitemap : string -> list string
}.

(** [get_robots_sitemaps(host)] *)
Definition get_robots_sitemaps (web : Web) (host : string) : list string :=
  let base := "https://" +:+ host in
  set_update (default [] (site_maps web (base +:+ "/robots.txt")))
    [base +:+ "/sitemap.xml"; base +:+ "/sitemap_index.xml"].

(** The [for u in pages] loop: the set [found] afterwards; [None] when
    [normalize_url] raises. *)
Fixpoint keep_pdfs (pages : list string) (found : list string) : option (list string) :=
  match pages with
  | [] => Some found
  | u :: rest =>
      u' ← normalize_url u;
      keep_pdfs rest
        (if is_allowed_host u' && looks_pdf u' then set_update found [u'] else found)
  end.

Inductive Gathered :=
| Found (found seen_maps : list string)   (* the loop ended *)
| Failed.                                 (* an exception left the loop *)

(** The [while to_visit] loop, bounded by [fuel] passes.  The stack
    [to_visit] is kept with its top (the end of the Python list) first;
    the sets are kept in the order of insertion. *)
Fixpoint gather_loop (fuel : nat) (env : PdfScripts.Env) (web : Web)
    (to_visit seen_maps found : list string) : option Gathered :=
  match to_visit with
  | [] => Some (Found found seen_maps)
  | sm :: rest =>
      match fuel with
      | O => None
      | S k =>
          if mem sm seen_maps then gather_loop k env web rest seen_maps found
          else
            let seen' := seen_maps ++ [sm] in
            match fetch env RETRIES sm with
            | (None, _) => gather_loop k env web rest seen' found
            | (Some (_, body), _) =>
                if negb (truthy body) then gather_loop k env web rest seen' found
                else
                  let urls := parse_sitemap web body in
                  let nested := List.filter (endswith ".xml") urls in
                  let pages := List.filter (fun u => negb (endswith ".xml" u)) urls in
                  match keep_pdfs pages found with
                  | None => Some Failed
                  | Some found' =>
                      gather_loop k env web (List.rev nested ++ rest) seen' found'
                  end
            end
      end
  end.

(** [gather_from_sitemaps(hosts)] *)
Definition gather_from_sitemaps (fuel : nat) (env : PdfScripts.Env) (web : Web)
    (hosts : list string) : option Gathered :=
  gather_loop fuel env web
    (List.rev (concat (map (get_robots_sitemaps web) hosts))) [] [].

End Gather.

(* ===================================================================== *)
(** ** [src/ragchat/parse.py]: the sidecar of a blob *)
(* ===================================================================== *)

Module Parse.
Import Str Url Crawl.

(** [PurePath.suffix] of a file name: the last dot and what follows it,
    unless that dot is the first or the last character. *)
Definition suffix (name : string) : string :=
  match rpartition "." name with
  | Some (a, b) => if truthy a && truthy b then "." +:+ b else EmptyString
  | None => EmptyString
  end.

(** [path.with_suffix(suf)] for a suffix that starts with a dot: [None] is
    the [ValueError] for a path with an empty name. *)
Definition with_suffix (path suf : string) : option string :=
  let '(dir, name) :=
    match rpartition "/" path with
    | Some (a, b) => (a +:+ "/", b)
    | None => (EmptyString, path)
    end in
  if negb (truthy name) then None
  else
    let old := suffix name in
    Some (dir +:+ (if truthy old
                   then take (String.length name - String.length old) name
                   else name) +:+ suf).

(** [_read_meta_for(path)]: the [url] and the [content_type] of the sidecar
    beside [path]; the inner [None] is the empty dict returned when there is
    no sidecar or it is not JSON, the outer one an exception. *)
Definition _read_meta_for (fs : gmap string File) (path : string)
  : option (option (string * string)) :=
  meta_path ← with_suffix path ".meta.json";
  Some (match fs !! meta_path with
        | Some (Sidecar url ct _ _) => Some (url, ct)
        | _ => None
        end).

End Parse.

(* ===================================================================== *)
(** ** More example worlds *)
(* ===================================================================== *)

Module Samples.
Import Str Url Crawl.

(** The example site with robots off. *)
Definition config_no_robots : CrawlConfig :=
  mkConfig ["example.org"] false 2%Q 1000 "data/raw" true false.

(** A robots.txt that names a sitemap, and the sitemap it names. *)
Definition robots_with_sitemap (url : string) : option (Z * list string) :=
  if String.eqb url "http://example.org/robots.txt"
  then Some (200%Z, ["SiteMap:  http://example.org/sitemap.xml "; "User-agent: *";
                     "Disallow: /private"])
  else None.

Definition get_with_sitemap (url : string) : option Response :=
  if String.eqb url "http://example.org/sitemap.xml"
  then Some (mkResponse 200 (Some "application/xml") "" ""
               (Some []) ["http://example.org/a"; "http://elsewhere.org/x"])
  else Site.get url.

Definition env_with_sitemap : Env :=
  mkEnv get_with_sitemap robots_with_sitemap RobotsTxt.can_fetch Site.digest
    (fun _ => true) (fun _ => 0%Q) 0%Q.

Definition config_with_sitemaps : CrawlConfig :=
  mkConfig ["example.org"] true 2%Q 1000 "data/raw" true true.

(** The example site with a digest made of hexadecimal digits, as those of
    SHA-256 are. *)
Definition hex_digest (url : string) : string :=
  "9f86d081884c7d659a2feaa0c55ad015a3bf4f1b2b0b822cd15d6c15b0f00a08".

Definition env_hex : Env :=
  mkEnv Site.get Site.robots RobotsTxt.can_fetch hex_digest
    (fun _ => true) (fun _ => 0%Q) 0%Q.

(** Two sitemaps of [scnat.ch] that name each other, and what they list. *)
Definition sitemap_a : string := "https://scnat.ch/sitemap.xml".
Definition sitemap_b : string := "https://scnat.ch/sitemap_index.xml".

Definition scnat_get (url : string) : option (Z * string * string) :=
  if String.eqb url sitemap_a then Some (200%Z, "application/xml", "A")
  else if String.eqb url sitemap_b then Some (200%Z, "application/xml", "B")
  else None.

Definition scnat_env : PdfScripts.Env :=
  PdfScripts.mkEnv Site.digest scnat_get (fun _ => true).

Definition scnat_web : Gather.Web :=
  Gather.mkWeb (fun _ => None)
    (fun body =>
       if String.eqb body "A"
       then [sitemap_b; "https://scnat.ch/docs/a.pdf#page=2"; "https://elsewhere.org/b.pdf"]
       else if String.eqb body "B"
       then [sitemap_a; "https://portal-cdn.scnat.ch/c.PDF?v=1"; "https://scnat.ch/about"]
       else []).

End Samples.

(* ===================================================================== *)
(** ** Predicates on the frontier of a crawl *)
(* ===================================================================== *)

Module PolicyProps.
Import Str Url Crawl Props.

(** One entry of the allow-list accepts [host]: the host is the entry, or,
    with subdomains on, ends in a dot followed by the entry. *)
Definition entry_accepts (host : string) (sub : bool) (dom : string) : Prop :=
  host = clean_domain dom \/
  (sub = true /\ exists pre, host = pre +:+ "." +:+ clean_domain dom).

(** Every fetch logged so far, and every URL still queued, was accepted by
    the domain policy. *)
Definition within_policy (cfg : CrawlConfig) (st : State) : Prop :=
  queue_allowed cfg st /\
  forall u t, In (u, t) (requests st) ->
    _domain_allowed u (allow_domains cfg) (include_subdomains cfg) = Some true.

(** The URLs fetched and the URLs queued are all different and all in
    [seen]. *)
Definition visited_once (st : State) : Prop :=
  NoDup (map fst (requests st) ++ q st) /\
  forall u, In u (map fst (requests st) ++ q st) -> u ∈ seen st.

End PolicyProps.

(* ===================================================================== *)
(** ** Predicates on the raw store *)
(* ===================================================================== *)

Module StoreProps.
Import Str Url Crawl.

(** The extension [_save_blob] gives a kind. *)
Definition ext_of (kind : string) : string :=
  if String.eqb kind "pdf" then ".pdf" else ".html".

(** The manifest entry [e] is backed by the store: under [raw_dir] the
    blob lies at its [saved_path], and beside it lies a sidecar that names
    the same [saved_path]. *)
Definition stored (raw_dir : string) (fs : gmap string File) (e : ManifestEntry) : Prop :=
  exists kind h body u c t,
    (kind = "pdf" \/ kind = "html") /\
    m_saved_path e = kind +:+ "/" +:+ h +:+ ext_of kind /\
    fs !! (raw_dir +:+ "/" +:+ m_saved_path e) = Some (Blob body) /\
    fs !! (raw_dir +:+ "/" +:+ kind +:+ "/" +:+ h +:+ ".meta.json")
      = Some (Sidecar u c (m_saved_path e) t).

(** The disk [d] is the disk [d0] with the lines [added] appended to the
    manifest, their URLs to [urls.txt], and each line backed by the store. *)
Definition grown_by (raw_dir : string) (d0 d : Disk) (added : list ManifestEntry) : Prop :=
  manifest d = manifest d0 ++ added /\
  urls_txt d = urls_txt d0 ++ map m_url added /\
  forall e, In e added -> stored raw_dir (files d) e.

(** On the disk [d0] the crawl started from, every line appended to the
    manifest so far is backed by the store and belongs to a fetch in the log;
    [saved] counts these lines. *)
Definition manifest_backed (raw_dir : string) (d0 : Disk) (st : State) : Prop :=
  exists added,
    grown_by raw_dir d0 (disk st) added /\
    saved st = Z.of_nat (length added) /\
    forall e, In e added -> In (m_url e) (map fst (requests st)).

End StoreProps.

(* ===================================================================== *)
(** ** Predicates on sitemap discovery *)
(* ===================================================================== *)

Module DiscoverProps.
Import Str Url Crawl.




End DiscoverProps.

(* ===================================================================== *)
(** ** Predicates on the names the scripts write *)
(* ===================================================================== *)

Module PdfProps.
Import Str Url Crawl PdfScripts.

(** The characters [sanitize] lets through. *)
Definition is_safe (c : ascii) : bool := is_alpha c || is_digit c || has_char c "._-".

End PdfProps.

(* ===================================================================== *)
(** ** Predicates on the sitemap walk *)
(* ===================================================================== *)

Module GatherProps.
Import Str Url Crawl PdfScripts SitemapScript Gather.

(** The sitemaps that the sitemap at [sm] names (the [<loc>]s that end in
    [.xml]), when [fetch] answers with a body. *)
Definition nested_of (env : PdfScripts.Env) (web : Web) (sm : string) : list string :=
  match fetch env RETRIES sm with
  | (Some (_, body), _) =>
      if truthy body then List.filter (endswith ".xml") (parse_sitemap web body) else []
  | (None, _) => []
  end.

(** The list [U] holds every sitemap that can be reached: it is closed under
    [nested_of]. *)
Definition closed (env : PdfScripts.Env) (web : Web) (U : list string) : Prop :=
  forall sm u, In sm U -> In u (nested_of env web sm) -> In u U.

(** How many sitemaps of [U] were not seen yet. *)
Definition unseen (U seen_maps : list string) : nat :=
  length (List.filter (fun u => negb (mem u seen_maps)) U).

(** What [found] may hold: a URL of an allowed host that looks like a PDF
    and carries no fragment. *)
Definition wanted (u : string) : Prop :=
  is_allowed_host u = true /\ looks_pdf u = true /\ has_char "#" u = false.

End GatherProps.

(* ===================================================================== *)
(** ** Properties of the loop of [crawl] *)
(* ===================================================================== *)

Module LoopFacts.
Import Str Url Crawl Props.

Ltac break_match_in H :=
  match type of H with
  | context [match ?x with _ => _ end] => destruct x eqn:?
  end.

(** Unfolds [step] in [H : step env cfg st = _] and splits it into the
    paths through the loop body. *)
Ltac step_paths H :=
  unfold step in H;
  repeat (break_match_in H; try discriminate H);
  try (injection H as H); subst.

Section Loop.
Variables (env : Env) (cfg : CrawlConfig).



(** A pass that goes on either drops a URL that robots.txt disallows, or
    issues one fetch. *)
Lemma step_continue st st' :
  step env cfg st = Continue st' ->
  exists url rest,
    q st = url :: rest /\ (fetched st < max_pages cfg)%Z /\
    ((fetched st' = fetched st /\ q st' = rest /\ requests st' = requests st /\
      disk st' = disk st /\ saved st' = saved st)
     \/ (fetched st' = fetched st + 1)%Z).
Proof.
  intros H. unfold step in H.
  destruct (q st) as [|url rest] eqn:Hq; [discriminate|].
  destruct (fetched st <? max_pages cfg)%Z eqn:Hlt; [|discriminate].
  apply Z.ltb_lt in Hlt. exists url, rest. split; [reflexivity|]. split; [exact Hlt|].
  simpl in H.
  repeat (break_match_in H; try discriminate H); injection H as <-; simpl;
    first [left; repeat split; reflexivity | right; reflexivity].
Qed.

Lemma step_raise st st' :
  step env cfg st = Raise st' ->
  (fetched st < max_pages cfg)%Z /\
  (fetched st' = fetched st \/ fetched st' = fetched st + 1)%Z.
Proof.
  intros H. unfold step in H.
  destruct (q st) as [|url rest] eqn:Hq; [discriminate|].
  destruct (fetched st <? max_pages cfg)%Z eqn:Hlt; [|discriminate].
  apply Z.ltb_lt in Hlt. split; [exact Hlt|]. simpl in H.
  repeat (break_match_in H; try discriminate H); injection H as <-; simpl; auto.
Qed.

(** More fuel does not change a result. *)
Lemma loop_fuel_mono n m st o :
  loop n env cfg st = Some o -> (n <= m)%nat -> loop m env cfg st = Some o.
Proof.
  revert m st. induction n as [|n IH]; intros m st H Hle.
  - destruct m; [exact H|]. simpl in *. destruct (step env cfg st); congruence.
  - destruct m; [lia|]. simpl in *.
    destruct (step env cfg st); try congruence. apply IH; [exact H | lia].
Qed.

Lemma loop_deterministic n m st o o' :
  loop n env cfg st = Some o -> loop m env cfg st = Some o' -> o = o'.
Proof.
  intros H H'.
  apply (loop_fuel_mono _ (Nat.max n m)) in H; [|lia].
  apply (loop_fuel_mono _ (Nat.max n m)) in H'; [|lia].
  congruence.
Qed.


(** A property kept by every pass holds when the loop ends. *)
Lemma loop_invariant (P : State -> Prop) :
  (forall st st', P st -> step env cfg st = Continue st' -> P st') ->
  (forall st st', P st -> step env cfg st = Raise st' -> P st') ->
  forall fuel st o, P st -> loop fuel env cfg st = Some o -> P (final o).
Proof.
  intros Hc Hr fuel. induction fuel as [|fuel IH]; intros st o HP Hrun; simpl in Hrun.
  - destruct (step env cfg st) eqn:Hs; try discriminate;
      injection Hrun as <-; simpl; eauto.
  - destruct (step env cfg st) eqn:Hs.
    + injection Hrun as <-. exact HP.
    + eapply IH; [|exact Hrun]. eauto.
    + injection Hrun as <-. simpl. eauto.
Qed.


(** The count of fetches never passes the cap. *)
Lemma fetched_bounded fuel st o :
  (fetched st <= Z.max 0 (max_pages cfg))%Z ->
  loop fuel env cfg st = Some o ->
  (fetched (final o) <= Z.max 0 (max_pages cfg))%Z.
Proof.
  intros H0 Hrun.
  apply (loop_invariant (fun s => (fetched s <= Z.max 0 (max_pages cfg))%Z))
    with (fuel := fuel) (st := st); [| |exact H0|exact Hrun].
  - intros s s' Hs Hstep. apply step_continue in Hstep as (? & ? & _ & Hlt & [(Hf & _)|Hf]); lia.
  - intros s s' Hs Hstep. apply step_raise in Hstep as (Hlt & [Hf|Hf]); lia.
Qed.

(** [fetched] counts the fetches issued, whatever came of them. *)
Lemma fetched_counts_requests fuel st o :
  fetched st = Z.of_nat (length (requests st)) ->
  loop fuel env cfg st = Some o ->
  fetched (final o) = Z.of_nat (length (requests (final o))).
Proof.
  intros H0 Hrun.
  apply (loop_invariant (fun s => fetched s = Z.of_nat (length (requests s))))
    with (fuel := fuel) (st := st); [| |exact H0|exact Hrun].
  - intros s s' Hs Hstep. step_paths Hstep; simpl in *; lia.
  - intros s s' Hs Hstep. step_paths Hstep; simpl in *; lia.
Qed.

End Loop.
End LoopFacts.

(* ===================================================================== *)
(** ** The page cap *)
(* ===================================================================== *)

Module CapFacts.
Import Str Url Crawl Props LoopFacts.



Lemma start_fresh env cfg seeds d st :
  start env cfg seeds d = Some st ->
  fetched st = 0%Z /\ saved st = 0%Z /\ requests st = [] /\ disk st = d /\
  last st = ∅ /\ robots st = RobotsCache_init /\ clock st = clock0 env.
Proof.
  unfold start. intros H.
  destruct (seeds_n _ _ seeds) as [sn|]; simpl in H; [|discriminate].
  destruct (if use_sitemaps cfg then _discover_from_sitemaps env sn else Some [])
    as [disc|]; simpl in H; [|discriminate].
  destruct (keep_allowed _ _ disc) as [kept|]; simpl in H; [|discriminate].
  destruct (enqueue_all sn (enqueue_all kept ([], ∅))) as [q0 seen0].
  injection H as <-. simpl. repeat split; reflexivity.
Qed.




End CapFacts.

(* ===================================================================== *)
(** ** The rate limiter *)
(* ===================================================================== *)

Module RateFacts.
Import Str Url Crawl Props LoopFacts.





Section Limiter.
Variables (env : Env) (cfg : CrawlConfig).

Local Abbreviation gap := (min_interval (rate_limit_per_domain cfg)).




End Limiter.





End RateFacts.

(* ===================================================================== *)
(** ** The robots cache *)
(* ===================================================================== *)

Module RobotsFacts.
Import Str Url Crawl Props LoopFacts.

Lemma allowed_spec env rc url b rc' :
  allowed env rc url = Some (b, rc') ->
  exists p lines,
    urlparse url = Some p /\
    cache rc' !! netloc p = Some lines /\
    b = robots_can_fetch env lines USER_AGENT url /\
    (forall h l, cache rc !! h = Some l -> cache rc' !! h = Some l) /\
    (forall h l, cache rc' !! h = Some l -> cache rc !! h = Some l \/
                                           (h = netloc p /\ served env h l)).
Proof.
  unfold allowed. intros H.
  destruct (urlparse url) as [p|]; simpl in H; [|discriminate].
  exists p. destruct (cache rc !! netloc p) as [lines|] eqn:Hc.
  - injection H as <- <-. exists lines. repeat split; auto.
  - destruct (robots_get env _) as [[status lines]|] eqn:Hget.
    + destruct (status >=? 400)%Z eqn:Hs; injection H as <- <-; simpl.
      * exists []. rewrite lookup_insert_eq. repeat split; auto.
        -- intros h l Hl. rewrite lookup_insert_ne; [exact Hl | congruence].
        -- intros h l. rewrite lookup_insert. case_decide as Hd.
           ++ intros [= <-]. right. split; [congruence | left; reflexivity].
           ++ auto.
      * exists lines. rewrite lookup_insert_eq. repeat split; auto.
        -- intros h l Hl. rewrite lookup_insert_ne; [exact Hl | congruence].
        -- intros h l. rewrite lookup_insert. case_decide as Hd.
           ++ intros [= <-]. right. split; [congruence|]. right.
              exists (scheme p), status. subst h. split; [exact Hget|].
              rewrite Z.geb_leb in Hs. apply Z.leb_gt in Hs. lia.
           ++ auto.
    + injection H as <- <-; simpl. exists []. rewrite lookup_insert_eq. repeat split; auto.
      * intros h l Hl. rewrite lookup_insert_ne; [exact Hl | congruence].
      * intros h l. rewrite lookup_insert. case_decide as Hd.
        -- intros [= <-]. right. split; [congruence | left; reflexivity].
        -- auto.
Qed.


(** A netloc with cached rules is answered from the cache. *)
Lemma allowed_cached env rc url p lines :
  urlparse url = Some p ->
  cache rc !! netloc p = Some lines ->
  allowed env rc url = Some (robots_can_fetch env lines USER_AGENT url, rc).
Proof. intros Hp Hc. unfold allowed. rewrite Hp. simpl. rewrite Hc. reflexivity. Qed.

Section Obeying.
Variables (env : Env) (cfg : CrawlConfig).
Hypothesis obeying : obey_robots_txt cfg = true.




End Obeying.
End RobotsFacts.

(* ===================================================================== *)
(** ** Seeds, the frontier and the seen set *)
(* ===================================================================== *)

Module FrontierFacts.
Import Str Url Crawl Props LoopFacts.

(** [_norm_url(s, "")] is [None] for every [s]: an empty [href] is
    rejected before anything is joined. *)
Lemma norm_url_empty_href base : _norm_url base EmptyString = None.
Proof. reflexivity. Qed.

Lemma domain_allowed_empty allow sub : _domain_allowed EmptyString allow sub = Some false.
Proof. reflexivity. Qed.

(** A seed the domain policy accepts is kept as it was given. *)
Lemma seeds_n_keeps allow sub seeds sn s :
  seeds_n allow sub seeds = Some sn ->
  In s seeds ->
  _domain_allowed s allow sub = Some true ->
  In s sn.
Proof.
  revert sn. induction seeds as [|s0 rest IH]; intros sn Hsn Hin Hok; [destruct Hin|].
  simpl in Hsn.
  destruct (if truthy s0 then _domain_allowed s0 allow sub else Some false)
    as [ok|] eqn:Hd; simpl in Hsn; [|discriminate].
  destruct (seeds_n allow sub rest) as [tl|] eqn:Htl; simpl in Hsn; [|discriminate].
  injection Hsn as <-.
  destruct Hin as [->|Hin].
  - destruct s as [|c r].
    + rewrite domain_allowed_empty in Hok. discriminate.
    + simpl in Hd. rewrite Hok in Hd. injection Hd as <-. left. reflexivity.
  - specialize (IH tl eq_refl Hin Hok). destruct ok; [right|]; exact IH.
Qed.

(** The seeds loop only filters: what it keeps are seeds, unchanged. *)
Lemma seeds_n_subset allow sub seeds sn s :
  seeds_n allow sub seeds = Some sn -> In s sn -> In s seeds.
Proof.
  revert sn. induction seeds as [|s0 rest IH]; intros sn Hsn Hin; simpl in Hsn.
  - injection Hsn as <-. destruct Hin.
  - destruct (if truthy s0 then _domain_allowed s0 allow sub else Some false)
      as [ok|]; simpl in Hsn; [|discriminate].
    destruct (seeds_n allow sub rest) as [tl|]; simpl in Hsn; [|discriminate].
    injection Hsn as <-. destruct ok; [destruct Hin as [<-|Hin]|].
    + left. reflexivity.
    + right. eapply IH; eauto.
    + right. eapply IH; eauto.
Qed.

Lemma enqueue_all_spec us q0 (seen0 : gset string) :
  exists seen1, enqueue_all us (q0, seen0) = (q0 ++ us, seen1).
Proof.
  revert q0 seen0. induction us as [|u rest IH]; intros q0 seen0; simpl.
  - exists seen0. by rewrite app_nil_r.
  - destruct (IH (q0 ++ [u]) ({[u]} ∪ seen0)) as [seen1 H].
    exists seen1. unfold enqueue_all in *. simpl. rewrite H.
    by rewrite <- app_assoc.
Qed.

(** The queue the loop starts with: the sitemap URLs kept by the domain
    policy, then the seeds kept by it. *)
Lemma start_queue env cfg seeds d st :
  start env cfg seeds d = Some st ->
  exists sn kept,
    seeds_n (allow_domains cfg) (include_subdomains cfg) seeds = Some sn /\
    q st = kept ++ sn.
Proof.
  unfold start. intros H.
  destruct (seeds_n _ _ seeds) as [sn|]; simpl in H; [|discriminate].
  destruct (if use_sitemaps cfg then _discover_from_sitemaps env sn else Some [])
    as [disc|]; simpl in H; [|discriminate].
  destruct (keep_allowed _ _ disc) as [kept|]; simpl in H; [|discriminate].
  destruct (enqueue_all_spec kept [] ∅) as [seen1 H1]. rewrite H1 in H.
  destruct (enqueue_all_spec sn ([] ++ kept) seen1) as [seen2 H2]. rewrite H2 in H.
  injection H as <-. simpl. eauto.
Qed.

(** The links of a page are enqueued only when new: nothing seen before is
    added, and nothing is added twice. *)
Lemma enqueue_links_fresh allow sub links q0 (seen0 : gset string) q1 seen1 :
  enqueue_links allow sub links (q0, seen0) = (q1, seen1) ->
  exists new,
    q1 = q0 ++ new /\ NoDup new /\
    (forall u, In u new -> u ∉ seen0) /\
    (forall u, u ∈ seen1 <-> u ∈ seen0 \/ In u new).
Proof.
  revert q0 seen0. induction links as [|nurl rest IH]; intros q0 seen0 H;
    cbn [enqueue_links] in H.
  - injection H as <- <-. exists []. rewrite app_nil_r.
    repeat split; [constructor | intros ? [] | tauto | intros [?|[]]; assumption].
  - destruct (decide (nurl ∈ seen0)) as [Hin|Hnin]; [eapply IH; exact H|].
    destruct (_domain_allowed nurl allow sub) as [[|]|].
    + unfold _should_enqueue in H. rewrite orb_true_r in H. cbn [negb] in H.
      apply IH in H as (new & -> & Hnd & Hfresh & Hseen).
      exists (nurl :: new). rewrite <- app_assoc. split; [reflexivity|]. split; [|split].
      * constructor; [|exact Hnd]. intros Hin. apply list_elem_of_In, Hfresh in Hin.
        apply Hin, elem_of_union_l, elem_of_singleton_2. reflexivity.
      * intros u [<-|Hu]; [exact Hnin|]. apply Hfresh in Hu.
        intros Hs. apply Hu, elem_of_union_r, Hs.
      * intros u. rewrite Hseen, elem_of_union, elem_of_singleton. simpl.
        split; [intros [[->|?]|?] | intros [?|[<-|?]]]; auto.
    + eapply IH; exact H.
    + injection H as <- <-. exists []. rewrite app_nil_r.
      repeat split; [constructor | intros ? [] | tauto | intros [?|[]]; assumption].
Qed.

Lemma domain_allowed_parses u allow sub b :
  _domain_allowed u allow sub = Some b -> is_Some (netloc_of u).
Proof.
  unfold _domain_allowed, netloc_of. destruct (urlparse u); simpl; [eauto | discriminate].
Qed.

Lemma seeds_n_allowed allow sub seeds sn u :
  seeds_n allow sub seeds = Some sn -> In u sn -> _domain_allowed u allow sub = Some true.
Proof.
  revert sn. induction seeds as [|s0 rest IH]; intros sn Hsn Hin; simpl in Hsn.
  - injection Hsn as <-. destruct Hin.
  - destruct (if truthy s0 then _domain_allowed s0 allow sub else Some false)
      as [ok|] eqn:Hd; simpl in Hsn; [|discriminate].
    destruct (seeds_n allow sub rest) as [tl|]; simpl in Hsn; [|discriminate].
    injection Hsn as <-. destruct ok; [destruct Hin as [<-|Hin]|]; eauto.
    destruct (truthy s0); [exact Hd | discriminate].
Qed.

Lemma keep_allowed_allowed allow sub us kept u :
  keep_allowed allow sub us = Some kept -> In u kept -> _domain_allowed u allow sub = Some true.
Proof.
  revert kept. induction us as [|u0 rest IH]; intros kept Hk Hin; simpl in Hk.
  - injection Hk as <-. destruct Hin.
  - destruct (_domain_allowed u0 allow sub) as [ok|] eqn:Hd; simpl in Hk; [|discriminate].
    destruct (keep_allowed allow sub rest) as [tl|]; simpl in Hk; [|discriminate].
    injection Hk as <-. destruct ok; [destruct Hin as [<-|Hin]|]; eauto.
Qed.

Lemma enqueue_links_allowed allow sub links q0 (seen0 : gset string) q1 seen1 :
  enqueue_links allow sub links (q0, seen0) = (q1, seen1) ->
  exists new, q1 = q0 ++ new /\
              forall u, In u new -> _domain_allowed u allow sub = Some true.
Proof.
  revert q0 seen0. induction links as [|nurl rest IH]; intros q0 seen0 H;
    cbn [enqueue_links] in H.
  - injection H as <- <-. exists []. rewrite app_nil_r. split; [reflexivity | intros ? []].
  - destruct (decide (nurl ∈ seen0)) as [Hin|Hnin]; [eapply IH; exact H|].
    destruct (_domain_allowed nurl allow sub) as [[|]|] eqn:Hd.
    + unfold _should_enqueue in H. rewrite orb_true_r in H. cbn [negb] in H.
      apply IH in H as (new & -> & Hall).
      exists (nurl :: new). rewrite <- app_assoc. split; [reflexivity|].
      intros u [<-|Hu]; auto.
    + eapply IH; exact H.
    + injection H as <- <-. exists []. rewrite app_nil_r. split; [reflexivity | intros ? []].
Qed.

Lemma start_queue_allowed env cfg seeds d st :
  start env cfg seeds d = Some st -> queue_allowed cfg st.
Proof.
  unfold start. intros H.
  destruct (seeds_n _ _ seeds) as [sn|] eqn:Hsn; simpl in H; [|discriminate].
  destruct (if use_sitemaps cfg then _discover_from_sitemaps env sn else Some [])
    as [disc|]; simpl in H; [|discriminate].
  destruct (keep_allowed _ _ disc) as [kept|] eqn:Hk; simpl in H; [|discriminate].
  destruct (enqueue_all_spec kept [] ∅) as [seen1 H1]. rewrite H1 in H.
  destruct (enqueue_all_spec sn ([] ++ kept) seen1) as [seen2 H2]. rewrite H2 in H.
  injection H as <-. intros u Hin. simpl in Hin. apply in_app_or in Hin as [Hin|Hin].
  - eapply keep_allowed_allowed; eauto.
  - eapply seeds_n_allowed; eauto.
Qed.

(** A pass takes the head of the queue and appends links the domain policy
    accepts. *)
Lemma step_queue env cfg st st' :
  step env cfg st = Continue st' ->
  exists url rest new,
    q st = url :: rest /\ q st' = rest ++ new /\
    forall u, In u new ->
      _domain_allowed u (allow_domains cfg) (include_subdomains cfg) = Some true.
Proof.
  intros H. unfold step in H.
  destruct (q st) as [|url rest] eqn:Hq; [discriminate|].
  exists url, rest.
  destruct (negb (fetched st <? max_pages cfg)%Z); [discriminate|].
  destruct (if obey_robots_txt cfg then allowed env (robots st) url
            else Some (true, robots st)) as [[[|] rc]|]; [| |discriminate].
  2: { injection H as <-. exists []. rewrite app_nil_r. simpl. repeat split. intros ? []. }
  destruct (wait _ (last st) (clock st) url) as [[last' woke]|]; [|discriminate].
  destruct (client_get env url) as [r|].
  2: { injection H as <-. exists []. rewrite app_nil_r. simpl. repeat split. intros ? []. }
  assert (Hlinks : exists new,
            (if is_html (media_type r) url
             then match hrefs r with
                  | Some anchors =>
                      enqueue_links (allow_domains cfg) (include_subdomains cfg)
                        (_parse_links url anchors) (rest, seen st)
                  | None => (rest, seen st)
                  end
             else (rest, seen st)) = (rest ++ new.1, new.2) /\
            forall u, In u new.1 ->
              _domain_allowed u (allow_domains cfg) (include_subdomains cfg) = Some true).
  { destruct (is_html (media_type r) url);
      [destruct (hrefs r) as [anchors|]|].
    - destruct (enqueue_links _ _ _ (rest, seen st)) as [q1 s1] eqn:He.
      apply enqueue_links_allowed in He as (new & -> & Hall).
      exists (new, s1). split; [reflexivity | exact Hall].
    - exists ([], seen st). simpl. rewrite app_nil_r. split; [reflexivity | intros ? []].
    - exists ([], seen st). simpl. rewrite app_nil_r. split; [reflexivity | intros ? []]. }
  destruct Hlinks as ([new sn] & Heq & Hall). simpl in Heq, Hall. rewrite Heq in H.
  exists new.
  destruct (is_pdf (media_type r) url || is_html (media_type r) url).
  - destruct (_save_blob _ _ _ _ _ _ _) as [fs [path|]]; [|discriminate].
    injection H as <-. simpl. repeat split. exact Hall.
  - injection H as <-. simpl. repeat split. exact Hall.
Qed.

(** In every state the loop goes through, the queued URLs were accepted by
    the domain policy; in particular they parse. *)
Lemma reachable_queue_allowed env cfg seeds d st :
  reachable env cfg seeds d st -> queue_allowed cfg st.
Proof.
  induction 1 as [st Hstart|st st' Hreach IH Hstep].
  - eapply start_queue_allowed. exact Hstart.
  - apply step_queue in Hstep as (url & rest & new & Hq & Hq' & Hall).
    intros u Hin. rewrite Hq' in Hin. apply in_app_or in Hin as [Hin|Hin].
    + apply IH. rewrite Hq. right. exact Hin.
    + apply Hall. exact Hin.
Qed.

End FrontierFacts.

(* ===================================================================== *)
(** ** What counts as a fetch *)
(* ===================================================================== *)

Module AttemptFacts.
Import Str Url Crawl Props LoopFacts.

Lemma allowed_parses env rc url b rc' :
  allowed env rc url = Some (b, rc') -> is_Some (netloc_of url).
Proof.
  unfold allowed, netloc_of. destruct (urlparse url); simpl; [eauto | discriminate].
Qed.

(** A dequeued URL that passes the robots check is fetched and counted,
    whatever the fetch returns. *)
Lemma step_counts env cfg st url rest :
  q st = url :: rest ->
  (fetched st < max_pages cfg)%Z ->
  is_Some (netloc_of url) ->
  passes_robots env cfg st url ->
  exists st' woke,
    (step env cfg st = Continue st' \/ step env cfg st = Raise st') /\
    fetched st' = (fetched st + 1)%Z /\
    requests st' = (url, woke) :: requests st /\
    (nothing_to_save env url ->
       step env cfg st = Continue st' /\ saved st' = saved st /\ disk st' = disk st).
Proof.
  intros Hq Hlt [h Hh] Hpass. unfold step. rewrite Hq.
  apply Z.ltb_lt in Hlt. rewrite Hlt. simpl.
  assert (Hrob : exists rc, (if obey_robots_txt cfg then allowed env (robots st) url
                             else Some (true, robots st)) = Some (true, rc)).
  { destruct Hpass as [->|[rc Hrc]]; [eauto|]. destruct (obey_robots_txt cfg); eauto. }
  destruct Hrob as [rc ->].
  unfold wait. rewrite Hh. simpl.
  destruct (client_get env url) as [r|] eqn:Hget.
  - destruct (is_html (media_type r) url) eqn:Hhtml;
      destruct (is_pdf (media_type r) url) eqn:Hpdf; simpl.
    all: repeat match goal with
                | |- context [match ?x with _ => _ end] => destruct x eqn:?
                end.
    all: eexists _, _; (split; [first [left; reflexivity | right; reflexivity]|]);
      simpl; (split; [reflexivity|]); (split; [reflexivity|]).
    all: intros [Hnone|(r' & Hr' & Hp' & Hh')]; [congruence|].
    all: assert (r' = r) as -> by congruence.
    all: first [congruence | repeat split; reflexivity].
  - eexists _, _. split; [left; reflexivity|]. simpl. auto.
Qed.

Lemma saved_le_fetched env cfg fuel st o :
  (saved st <= fetched st)%Z ->
  loop fuel env cfg st = Some o ->
  (saved (final o) <= fetched (final o))%Z.
Proof.
  intros H0 Hrun.
  apply (loop_invariant env cfg (fun s => (saved s <= fetched s)%Z))
    with (fuel := fuel) (st := st); [| |exact H0|exact Hrun];
    intros s s' Hs Hstep; step_paths Hstep; simpl in *; lia.
Qed.

End AttemptFacts.

(* ===================================================================== *)
(** ** Running the crawl again *)
(* ===================================================================== *)

Module RepeatFacts.
Import Str Url Crawl Props LoopFacts.





End RepeatFacts.

(* ===================================================================== *)
(** ** The sibling scripts *)
(* ===================================================================== *)

Module SiblingFacts.
Import Str Url Crawl PdfScripts.


(** A write error in the worker of [crawl_pdfs.py] is swallowed: the
    counter stays and the worker goes on. *)
Lemma worker_save_failure (env : Env) out now fs n u body :
  write_ok env (out +:+ "/" +:+ sha16 env u +:+ ".pdf") = false ->
  worker_save env out now fs n u body = (fs, n).
Proof. intros H. unfold worker_save. rewrite H. reflexivity. Qed.

End SiblingFacts.

(* ===================================================================== *)
(** ** The claims of the specification *)
(* ===================================================================== *)

Import Str Url Crawl.

(** C3, first half refuted on [crawl.py], second half holding.  A response
    labelled [application/octet-stream] for [/report.pdf?v=2] is neither PDF
    nor HTML for the loop of [crawl]: [endswith(".pdf")] looks at the end of
    the whole URL, query included, so the page is fetched and not saved,
    while [looks_pdf] of the sibling scripts accepts the same URL.  A
    response labelled [text/html; charset=utf-8] is HTML. *)
Theorem pdf_before_query_not_recognised :
  let url := "http://example.org/report.pdf?v=2" in
  let ct := media_type (Site.pdf "application/octet-stream") in
  ct = "application/octet-stream" /\
  is_pdf ct url = false /\ is_html ct url = false /\
  _guess_kind url ct = "html" /\
  PdfScripts.looks_pdf url = true /\
  PdfScripts.worker_is_pdf ct url = true /\
  option_map report
    (crawl 20 Site.env (Site.config 1000) [Site.home] Site.empty_disk)
    = Some Site.full_report /\
  In url (map fst (fetches Site.full_report)) /\
  ~ In url (manifest_urls Site.full_report) /\
  (let html_ct := media_type (Site.page "text/html; charset=utf-8" []) in
   html_ct = "text/html" /\ is_html html_ct "http://example.org/x" = true).
Proof.
  cbv zeta. repeat split; try (vm_compute; reflexivity).
  - vm_compute. tauto.
  - vm_compute. intros H. repeat (destruct H as [H|H]; [discriminate H|]). exact H.
Qed.

(** C8, refuted on the code.  [_norm_url] rebuilds the netloc from
    [parsed.hostname], which has lost the brackets of an IPv6 literal: the
    result no longer parses, so normalising it again gives [None]. *)
Theorem norm_url_not_idempotent_on_ipv6_literal :
  _norm_url "" "http://[::1]/a" = Some "http://::1/a" /\
  _norm_url "" "http://::1/a" = None /\
  _norm_url "http://example.org/" "http://[::1]:8080/a" = Some "http://::1:8080/a" /\
  _norm_url "http://example.org/" "http://::1:8080/a" = None.
Proof. repeat split; vm_compute; reflexivity. Qed.

(** C6, refuted on [crawl.py].  [_save_blob] is called outside any [try]:
    on a disk that refuses the write, the first page that should be saved
    raises out of [crawl]; it has no manifest entry, and the second seed is
    left in the queue, never fetched. *)
Theorem write_error_aborts_the_crawl :
  option_map report
    (crawl 20 Site.env_disk_full (Site.config 1000) [Site.home; Site.page_a]
       Site.empty_disk)
    = Some Site.disk_full_report /\
  ended_normally Site.disk_full_report = false /\
  queue_left Site.disk_full_report = [Site.page_a] /\
  manifest_urls Site.disk_full_report = [].
Proof. repeat split; vm_compute; reflexivity. Qed.

(** C7, general part refuted on the code, fragment part holding.  The
    seeds are appended to the queue without a look at [seen]: a seed given
    twice is enqueued twice, fetched twice and saved twice.  The links of a
    page are checked against [seen]: [/a#x] and [/a#y] normalise to one URL,
    which enters the queue once. *)
Theorem repeated_seed_enqueued_twice :
  option_map q (start Site.env (Site.config 1000) [Site.home; Site.home] Site.empty_disk)
    = Some [Site.home; Site.home] /\
  option_map report
    (crawl 20 Site.env (Site.config 1000) [Site.home; Site.home] Site.empty_disk)
    = Some Site.twice_report /\
  count_occ string_dec (map fst (fetches Site.twice_report)) Site.home = 2%nat /\
  count_occ string_dec (manifest_urls Site.twice_report) Site.home = 2%nat /\
  _norm_url Site.home "/a#x" = Some Site.page_a /\
  _norm_url Site.home "/a#y" = Some Site.page_a /\
  option_map report
    (crawl 20 Site.env (Site.config 1) [Site.home] Site.empty_disk)
    = Some Site.first_page_report /\
  count_occ string_dec (queue_left Site.first_page_report) Site.page_a = 1%nat.
Proof. repeat split; vm_compute; reflexivity. Qed.

(** C10.  [_norm_url(s, "")] is [None] for every seed [s], so [n] is the
    raw seed: a seed the domain policy accepts is in the queue the loop
    starts with, exactly as it was given.  The seed
    [http://example.org:80/a#frag] is one: it is enqueued with its default
    port and its fragment, where [_norm_url] gives [http://example.org/a]
    for the same text as a link. *)
Theorem raw_seed_enqueued_unchanged :
  (forall env cfg seeds d st s,
     start env cfg seeds d = Some st ->
     In s seeds ->
     _domain_allowed s (allow_domains cfg) (include_subdomains cfg) = Some true ->
     _norm_url s "" = None /\ In s (q st)) /\
  option_map q
    (start Site.env (Site.config 1000) ["http://example.org:80/a#frag"] Site.empty_disk)
    = Some ["http://example.org:80/a#frag"] /\
  _norm_url Site.home "http://example.org:80/a#frag" = Some "http://example.org/a".
Proof.
  split; [|split; vm_compute; reflexivity].
  intros env cfg seeds d st s Hstart Hin Hok.
  split; [apply FrontierFacts.norm_url_empty_href|].
  apply FrontierFacts.start_queue in Hstart as (sn & kept & Hsn & ->).
  apply in_or_app. right. eapply FrontierFacts.seeds_n_keeps; eauto.
Qed.

Lemma raw_seed_enqueued_unchanged_witness :
  exists st,
    start Site.env (Site.config 5) ["http://example.org:80/a#frag"; "http://other.org/"]
      Site.empty_disk = Some st /\
    In "http://example.org:80/a#frag" (q st).
Proof.
  assert (Hq : option_map q
                 (start Site.env (Site.config 5)
                    ["http://example.org:80/a#frag"; "http://other.org/"] Site.empty_disk)
               = Some ["http://example.org:80/a#frag"]) by (vm_compute; reflexivity).
  destruct (start Site.env (Site.config 5)
              ["http://example.org:80/a#frag"; "http://other.org/"] Site.empty_disk)
    as [st|] eqn:Hstart; [|discriminate Hq].
  exists st. split; [reflexivity|].
  refine (proj2 (proj1 raw_seed_enqueued_unchanged Site.env (Site.config 5)
                   ["http://example.org:80/a#frag"; "http://other.org/"]
                   Site.empty_disk st "http://example.org:80/a#frag" Hstart _ _)).
  - left. reflexivity.
  - vm_compute. reflexivity.
Defined.

(** C9.  In every state the loop of a crawl goes through, the URL taken
    from the queue, when it passes the robots check, is fetched, and
    [fetched] grows by one before the answer is looked at: also when the
    request fails, and when the answer is neither HTML nor a PDF, in which
    cases nothing is saved and the loop goes on.  Over a whole crawl
    [fetched] is the number of fetches issued, [saved] is at most that, and
    the cap bounds [fetched]. *)
Theorem fetch_attempts_count_toward_cap :
  (forall env cfg seeds d st url rest,
     Props.reachable env cfg seeds d st ->
     q st = url :: rest ->
     (fetched st < max_pages cfg)%Z ->
     Props.passes_robots env cfg st url ->
     exists st' woke,
       (step env cfg st = Continue st' \/ step env cfg st = Raise st') /\
       fetched st' = (fetched st + 1)%Z /\
       requests st' = (url, woke) :: requests st /\
       (Props.nothing_to_save env url ->
          step env cfg st = Continue st' /\ saved st' = saved st /\ disk st' = disk st)) /\
  (forall env cfg seeds d fuel o,
     crawl fuel env cfg seeds d = Some o ->
     fetched (final o) = Z.of_nat (length (requests (final o))) /\
     (saved (final o) <= fetched (final o))%Z /\
     (fetched (final o) <= Z.max 0 (max_pages cfg))%Z).
Proof.
  split.
  - intros env cfg seeds d st url rest Hreach Hq Hlt Hr.
    eapply AttemptFacts.step_counts; try eassumption.
    apply FrontierFacts.reachable_queue_allowed in Hreach.
    eapply FrontierFacts.domain_allowed_parses, Hreach. rewrite Hq. left. reflexivity.
  - intros env cfg seeds d fuel o Hrun. unfold crawl in Hrun.
    destruct (start env cfg seeds d) as [st0|] eqn:Hstart.
    + apply CapFacts.start_fresh in Hstart as (Hf & Hs & Hr & _).
      split; [|split].
      * eapply LoopFacts.fetched_counts_requests; [|exact Hrun]. rewrite Hf, Hr. reflexivity.
      * eapply AttemptFacts.saved_le_fetched; [|exact Hrun]. lia.
      * eapply LoopFacts.fetched_bounded; [|exact Hrun]. lia.
    + injection Hrun as <-. simpl. lia.
Qed.

Lemma fetch_attempts_count_toward_cap_witness :
  client_get Site.env Site.page_e = None /\
  (exists st0 st',
     start Site.env (Site.config 1000) [Site.page_e] Site.empty_disk = Some st0 /\
     step Site.env (Site.config 1000) st0 = Continue st' /\
     fetched st' = 1%Z /\ saved st' = 0%Z) /\
  (exists o,
     crawl 20 Site.env (Site.config 1000) [Site.home] Site.empty_disk = Some o /\
     fetched (final o) = Z.of_nat (length (requests (final o)))).
Proof.
  split; [vm_compute; reflexivity|]. split.
  - assert (Hq : option_map q (start Site.env (Site.config 1000) [Site.page_e] Site.empty_disk)
                 = Some [Site.page_e]) by (vm_compute; reflexivity).
    destruct (start Site.env (Site.config 1000) [Site.page_e] Site.empty_disk)
      as [st0|] eqn:Hstart; [|discriminate Hq].
    injection Hq as Hq.
    pose proof (CapFacts.start_fresh _ _ _ _ _ Hstart) as (Hf & Hs & _ & _ & _ & Hrob & _).
    destruct (proj1 fetch_attempts_count_toward_cap Site.env (Site.config 1000)
                [Site.page_e] Site.empty_disk st0 Site.page_e []
                (Props.reach_start _ _ _ _ _ Hstart) Hq)
      as (st' & woke & _ & Hf' & _ & Hnone).
    + rewrite Hf. reflexivity.
    + right. rewrite Hrob. eexists. vm_compute. reflexivity.
    + destruct (Hnone ltac:(left; vm_compute; reflexivity)) as (Hstep & Hsaved & _).
      exists st0, st'. split; [reflexivity|]. split; [exact Hstep|].
      rewrite Hf', Hf, Hsaved, Hs. split; reflexivity.
  - assert (Hrep : option_map report
                     (crawl 20 Site.env (Site.config 1000) [Site.home] Site.empty_disk)
                   = Some Site.full_report) by (vm_compute; reflexivity).
    destruct (crawl 20 Site.env (Site.config 1000) [Site.home] Site.empty_disk)
      as [o|] eqn:Hrun; [|discriminate Hrep].
    exists o. split; [reflexivity|].
    exact (proj1 (proj2 fetch_attempts_count_toward_cap Site.env (Site.config 1000)
                    [Site.home] Site.empty_disk 20%nat o Hrun)).
Defined.












(* ===================================================================== *)
(** ** Properties of the string operations *)
(* ===================================================================== *)

Module StrFacts.
Import Str.

Lemma app_cons c s t : String c s +:+ t = String c (s +:+ t).
Proof. reflexivity. Qed.

Lemma app_nil_l t : "" +:+ t = t.
Proof. reflexivity. Qed.

Ltac norm_app := rewrite ?app_cons, ?app_nil_l in *.

Lemma app_empty_r s : s +:+ "" = s.
Proof. induction s as [|c s IH]; norm_app; [reflexivity | by rewrite IH]. Qed.

Lemma app_assoc_str a b c : (a +:+ b) +:+ c = a +:+ (b +:+ c).
Proof. induction a as [|x a IH]; norm_app; [reflexivity | by rewrite IH]. Qed.

Lemma app_inj_l p a b : p +:+ a = p +:+ b -> a = b.
Proof. induction p as [|c p IH]; norm_app; [auto | intros [= H]; auto]. Qed.

Lemma has_char_app c a b : has_char c (a +:+ b) = has_char c a || has_char c b.
Proof.
  induction a as [|x a IH]; norm_app; simpl; [reflexivity|]. rewrite IH. by rewrite orb_assoc.
Qed.

Lemma lower_app a b : lower (a +:+ b) = lower a +:+ lower b.
Proof. induction a as [|x a IH]; norm_app; simpl; norm_app; [reflexivity | by rewrite IH]. Qed.

Lemma length_lower s : String.length (lower s) = String.length s.
Proof. induction s as [|c s IH]; simpl; [reflexivity | by rewrite IH]. Qed.

Lemma length_app a b : String.length (a +:+ b) = (String.length a + String.length b)%nat.
Proof. induction a as [|x a IH]; norm_app; simpl; [reflexivity | by rewrite IH]. Qed.

Lemma take_drop n s : take n s +:+ drop n s = s.
Proof.
  revert s. induction n as [|n IH]; intros [|c s]; simpl; norm_app; try reflexivity.
  by rewrite IH.
Qed.

Lemma take_app a b : take (String.length a) (a +:+ b) = a.
Proof. induction a as [|x a IH]; norm_app; simpl; [by destruct b | by rewrite IH]. Qed.

Lemma drop_app a b : drop (String.length a) (a +:+ b) = b.
Proof. induction a as [|x a IH]; norm_app; simpl; [by destruct b | exact IH]. Qed.

(** [startswith] is being a prefix. *)
Lemma startswith_iff p s : startswith p s = true <-> exists t, s = p +:+ t.
Proof.
  unfold startswith. revert s. induction p as [|c p IH]; intros s; simpl.
  - split; [intros _; eexists; reflexivity | by destruct s].
  - destruct s as [|d s]; simpl; [split; [discriminate | intros [t [=]]]|].
    destruct (ascii_dec c d) as [->|Hne].
    + rewrite IH. split; intros [t Ht]; exists t; norm_app; congruence.
    + split; [discriminate | intros [t Ht]; norm_app; injection Ht as Hd _; congruence].
Qed.

Lemma startswith_app p s t : startswith p s = true -> startswith p (s +:+ t) = true.
Proof.
  rewrite !startswith_iff. intros [u ->]. exists (u +:+ t). apply app_assoc_str.
Qed.

Lemma rev_onto_spec s acc : rev_onto s acc = rev s +:+ acc.
Proof.
  unfold rev. revert acc. induction s as [|c s IH]; intros acc; simpl; [reflexivity|].
  rewrite (IH (String c acc)), (IH (String c "")), app_assoc_str. reflexivity.
Qed.

Lemma rev_cons c s : rev (String c s) = rev s +:+ String c "".
Proof. unfold rev at 1. simpl. apply rev_onto_spec. Qed.

Lemma rev_app a b : rev (a +:+ b) = rev b +:+ rev a.
Proof.
  induction a as [|x a IH]; norm_app.
  - change (rev "") with "". by rewrite app_empty_r.
  - by rewrite !rev_cons, IH, app_assoc_str.
Qed.

Lemma rev_involutive s : rev (rev s) = s.
Proof.
  induction s as [|c s IH]; [reflexivity|].
  rewrite rev_cons, rev_app, IH. reflexivity.
Qed.

(** [endswith] is being a suffix. *)
Lemma endswith_iff suf s : endswith suf s = true <-> exists pre, s = pre +:+ suf.
Proof.
  unfold endswith. rewrite startswith_iff. split.
  - intros [t Ht]. exists (rev t).
    rewrite <- (rev_involutive s), Ht, rev_app, rev_involutive. reflexivity.
  - intros [pre ->]. exists (rev pre). apply rev_app.
Qed.

(** What [partition] returns: the text without the first separator. *)
Lemma partition_spec sep s a f b :
  partition sep s = (a, f, b) ->
  has_char sep a = false /\
  (if f then s = a +:+ String sep b else s = a /\ b = "").
Proof.
  revert a f b. induction s as [|c s IH]; intros a f b H; simpl in H.
  - injection H as <- <- <-. auto.
  - destruct (Ascii.eqb c sep) eqn:Hc.
    + injection H as <- <- <-. apply Ascii.eqb_eq in Hc as ->. auto.
    + destruct (partition sep s) as [[a' f'] b'] eqn:Hp. injection H as <- <- <-.
      destruct (IH a' f' b' eq_refl) as [Ha Hs]. simpl. rewrite Hc, Ha. split; [reflexivity|].
      destruct f'; [by rewrite Hs, app_cons | destruct Hs as [-> ->]; auto].
Qed.

(** The parts [partition] returns hold no character the text does not. *)
Lemma partition_clean c sep s a f b :
  partition sep s = (a, f, b) -> has_char c s = false ->
  has_char c a = false /\ has_char c b = false.
Proof.
  intros H Hs. apply partition_spec in H as [_ H]. destruct f.
  - rewrite H, has_char_app in Hs. simpl in Hs.
    apply orb_false_iff in Hs as [Ha Hb]. apply orb_false_iff in Hb as [_ Hb]. auto.
  - destruct H as [<- ->]. auto.
Qed.

Lemma rpartition_spec sep s a b :
  rpartition sep s = Some (a, b) -> s = a +:+ String sep b /\ has_char sep b = false.
Proof.
  revert a b. induction s as [|c s IH]; intros a b H; simpl in H; [discriminate|].
  destruct (rpartition sep s) as [[a' b']|] eqn:Hr.
  - injection H as <- <-. destruct (IH a' b' eq_refl) as [-> Hb]. rewrite app_cons. auto.
  - destruct (Ascii.eqb c sep) eqn:Hc; [|discriminate].
    injection H as <- <-. apply Ascii.eqb_eq in Hc as ->. split; [reflexivity|].
    clear IH. induction s as [|d s IHs]; [reflexivity|]. simpl in *.
    destruct (rpartition sep s) as [[? ?]|]; [discriminate|].
    destruct (Ascii.eqb d sep); [discriminate|]. simpl. auto.
Qed.

(** Lower-casing brings in no character that is not a capital letter's
    lower case. *)
Lemma has_char_lower c s :
  is_upper c = false -> is_lower c = false -> has_char c (lower s) = has_char c s.
Proof.
  intros Hu Hl. induction s as [|d s IH]; simpl; [reflexivity|]. rewrite IH. f_equal.
  unfold lower_char. destruct (is_upper d) eqn:Hd; [|reflexivity].
  transitivity false.
  - apply not_true_is_false. intros H. apply Ascii.eqb_eq in H. subst c.
    revert Hd Hl. destruct d as [[] [] [] [] [] [] [] []]; vm_compute; congruence.
  - symmetry. apply not_true_is_false. intros H. apply Ascii.eqb_eq in H. congruence.
Qed.

Lemma has_char_take c n s : has_char c s = false -> has_char c (take n s) = false.
Proof.
  intros H. rewrite <- (take_drop n s), has_char_app in H.
  by apply orb_false_iff in H as [H _].
Qed.

Lemma has_char_drop c n s : has_char c s = false -> has_char c (drop n s) = false.
Proof.
  intros H. rewrite <- (take_drop n s), has_char_app in H.
  by apply orb_false_iff in H as [_ H].
Qed.

Lemma has_char_lstrip c p s : has_char c s = false -> has_char c (lstrip_by p s) = false.
Proof.
  induction s as [|d s IH]; simpl; [auto|]. intros H.
  apply orb_false_iff in H as [Hd Hs]. destruct (p d); [auto|]. simpl. by rewrite Hd, Hs.
Qed.

Lemma has_char_remove c p s : has_char c s = false -> has_char c (remove_by p s) = false.
Proof.
  induction s as [|d s IH]; simpl; [auto|]. intros H.
  apply orb_false_iff in H as [Hd Hs]. destruct (p d); [auto|]. simpl. by rewrite Hd, IH.
Qed.

End StrFacts.

(* ===================================================================== *)
(** ** What [_norm_url] returns *)
(* ===================================================================== *)

Module NormFacts.
Import Str Url Crawl StrFacts.

(** [s] holds no [#]. *)
Local Abbreviation no_hash s := (has_char "#" s = false).

Lemma all_chars_excludes p c s : all_chars p s = true -> p c = false -> has_char c s = false.
Proof.
  intros Hall Hc. induction s as [|d s IH]; simpl in *; [reflexivity|].
  apply andb_true_iff in Hall as [Hd Hs]. rewrite (IH Hs), orb_false_r.
  apply not_true_is_false. intros H. apply Ascii.eqb_eq in H. congruence.
Qed.

Lemma splitnetloc_no_hash r n rest : _splitnetloc r = (n, rest) -> no_hash n.
Proof.
  revert n rest. induction r as [|c r IH]; intros n rest H; cbn [_splitnetloc] in H.
  - by injection H as <- <-.
  - destruct (has_char c "/?#") eqn:Hc; [by injection H as <- <-|].
    destruct (_splitnetloc r) as [d rest'] eqn:Hr. injection H as <- <-.
    simpl. rewrite (IH d rest' eq_refl), orb_false_r.
    simpl in Hc. rewrite !orb_false_r in Hc.
    apply orb_false_iff in Hc as [_ Hc]. apply orb_false_iff in Hc as [_ Hc].
    rewrite Ascii.eqb_sym. exact Hc.
Qed.

Lemma splitnetloc_rest_no_hash r n rest : _splitnetloc r = (n, rest) -> no_hash r -> no_hash rest.
Proof.
  revert n rest. induction r as [|c r IH]; intros n rest H Hr; cbn [_splitnetloc] in H.
  - by injection H as <- <-.
  - destruct (has_char c "/?#") eqn:Hc; [by injection H as <- <-|].
    destruct (_splitnetloc r) as [d rest'] eqn:Hs. injection H as <- <-.
    simpl in Hr. apply orb_false_iff in Hr as [_ Hr]. by apply (IH d).
Qed.

Lemma partition_absent c s : has_char c s = false -> partition c s = (s, false, "").
Proof.
  induction s as [|d s IH]; simpl; [done|]. intros H.
  apply orb_false_iff in H as [Hd Hs]. by rewrite Hd, (IH Hs).
Qed.

(** The scheme, netloc, path and query that [urlsplit] returns hold no [#]:
    only the fragment can, and it is empty when the URL holds no [#]. *)
Lemma urlsplit_no_hash x sch nl pth qry frag :
  urlsplit x "" = Some (sch, nl, pth, qry, frag) ->
  no_hash sch /\ no_hash nl /\ no_hash pth /\ no_hash qry /\ (no_hash x -> frag = "").
Proof.
  unfold urlsplit.
  set (url1 := remove_by is_unsafe (lstrip_by is_c0_or_space x)).
  assert (Hurl1 : no_hash x -> no_hash url1).
  { intros Hx. by apply has_char_remove, has_char_lstrip. }
  change (remove_by is_unsafe (strip_by is_c0_or_space "")) with "".
  destruct (partition ":" url1) as [[pre found] post] eqn:Hpre.
  set (pair := match pre with
               | String c0 _ =>
                   if found && is_alpha c0 && all_chars is_scheme_char pre
                   then (lower pre, post) else ("", url1)
               | EmptyString => ("", url1)
               end).
  assert (Hsch : no_hash pair.1 /\ (no_hash x -> no_hash pair.2)).
  { unfold pair. destruct pre as [|c0 pre']; [by split|].
    destruct (found && is_alpha c0 && all_chars is_scheme_char (String c0 pre')) eqn:Hok;
      [|by split].
    apply andb_true_iff in Hok as [_ Hall]. cbn [fst snd]. split.
    - rewrite has_char_lower by reflexivity.
      eapply all_chars_excludes; [exact Hall | reflexivity].
    - intros Hx. by destruct (partition_clean "#" ":" _ _ _ _ Hpre (Hurl1 Hx)). }
  destruct pair as [sch0 url2]. cbn [fst snd] in Hsch. destruct Hsch as [Hsch Hurl2].
  set (nlr := match url2 with
              | String "/" (String "/" r) =>
                  let '(netloc, rest) := _splitnetloc r in
                  let lb := has_char "[" netloc in
                  let rb := has_char "]" netloc in
                  if lb && negb rb || rb && negb lb then None
                  else if lb && rb && negb (_check_bracketed_netloc netloc) then None
                       else Some (netloc, rest)
              | _ => Some ("", url2)
              end).
  assert (Hnl : forall n r, nlr = Some (n, r) -> no_hash n /\ (no_hash url2 -> no_hash r)).
  { unfold nlr. intros n r.
    repeat match goal with
           | |- context [match ?s with EmptyString => _ | String _ _ => _ end] =>
               is_var s; destruct s
           | |- context [match ?a with Ascii _ _ _ _ _ _ _ _ => _ end] => is_var a; destruct a
           | |- context [if ?b then _ else _] => is_var b; destruct b
           end;
      try (intros [= <- <-]; by split).
    destruct (_splitnetloc _) as [n0 r0] eqn:Hs. cbv zeta.
    repeat match goal with |- context [if ?b then _ else _] => destruct b end;
      try discriminate.
    all: intros [= <- <-]; split; [eapply splitnetloc_no_hash; exact Hs|].
    all: intros Hu; eapply splitnetloc_rest_no_hash; [exact Hs|].
    all: simpl in Hu; exact Hu. }
  destruct nlr as [[n r]|]; simpl; [|discriminate].
  destruct (Hnl n r eq_refl) as [Hn Hr].
  destruct (partition "#" r) as [[u4 f1] fr] eqn:Hp1.
  destruct (partition "?" u4) as [[p5 f2] q5] eqn:Hp2.
  intros [= <- <- <- <- <-].
  pose proof (partition_spec _ _ _ _ _ Hp1) as [Hu4 _].
  destruct (partition_clean "#" "?" u4 p5 f2 q5 Hp2 Hu4) as [Hp Hq].
  repeat split; auto.
  intros Hx. rewrite (partition_absent "#" r (Hr (Hurl2 Hx))) in Hp1. congruence.
Qed.

Lemma splitparams_no_hash url u p : _splitparams url = (u, p) -> no_hash url -> no_hash u /\ no_hash p.
Proof.
  unfold _splitparams, split_at_first_from. intros H Hurl.
  destruct (rfind_slash url) as [i|].
  - destruct (partition ";" (drop i url)) as [[a f] b] eqn:Hp.
    destruct (partition_clean "#" ";" _ a f b Hp (has_char_drop _ i _ Hurl)) as [Ha Hb].
    destruct f; injection H as <- <-; [|auto].
    rewrite has_char_app, (has_char_take _ i _ Hurl), Ha. auto.
  - destruct (partition ";" url) as [[a f] b] eqn:Hp. injection H as <- <-.
    eapply partition_clean; eauto.
Qed.

Lemma urlparse_no_hash x p :
  urlparse x = Some p ->
  no_hash (scheme p) /\ no_hash (netloc p) /\ no_hash (path p) /\
  no_hash (params p) /\ no_hash (query p).
Proof.
  unfold urlparse, urlparse_with. intros H.
  destruct (urlsplit x "") as [[[[[sch nl] pth] qry] frag]|] eqn:Hs; cbn -[mem uses_params has_char _splitparams] in H; [|discriminate].
  apply urlsplit_no_hash in Hs as (Hsch & Hnl & Hpth & Hqry & _).
  destruct (mem sch uses_params && has_char ";" pth).
  - destruct (_splitparams pth) as [u a] eqn:Hsp. injection H as <-. simpl.
    destruct (splitparams_no_hash pth u a Hsp Hpth). auto.
  - injection H as <-. simpl. auto.
Qed.

(** Put together without a fragment, clean parts give a clean URL. *)
Lemma urlunparse_no_hash s n p a q :
  no_hash s -> no_hash n -> no_hash p -> no_hash a -> no_hash q ->
  no_hash (urlunparse (mkParse s n p a q "")).
Proof.
  intros Hs Hn Hp Ha Hq. unfold urlunparse, urlunsplit. simpl.
  repeat match goal with |- context [if ?b then _ else _] => destruct b end;
    rewrite ?has_char_app; simpl; rewrite ?has_char_app; simpl;
    rewrite ?Hs, ?Hn, ?Hp, ?Ha, ?Hq; reflexivity.
Qed.

Lemma urldefrag_no_hash x u : urldefrag x = Some u -> no_hash u.
Proof.
  unfold urldefrag. destruct (has_char "#" x) eqn:Hx.
  - destruct (urlparse x) as [p|] eqn:Hp; simpl; [|discriminate].
    intros [= <-]. apply urlparse_no_hash in Hp as (? & ? & ? & ? & ?).
    by apply urlunparse_no_hash.
  - by intros [= <-].
Qed.

Lemma hostinfo_no_hash n : no_hash n -> no_hash (hostinfo_of n).
Proof.
  unfold hostinfo_of. intros H. destruct (rpartition "@" n) as [[a b]|] eqn:Hr; [|exact H].
  apply rpartition_spec in Hr as [-> _]. rewrite has_char_app in H. simpl in H.
  by apply orb_false_iff in H as [_ H].
Qed.

Lemma hostname_no_hash p h : hostname p = Some h -> no_hash (netloc p) -> no_hash h.
Proof.
  unfold hostname, _hostinfo. intros H Hn. apply hostinfo_no_hash in Hn.
  destruct (partition "[" (hostinfo_of (netloc p))) as [[pre br] bracketed] eqn:H1.
  destruct (partition_clean "#" "[" _ _ _ _ H1 Hn) as [_ Hb].
  assert (Hh : forall hn prt,
             (if br
              then let '(hostname, _, port) := partition "]" bracketed in
                   let '(_, _, port0) := partition ":" port in (hostname, port0)
              else let '(hostname, _, port) := partition ":" (hostinfo_of (netloc p)) in
                   (hostname, port)) = (hn, prt) -> no_hash hn).
  { intros hn prt. destruct br.
    - destruct (partition "]" bracketed) as [[h1 f1] p1] eqn:H2.
      destruct (partition ":" p1) as [[? ?] ?]. intros [= <- _].
      by destruct (partition_clean "#" "]" _ _ _ _ H2 Hb).
    - destruct (partition ":" (hostinfo_of (netloc p))) as [[h1 f1] p1] eqn:H2.
      intros [= <- _]. by destruct (partition_clean "#" ":" _ _ _ _ H2 Hn). }
  destruct (if br then _ else _) as [hn prt]. specialize (Hh hn prt eq_refl).
  simpl in H. destruct (truthy hn); [|discriminate].
  destruct (partition "%" hn) as [[h0 pc] zone] eqn:H3.
  destruct (partition_clean "#" "%" _ _ _ _ H3 Hh) as [Hh0 Hz].
  injection H as <-. rewrite !has_char_app, has_char_lower, Hh0, Hz by reflexivity.
  by destruct pc.
Qed.

Lemma uint_no_hash d : no_hash (NilEmpty.string_of_uint d).
Proof. induction d; simpl; auto. Qed.

Lemma urlparse_fragment_empty x p : urlparse x = Some p -> no_hash x -> fragment p = "".
Proof.
  unfold urlparse, urlparse_with. intros H Hx.
  destruct (urlsplit x "") as [[[[[sch nl] pth] qry] frag]|] eqn:Hs;
    cbn -[mem uses_params has_char _splitparams] in H; [|discriminate].
  apply urlsplit_no_hash in Hs as (_ & _ & _ & _ & Hf).
  destruct (if mem sch uses_params && has_char ";" pth then _ else _) as [u a].
  injection H as <-. simpl. auto.
Qed.

(** A URL put together from a scheme that starts with [http] starts with
    [http]. *)
Lemma urlunparse_startswith_http p :
  startswith "http" (scheme p) = true -> startswith "http" (urlunparse p) = true.
Proof.
  intros Hs. unfold urlunparse, urlunsplit.
  assert (Ht : truthy (scheme p) = true).
  { destruct (scheme p); [discriminate Hs | reflexivity]. }
  rewrite Ht.
  repeat match goal with
         | |- startswith _ (if ?b then _ else _) = true => destruct b
         | |- startswith _ (_ +:+ _) = true => apply startswith_app
         end; try exact Hs.
  all: cbv zeta; repeat apply startswith_app; exact Hs.
Qed.

(** What [_norm_url] returns holds no fragment mark and starts with [http]. *)
Lemma norm_url_shape base href out :
  _norm_url base href = Some out -> no_hash out /\ startswith "http" out = true.
Proof.
  unfold _norm_url. destruct (negb (truthy href)); [discriminate|].
  destruct (urljoin base href) as [absu|]; [|discriminate].
  cbn [mbind option_bind].
  destruct (urldefrag absu) as [u|] eqn:Hu; [|discriminate]. cbn [mbind option_bind].
  destruct (urlparse u) as [parsed|] eqn:Hp; [|discriminate]. cbn [mbind option_bind].
  destruct (negb (startswith "http" (scheme parsed))) eqn:Hsch; [discriminate|].
  apply negb_false_iff in Hsch.
  destruct (port parsed) as [prt|]; [|discriminate]. cbn [mbind option_bind].
  intros [= <-]. split.
  - apply urldefrag_no_hash in Hu.
    pose proof (urlparse_fragment_empty _ _ Hp Hu) as Hf.
    apply urlparse_no_hash in Hp as (H1 & H2 & H3 & H4 & H5).
    unfold geturl, replace_netloc. rewrite Hf.
    apply urlunparse_no_hash; auto.
    assert (Hh : no_hash (or_empty (hostname parsed))).
    { destruct (hostname parsed) as [h|] eqn:Hh; [|reflexivity].
      exact (hostname_no_hash _ _ Hh H2). }
    assert (Hf' : no_hash (fmt_opt (hostname parsed))).
    { destruct (hostname parsed) as [h|] eqn:Hh'; [|reflexivity].
      exact (hostname_no_hash _ _ Hh' H2). }
    destruct prt as [n|]; [|exact Hh].
    repeat match goal with |- context [if ?b then _ else _] => destruct b end; try exact Hh.
    rewrite !has_char_app, Hf'. simpl. apply uint_no_hash.
  - unfold geturl. by apply urlunparse_startswith_http.
Qed.

(** [_parse_links] returns, in the order of the anchors, what [_norm_url]
    makes of their [href]s. *)
Lemma parse_links_spec base anchors u :
  In u (_parse_links base anchors) <->
  exists href, In href anchors /\ _norm_url base href = Some u.
Proof.
  unfold _parse_links. rewrite <- list_elem_of_In, list_elem_of_omap. split.
  - intros (href & Hin & H). exists href. split; [by apply list_elem_of_In|].
    destruct (_norm_url base href) as [n|]; [|discriminate].
    destruct (truthy n); [by injection H as ->|discriminate].
  - intros (href & Hin & H). exists href. split; [by apply list_elem_of_In|].
    rewrite H. destruct (norm_url_shape _ _ _ H) as [_ Hs].
    destruct u; [discriminate Hs | reflexivity].
Qed.

End NormFacts.

(* ===================================================================== *)
(** ** The domain policy *)
(* ===================================================================== *)

Module DomainFacts.
Import Str Url Crawl StrFacts PolicyProps.

Lemma truthy_lower s : truthy (lower s) = truthy s.
Proof. by destruct s. Qed.

Lemma truthy_app_l a b : truthy a = true -> truthy (a +:+ b) = true.
Proof. by destruct a. Qed.

Lemma hostname_truthy p h : hostname p = Some h -> truthy h = true.
Proof.
  unfold hostname. destruct (truthy (_hostinfo p).1) eqn:Ht; [|discriminate].
  destruct (partition "%" (_hostinfo p).1) as [[h0 pc] zone] eqn:Hp.
  intros [= <-]. apply partition_spec in Hp as [_ Hp].
  destruct h0 as [|c h0]; [|reflexivity].
  destruct pc; [reflexivity|]. destruct Hp as [Hp _]. by rewrite Hp in Ht.
Qed.

Lemma host_matches_iff host allow sub :
  host_matches host allow sub = true <-> exists dom, In dom allow /\ entry_accepts host sub dom.
Proof.
  unfold host_matches, entry_accepts. rewrite existsb_exists.
  split; intros (dom & Hin & H); exists dom; (split; [exact Hin|]).
  - apply orb_true_iff in H as [H|H]; [left; by apply String.eqb_eq|right].
    apply andb_true_iff in H as [-> H]. split; [reflexivity|].
    by apply endswith_iff in H.
  - apply orb_true_iff. destruct H as [->|[-> H]]; [left; apply String.eqb_refl|right].
    by apply endswith_iff.
Qed.

Lemma domain_allowed_iff url allow sub :
  _domain_allowed url allow sub = Some true <->
  exists p h, urlparse url = Some p /\ hostname p = Some h /\
              exists dom, In dom allow /\ entry_accepts (lower h) sub dom.
Proof.
  unfold _domain_allowed. split.
  - destruct (urlparse url) as [p|]; [|discriminate]. cbn [mbind option_bind].
    destruct (hostname p) as [h|] eqn:Hh; [|discriminate]. cbn [or_empty].
    destruct (negb (truthy (lower h))); [discriminate|].
    intros [= H]. apply host_matches_iff in H. by exists p, h.
  - intros (p & h & -> & Hh & H). cbn [mbind option_bind]. rewrite Hh. cbn [or_empty].
    rewrite truthy_lower, (hostname_truthy _ _ Hh). cbn [negb].
    f_equal. by apply host_matches_iff.
Qed.

Lemma domain_allowed_widen url allow sub allow' sub' :
  _domain_allowed url allow sub = Some true ->
  (forall dom, In dom allow -> In dom allow') ->
  (sub = true -> sub' = true) ->
  _domain_allowed url allow' sub' = Some true.
Proof.
  intros H Hincl Hsub. apply domain_allowed_iff in H as (p & h & Hp & Hh & dom & Hin & Hacc).
  apply domain_allowed_iff. exists p, h. repeat split; try done.
  exists dom. split; [by apply Hincl|].
  destruct Hacc as [?|[? ?]]; [by left|right; split; auto].
Qed.

End DomainFacts.

(* ===================================================================== *)
(** ** The frontier over a pass of the loop *)
(* ===================================================================== *)

Module VisitFacts.
Import Str Url Crawl Props LoopFacts FrontierFacts PolicyProps.

(** One pass of the loop, seen from the frontier: the head of the queue is
    taken; what is appended is new, without repeats and accepted by the
    domain policy; at most one fetch is logged, and it is of the head. *)
Lemma step_frontier env cfg st st' :
  step env cfg st = Continue st' \/ step env cfg st = Raise st' ->
  exists url rest new,
    q st = url :: rest /\ q st' = rest ++ new /\ NoDup new /\
    (forall u, In u new ->
       (u ∉ seen st) /\
       _domain_allowed u (allow_domains cfg) (include_subdomains cfg) = Some true) /\
    (forall u, u ∈ seen st' <-> u ∈ seen st \/ In u new) /\
    (requests st' = requests st \/ exists woke, requests st' = (url, woke) :: requests st).
Proof.
  assert (Hnone : forall (rest : list string) (sn : gset string),
            rest = rest ++ [] /\ NoDup (@nil string) /\
            (forall u, In u [] ->
               (u ∉ sn) /\
               _domain_allowed u (allow_domains cfg) (include_subdomains cfg) = Some true) /\
            (forall u, u ∈ sn <-> u ∈ sn \/ In u [])).
  { intros rest sn. rewrite app_nil_r. split; [reflexivity|]. split; [constructor|]. split.
    - intros u [].
    - intros u. simpl. tauto. }
  intros H. unfold step in H.
  destruct (q st) as [|url rest] eqn:Hq; [destruct H; discriminate|].
  exists url, rest.
  destruct (negb (fetched st <? max_pages cfg)%Z); [destruct H; discriminate|].
  destruct (if obey_robots_txt cfg then allowed env (robots st) url
            else Some (true, robots st)) as [[[|] rc]|].
  2: { destruct H as [H|H]; [|discriminate]. injection H as <-. exists []. simpl.
       destruct (Hnone rest (seen st)) as (? & ? & ? & ?). repeat split; auto; tauto. }
  2: { destruct H as [H|H]; [discriminate|]. injection H as <-. exists []. simpl.
       destruct (Hnone rest (seen st)) as (? & ? & ? & ?). repeat split; auto; tauto. }
  destruct (wait _ (last st) (clock st) url) as [[last' woke]|].
  2: { destruct H as [H|H]; [discriminate|]. injection H as <-. exists []. simpl.
       destruct (Hnone rest (seen st)) as (? & ? & ? & ?). repeat split; auto; tauto. }
  destruct (client_get env url) as [r|].
  2: { destruct H as [H|H]; [|discriminate]. injection H as <-. exists []. simpl.
       destruct (Hnone rest (seen st)) as (? & ? & ? & ?). repeat split; eauto; tauto. }
  assert (Hlinks : exists new sn,
            (if is_html (media_type r) url
             then match hrefs r with
                  | Some anchors =>
                      enqueue_links (allow_domains cfg) (include_subdomains cfg)
                        (_parse_links url anchors) (rest, seen st)
                  | None => (rest, seen st)
                  end
             else (rest, seen st)) = (rest ++ new, sn) /\
            NoDup new /\
            (forall u, In u new ->
               (u ∉ seen st) /\
               _domain_allowed u (allow_domains cfg) (include_subdomains cfg) = Some true) /\
            (forall u, u ∈ sn <-> u ∈ seen st \/ In u new)).
  { destruct (is_html (media_type r) url);
      [destruct (hrefs r) as [anchors|]|].
    - destruct (enqueue_links _ _ _ (rest, seen st)) as [q1 s1] eqn:He.
      pose proof (enqueue_links_allowed _ _ _ _ _ _ _ He) as (new' & Hq1 & Hall).
      apply enqueue_links_fresh in He as (new & -> & Hnd & Hfresh & Hseen).
      apply app_inv_head in Hq1 as <-.
      exists new, s1. repeat split; auto; apply Hseen.
    - exists [], (seen st). destruct (Hnone rest (seen st)) as (Heq & Hn1 & Hn2 & Hn3).
      split; [by rewrite <- Heq|]. split; [exact Hn1|]. split; [exact Hn2 | exact Hn3].
    - exists [], (seen st). destruct (Hnone rest (seen st)) as (Heq & Hn1 & Hn2 & Hn3).
      split; [by rewrite <- Heq|]. split; [exact Hn1|]. split; [exact Hn2 | exact Hn3]. }
  destruct Hlinks as (new & sn & Heq & Hnd & Hall & Hseen). rewrite Heq in H.
  destruct (is_pdf (media_type r) url || is_html (media_type r) url).
  - destruct (_save_blob _ _ _ _ _ _ _) as [fs [path|]].
    + destruct H as [H|H]; [|discriminate]. injection H as <-. exists new. simpl.
      repeat split; eauto; apply Hseen || apply Hall; auto.
    + destruct H as [H|H]; [discriminate|]. injection H as <-. exists []. simpl.
      destruct (Hnone rest (seen st)) as (? & ? & ? & ?). repeat split; eauto; tauto.
  - destruct H as [H|H]; [|discriminate]. injection H as <-. exists new. simpl.
    repeat split; eauto; apply Hseen || apply Hall; auto.
Qed.

Lemma step_within_policy env cfg st st' :
  step env cfg st = Continue st' \/ step env cfg st = Raise st' ->
  within_policy cfg st -> within_policy cfg st'.
Proof.
  intros Hs [Hq Hr].
  apply step_frontier in Hs as (url & rest & new & Hq0 & Hq1 & _ & Hnew & _ & Hreq).
  split.
  - intros u Hin. rewrite Hq1 in Hin. apply in_app_or in Hin as [Hin|Hin].
    + apply Hq. rewrite Hq0. by right.
    + by apply Hnew.
  - intros u t Hin. destruct Hreq as [Hr'|[woke Hr']]; rewrite Hr' in Hin; [eauto|].
    destruct Hin as [[= <- <-]|Hin]; [|eauto].
    apply Hq. rewrite Hq0. by left.
Qed.

Lemma crawl_within_policy env cfg seeds d fuel o :
  crawl fuel env cfg seeds d = Some o -> within_policy cfg (final o).
Proof.
  unfold crawl. destruct (start env cfg seeds d) as [st|] eqn:Hst.
  - intros Hrun.
    apply (loop_invariant env cfg (within_policy cfg)) with (fuel := fuel) (st := st);
      [| | |exact Hrun].
    + intros s s' HP Hs. eapply step_within_policy; eauto.
    + intros s s' HP Hs. eapply step_within_policy; eauto.
    + split; [by eapply start_queue_allowed|].
      apply CapFacts.start_fresh in Hst as (_ & _ & -> & _). intros ? ? [].
  - intros [= <-]. split; intros ? ; simpl; intros; contradiction.
Qed.

Lemma step_visited_once env cfg st st' :
  step env cfg st = Continue st' \/ step env cfg st = Raise st' ->
  visited_once st -> visited_once st'.
Proof.
  intros Hs [Hnd Hseen].
  apply step_frontier in Hs as (url & rest & new & Hq0 & Hq1 & Hnew & Hfresh & Hs' & Hreq).
  rewrite Hq0 in Hnd, Hseen.
  assert (Hnd' : NoDup ((url :: map fst (requests st)) ++ rest ++ new)).
  { rewrite app_assoc. apply NoDup_app. split; [|split; [|exact Hnew]].
    - simpl. eapply NoDup_Permutation_proper; [|exact Hnd].
      by rewrite Permutation_middle.
    - intros u Hu Hin. apply list_elem_of_In in Hin. apply Hfresh in Hin as [Hin _].
      apply Hin, Hseen. apply list_elem_of_In in Hu. simpl in Hu.
      apply in_or_app. destruct Hu as [<-|Hu]; [right; by left|].
      apply in_app_or in Hu as [Hu|Hu]; [by left|right; by right]. }
  assert (Hseen' : forall u, In u ((url :: map fst (requests st)) ++ rest ++ new) -> u ∈ seen st').
  { intros u Hu. apply Hs'. simpl in Hu. rewrite app_assoc in Hu.
    destruct Hu as [<-|Hu]; [left; apply Hseen, in_or_app; right; by left|].
    apply in_app_or in Hu as [Hu|Hu]; [left|by right].
    apply Hseen. apply in_app_or in Hu as [Hu|Hu]; apply in_or_app; [by left|right; by right]. }
  split; rewrite Hq1.
  - destruct Hreq as [->|[woke ->]]; [|exact Hnd'].
    simpl in Hnd'. by apply NoDup_cons_1_2 in Hnd'.
  - intros u Hu. apply Hseen'. destruct Hreq as [Hr|[woke Hr]]; rewrite Hr in Hu.
    + by right.
    + exact Hu.
Qed.

End VisitFacts.

(* ===================================================================== *)
(** ** Each URL is visited once *)
(* ===================================================================== *)

Module OnceFacts.
Import Str Url Crawl Props LoopFacts FrontierFacts PolicyProps VisitFacts.

Lemma enqueue_all_seen us q0 (seen0 : gset string) :
  exists seen1, enqueue_all us (q0, seen0) = (q0 ++ us, seen1) /\
                forall u, u ∈ seen1 <-> u ∈ seen0 \/ In u us.
Proof.
  unfold enqueue_all. revert q0 seen0. induction us as [|u us IH]; intros q0 seen0; simpl.
  - exists seen0. rewrite app_nil_r. split; [reflexivity | tauto].
  - destruct (IH (q0 ++ [u]) ({[u]} ∪ seen0)) as (seen1 & -> & Hs).
    exists seen1. rewrite <- app_assoc. split; [reflexivity|].
    intros v. rewrite Hs, elem_of_union, elem_of_singleton.
    split; [intros [[->|?]|?] | intros [?|[<-|?]]]; auto.
Qed.

(** The queue the loop starts from lies in [seen]. *)
Lemma start_seen env cfg seeds d st :
  start env cfg seeds d = Some st -> forall u, In u (q st) -> u ∈ seen st.
Proof.
  unfold start. intros H.
  destruct (seeds_n _ _ seeds) as [sn|]; simpl in H; [|discriminate].
  destruct (if use_sitemaps cfg then _discover_from_sitemaps env sn else Some [])
    as [disc|]; simpl in H; [|discriminate].
  destruct (keep_allowed _ _ disc) as [kept|]; simpl in H; [|discriminate].
  destruct (enqueue_all_seen kept [] ∅) as (seen1 & H1 & Hs1). rewrite H1 in H.
  destruct (enqueue_all_seen sn ([] ++ kept) seen1) as (seen2 & H2 & Hs2). rewrite H2 in H.
  injection H as <-. simpl. intros u Hin. apply Hs2.
  apply in_app_or in Hin as [Hin|Hin]; [left; apply Hs1|]; auto.
Qed.

(** The seeds kept are seeds, in the order given. *)
Lemma seeds_n_sublist allow sub seeds sn :
  seeds_n allow sub seeds = Some sn -> sublist sn seeds.
Proof.
  revert sn. induction seeds as [|s rest IH]; intros sn H; simpl in H.
  - injection H as <-. constructor.
  - rewrite ?norm_url_empty_href in H.
    destruct (if truthy s then _domain_allowed s allow sub else Some false) as [ok|];
      simpl in H; [|discriminate].
    destruct (seeds_n allow sub rest) as [tl|]; simpl in H; [|discriminate].
    injection H as <-. destruct ok; [apply sublist_skip | apply sublist_cons]; by apply IH.
Qed.

(** Without sitemaps the loop starts from the seeds kept. *)
Lemma start_queue_no_sitemaps env cfg seeds d st :
  use_sitemaps cfg = false ->
  start env cfg seeds d = Some st ->
  seeds_n (allow_domains cfg) (include_subdomains cfg) seeds = Some (q st).
Proof.
  unfold start. intros Hu H. rewrite Hu in H.
  destruct (seeds_n _ _ seeds) as [sn|]; simpl in H; [|discriminate].
  destruct (enqueue_all_seen sn [] ∅) as (seen2 & H2 & _).
  rewrite H2 in H. by injection H as <-.
Qed.

Lemma loop_visited_once env cfg fuel st o :
  visited_once st -> loop fuel env cfg st = Some o -> visited_once (final o).
Proof.
  intros HP Hrun.
  apply (loop_invariant env cfg visited_once) with (fuel := fuel) (st := st);
    [| |exact HP|exact Hrun].
  - intros s s' H Hs. eapply step_visited_once; eauto.
  - intros s s' H Hs. eapply step_visited_once; eauto.
Qed.

Lemma start_visited_once env cfg seeds d st :
  start env cfg seeds d = Some st -> NoDup (q st) -> visited_once st.
Proof.
  intros Hst Hnd. pose proof (start_seen _ _ _ _ _ Hst) as Hseen.
  apply CapFacts.start_fresh in Hst as (_ & _ & Hr & _). unfold visited_once.
  rewrite Hr. simpl. split; [exact Hnd | exact Hseen].
Qed.

End OnceFacts.

(* ===================================================================== *)
(** ** What [_save_blob] leaves in the store *)
(* ===================================================================== *)

Module StoreFacts.
Import Str Url Crawl Props LoopFacts StrFacts StoreProps.

Lemma app_inj_r s a b : a +:+ s = b +:+ s -> a = b.
Proof.
  intros H. apply (f_equal rev) in H. rewrite !rev_app in H.
  apply app_inj_l in H. apply (f_equal rev) in H. by rewrite !rev_involutive in H.
Qed.

Lemma guess_kind_cases url ct : _guess_kind url ct = "pdf" \/ _guess_kind url ct = "html".
Proof. unfold _guess_kind. destruct (_ || _); auto. Qed.

(** A path that ends in [.meta.json] ends neither in [.pdf] nor in [.html]. *)
Lemma blob_not_sidecar a kind b : (kind = "pdf" \/ kind = "html") ->
  a +:+ ext_of kind <> b +:+ ".meta.json".
Proof.
  intros Hk H. apply (f_equal rev) in H. rewrite !rev_app in H.
  destruct Hk as [-> | ->]; vm_compute in H; discriminate H.
Qed.

Lemma kind_stem_inj k1 h1 k2 h2 :
  (k1 = "pdf" \/ k1 = "html") -> (k2 = "pdf" \/ k2 = "html") ->
  k1 +:+ "/" +:+ h1 = k2 +:+ "/" +:+ h2 -> k1 = k2 /\ h1 = h2.
Proof.
  intros [-> | ->] [-> | ->] H; norm_app; try discriminate H; split; try reflexivity;
    congruence.
Qed.

(** What [_save_blob] leaves when both writes go through. *)
Lemma save_blob_spec env raw now fs url body ct fs' rel :
  _save_blob env raw now fs url body ct = (fs', Some rel) ->
  let kind := _guess_kind url ct in
  let h := _hash_name env url in
  rel = kind +:+ "/" +:+ h +:+ ext_of kind /\
  fs' = <[raw +:+ "/" +:+ kind +:+ "/" +:+ h +:+ ".meta.json" := Sidecar url ct rel now]>
          (<[raw +:+ "/" +:+ rel := Blob body]> fs).
Proof.
  unfold _save_blob, write_file. fold (ext_of (_guess_kind url ct)).
  destruct (write_ok env _); [|discriminate].
  destruct (write_ok env _); [|discriminate].
  intros [= <- <-]. cbv zeta. split; [reflexivity|].
  by rewrite !app_assoc_str.
Qed.

(** What [_save_blob] leaves when a write fails: nothing, or the blob alone. *)
Lemma save_blob_failed env raw now fs url body ct fs' :
  _save_blob env raw now fs url body ct = (fs', None) ->
  fs' = fs \/
  fs' = <[raw +:+ "/" +:+ _guess_kind url ct +:+ "/" +:+ _hash_name env url
            +:+ ext_of (_guess_kind url ct) := Blob body]> fs.
Proof.
  unfold _save_blob, write_file. fold (ext_of (_guess_kind url ct)).
  destruct (write_ok env _); [|intros [= <-]; by left].
  destruct (write_ok env _); [discriminate|].
  intros [= <-]. right. by rewrite !app_assoc_str.
Qed.

(** After a save that went through, the blob and the sidecar can be read
    back, and no other file has changed. *)
Lemma save_blob_lookup env raw now fs url body ct fs' rel :
  _save_blob env raw now fs url body ct = (fs', Some rel) ->
  let meta := raw +:+ "/" +:+ _guess_kind url ct +:+ "/" +:+ _hash_name env url
                +:+ ".meta.json" in
  fs' !! (raw +:+ "/" +:+ rel) = Some (Blob body) /\
  fs' !! meta = Some (Sidecar url ct rel now) /\
  forall p, p <> raw +:+ "/" +:+ rel -> p <> meta -> fs' !! p = fs !! p.
Proof.
  intros H. apply save_blob_spec in H as [Hrel ->]. cbv zeta in *.
  pose proof (guess_kind_cases url ct) as Hk.
  split; [|split].
  - rewrite lookup_insert_ne; [apply lookup_insert_eq|].
    rewrite Hrel, <- !app_assoc_str. intros Heq. symmetry in Heq.
    revert Heq. apply blob_not_sidecar. exact Hk.
  - apply lookup_insert_eq.
  - intros p Hb Hm. rewrite lookup_insert_ne by (by apply not_eq_sym).
    by rewrite lookup_insert_ne by (by apply not_eq_sym).
Qed.

(** Writing a blob keeps every entry backed. *)
Lemma stored_after_blob raw fs e kind h body :
  (kind = "pdf" \/ kind = "html") ->
  stored raw fs e ->
  stored raw (<[raw +:+ "/" +:+ kind +:+ "/" +:+ h +:+ ext_of kind := Blob body]> fs) e.
Proof.
  intros Hk (k0 & h0 & b0 & u & c & t & Hk0 & Hrel & Hb & Hm).
  destruct (decide (raw +:+ "/" +:+ kind +:+ "/" +:+ h +:+ ext_of kind
                    = raw +:+ "/" +:+ m_saved_path e)) as [Heq|Hne].
  - exists k0, h0, body, u, c, t. repeat split; auto.
    + rewrite Heq. apply lookup_insert_eq.
    + rewrite lookup_insert_ne; [exact Hm|].
      rewrite <- !app_assoc_str. apply blob_not_sidecar. exact Hk.
  - exists k0, h0, b0, u, c, t. repeat split; auto.
    + rewrite lookup_insert_ne; [exact Hb | exact Hne].
    + rewrite lookup_insert_ne; [exact Hm|].
      rewrite <- !app_assoc_str. apply blob_not_sidecar. exact Hk.
Qed.

(** Writing the sidecar of a blob keeps every entry backed. *)
Lemma stored_after_sidecar raw fs e kind h u c t :
  (kind = "pdf" \/ kind = "html") ->
  stored raw fs e ->
  stored raw (<[raw +:+ "/" +:+ kind +:+ "/" +:+ h +:+ ".meta.json"
                 := Sidecar u c (kind +:+ "/" +:+ h +:+ ext_of kind) t]> fs) e.
Proof.
  intros Hk (k0 & h0 & b0 & u0 & c0 & t0 & Hk0 & Hrel & Hb & Hm).
  assert (Hblob : raw +:+ "/" +:+ kind +:+ "/" +:+ h +:+ ".meta.json"
                  <> raw +:+ "/" +:+ m_saved_path e).
  { rewrite Hrel. rewrite <- !app_assoc_str. intros Heq. symmetry in Heq.
    revert Heq. apply blob_not_sidecar. exact Hk0. }
  destruct (decide (raw +:+ "/" +:+ kind +:+ "/" +:+ h +:+ ".meta.json"
                    = raw +:+ "/" +:+ k0 +:+ "/" +:+ h0 +:+ ".meta.json")) as [Heq|Hne].
  - pose proof Heq as Heq'. rewrite <- !app_assoc_str in Heq'. apply app_inj_r in Heq'.
    rewrite !app_assoc_str in Heq'. do 2 apply app_inj_l in Heq'.
    apply kind_stem_inj in Heq' as [-> ->]; auto.
    exists k0, h0, b0, u, c, t. repeat split; auto.
    + rewrite lookup_insert_ne; [exact Hb | exact Hblob].
    + rewrite Hrel. apply lookup_insert_eq.
  - exists k0, h0, b0, u0, c0, t0. repeat split; auto.
    + rewrite lookup_insert_ne; [exact Hb | exact Hblob].
    + rewrite lookup_insert_ne; [exact Hm | exact Hne].
Qed.

(** A save that goes through backs its own entry and keeps the others
    backed. *)
Lemma save_blob_stored env raw now fs url body ct fs' rel :
  _save_blob env raw now fs url body ct = (fs', Some rel) ->
  stored raw fs' (mkEntry url ct rel) /\
  forall e, stored raw fs e -> stored raw fs' e.
Proof.
  intros H. apply save_blob_spec in H as [Hrel ->]. cbv zeta in Hrel.
  pose proof (guess_kind_cases url ct) as Hk. split.
  - exists (_guess_kind url ct), (_hash_name env url), body, url, ct, now.
    split; [exact Hk|]. split; [exact Hrel|]. simpl. split.
    + rewrite lookup_insert_ne; [apply lookup_insert_eq|].
      rewrite Hrel, <- !app_assoc_str. intros Heq. symmetry in Heq.
      revert Heq. apply blob_not_sidecar. exact Hk.
    + apply lookup_insert_eq.
  - intros e He. rewrite Hrel at 1. apply stored_after_sidecar; [exact Hk|].
    rewrite Hrel. rewrite <- (app_assoc_str raw "/" (_ +:+ _)).
    assert (Hp : (raw +:+ "/") +:+ _guess_kind url ct +:+ "/" +:+ _hash_name env url
                   +:+ ext_of (_guess_kind url ct)
                 = raw +:+ "/" +:+ _guess_kind url ct +:+ "/" +:+ _hash_name env url
                   +:+ ext_of (_guess_kind url ct)) by (by rewrite !app_assoc_str).
    rewrite Hp. apply stored_after_blob; [exact Hk | exact He].
Qed.

End StoreFacts.

(* ===================================================================== *)
(** ** The manifest over a crawl *)
(* ===================================================================== *)

Module ManifestFacts.
Import Str Url Crawl Props LoopFacts StrFacts StoreProps StoreFacts.

(** One pass of the loop, seen from the disk: either the manifest,
    [urls.txt] and [saved] stay and at most a blob is written, or a save
    went through and one line was appended for the URL just fetched. *)
Lemma step_store env cfg st st' :
  step env cfg st = Continue st' \/ step env cfg st = Raise st' ->
  (manifest (disk st') = manifest (disk st) /\ urls_txt (disk st') = urls_txt (disk st) /\
   saved st' = saved st /\
   (exists newer, requests st' = newer ++ requests st) /\
   (files (disk st') = files (disk st) \/
    exists kind h body,
      (kind = "pdf" \/ kind = "html") /\
      files (disk st') = <[raw_dir cfg +:+ "/" +:+ kind +:+ "/" +:+ h +:+ ext_of kind
                             := Blob body]> (files (disk st))))
  \/
  (exists url woke now body ct rel,
     requests st' = (url, woke) :: requests st /\
     _save_blob env (raw_dir cfg) now (files (disk st)) url body ct
       = (files (disk st'), Some rel) /\
     manifest (disk st') = manifest (disk st) ++ [mkEntry url ct rel] /\
     urls_txt (disk st') = urls_txt (disk st) ++ [url] /\
     saved st' = (saved st + 1)%Z).
Proof.
  intros H. unfold step in H.
  destruct (q st) as [|url rest] eqn:Hq; [destruct H; discriminate|].
  destruct (negb (fetched st <? max_pages cfg)%Z); [destruct H; discriminate|].
  destruct (if obey_robots_txt cfg then allowed env (robots st) url
            else Some (true, robots st)) as [[[|] rc]|].
  2, 3: left; destruct H as [H|H]; try discriminate; injection H as <-; simpl;
        repeat split; auto; by exists [].
  destruct (wait _ (last st) (clock st) url) as [[last' woke]|].
  2: left; destruct H as [H|H]; try discriminate; injection H as <-; simpl;
     repeat split; auto; by exists [].
  destruct (client_get env url) as [r|].
  2: left; destruct H as [H|H]; try discriminate; injection H as <-; simpl;
     repeat split; auto; by exists [(url, woke)].
  destruct (if is_html (media_type r) url then _ else _) as [qs sn].
  destruct (is_pdf (media_type r) url || is_html (media_type r) url).
  - destruct (_save_blob _ _ _ _ _ _ _) as [fs [path|]] eqn:Hsave.
    + right. destruct H as [H|H]; [|discriminate]. injection H as <-. simpl.
      eexists url, woke, _, _, _, path. repeat split. exact Hsave.
    + left. destruct H as [H|H]; [discriminate|]. injection H as <-. simpl.
      repeat split; [by exists [(url, woke)]|].
      apply save_blob_failed in Hsave as [-> | ->]; [by left|right].
      eexists _, _, _. split; [apply guess_kind_cases | reflexivity].
  - left. destruct H as [H|H]; [|discriminate]. injection H as <-. simpl.
    repeat split; auto. by exists [(url, woke)].
Qed.

Lemma step_manifest_backed env cfg d0 st st' :
  step env cfg st = Continue st' \/ step env cfg st = Raise st' ->
  manifest_backed (raw_dir cfg) d0 st -> manifest_backed (raw_dir cfg) d0 st'.
Proof.
  intros Hs (added & (Hm & Hu & Hst) & Hsaved & Hreq).
  apply step_store in Hs as [(Hm' & Hu' & Hs' & [newer Hr'] & Hf)|
                             (url & woke & now & body & ct & rel & Hr' & Hsave & Hm' & Hu' & Hs')].
  - exists added. repeat split; try congruence.
    + intros e He. specialize (Hst e He).
      destruct Hf as [->|(kind & h & b & Hk & ->)]; [exact Hst|].
      by apply stored_after_blob.
    + intros e He. rewrite Hr', map_app. apply in_or_app. right. by apply Hreq.
  - apply save_blob_stored in Hsave as [Hnew Hold].
    exists (added ++ [mkEntry url ct rel]). repeat split.
    + by rewrite Hm', Hm, app_assoc.
    + by rewrite Hu', Hu, map_app, app_assoc.
    + intros e He. apply in_app_or in He as [He|[<-|[]]]; auto.
    + rewrite Hs', Hsaved, List.length_app. simpl. lia.
    + intros e He. rewrite Hr'. simpl.
      apply in_app_or in He as [He|[<-|[]]]; [right; by apply Hreq | by left].
Qed.

Lemma crawl_manifest_backed env cfg seeds d fuel o :
  crawl fuel env cfg seeds d = Some o -> manifest_backed (raw_dir cfg) d (final o).
Proof.
  assert (H0 : forall st, disk st = d -> saved st = 0%Z ->
                manifest_backed (raw_dir cfg) d st).
  { intros st Hd Hs. exists []. rewrite Hd, Hs. repeat split; simpl.
    - by rewrite app_nil_r.
    - by rewrite app_nil_r.
    - intros ? [].
    - intros ? []. }
  unfold crawl. destruct (start env cfg seeds d) as [st|] eqn:Hst.
  - intros Hrun.
    apply (loop_invariant env cfg (manifest_backed (raw_dir cfg) d))
      with (fuel := fuel) (st := st); [| | |exact Hrun].
    + intros s s' HP Hs. eapply step_manifest_backed; eauto.
    + intros s s' HP Hs. eapply step_manifest_backed; eauto.
    + apply CapFacts.start_fresh in Hst as (_ & Hs & _ & Hd & _). by apply H0.
  - intros [= <-]. by apply H0.
Qed.

End ManifestFacts.

(* ===================================================================== *)
(** ** The robots cache *)
(* ===================================================================== *)

Module CacheFacts.
Import Str Url Crawl Props StrFacts.

(** Asking again gives the same answer and leaves the cache as it is. *)
Lemma allowed_again env rc url b rc' :
  allowed env rc url = Some (b, rc') -> allowed env rc' url = Some (b, rc').
Proof.
  unfold allowed. destruct (urlparse url) as [p|]; [|discriminate]. cbn [mbind option_bind].
  destruct (cache rc !! netloc p) as [lines|] eqn:Hc.
  - intros [= <- <-]. by rewrite Hc.
  - destruct (match robots_get env _ with Some _ => _ | None => _ end) as [lines smaps].
    intros [= <- <-]. cbn [cache]. by rewrite lookup_insert_eq.
Qed.

(** Once a netloc is in the cache, a question about any URL of that netloc
    is answered from the cache. *)
Lemma allowed_same_netloc env rc url b rc' url2 :
  allowed env rc url = Some (b, rc') ->
  is_Some (netloc_of url2) -> netloc_of url2 = netloc_of url ->
  exists lines,
    cache rc' !! default "" (netloc_of url) = Some lines /\
    allowed env rc' url2 = Some (robots_can_fetch env lines USER_AGENT url2, rc').
Proof.
  intros H [nl2 H2] Hnl. unfold netloc_of in *.
  destruct (RobotsFacts.allowed_spec _ _ _ _ _ H) as (p & lines & Hp & Hc & _).
  rewrite Hp in *. cbn [mbind option_bind default] in *.
  destruct (urlparse url2) as [p2|] eqn:Hp2; [|discriminate]. cbn [mbind option_bind] in *.
  injection Hnl as Hnl. exists lines. split; [exact Hc|].
  apply (RobotsFacts.allowed_cached _ _ _ p2); [exact Hp2 | by rewrite Hnl].
Qed.

(** The sitemaps known for a URL after a first question about its netloc. *)
Lemma sitemaps_after_allowed env rc url p b rc' :
  urlparse url = Some p ->
  cache rc !! netloc p = None ->
  allowed env rc url = Some (b, rc') ->
  sitemaps_for rc' url =
    Some (match robots_get env (robots_url p) with
          | Some (status, lines) =>
              if (status >=? 400)%Z then default [] (sitemap_urls rc !! netloc p)
              else sitemap_lines lines
          | None => []
          end).
Proof.
  intros Hp Hc. unfold allowed, sitemaps_for, netloc_of, robots_url. rewrite Hp.
  cbn [mbind option_bind]. rewrite Hc.
  destruct (robots_get env _) as [[status lines]|].
  - destruct (status >=? 400)%Z; intros [= <- <-]; cbn [sitemap_urls]; [reflexivity|].
    by rewrite lookup_insert_eq.
  - intros [= <- <-]. cbn [sitemap_urls]. by rewrite lookup_insert_eq.
Qed.

(** A [Sitemap:] line, in any letter case, gives what follows the colon
    without the white space around it; any other line gives nothing. *)
Lemma sitemap_line_spec line :
  sitemap_lines [line] =
    if startswith "sitemap:" (lower line) then [strip (drop 8 line)] else [].
Proof.
  unfold sitemap_lines. cbn [omap list_omap].
  destruct (startswith "sitemap:" (lower line)) eqn:Hs; [|reflexivity].
  assert (Hp : partition ":" line = (take 7 line, true, drop 8 line)).
  { unfold startswith in Hs.
    do 8 (destruct line as [|? line]; [discriminate Hs|];
          cbn [lower String.prefix] in Hs;
          match type of Hs with
          | (if ?d then _ else _) = true => destruct d as [?Hd|]; [|discriminate Hs]
          end).
    assert (Hne : forall c x, x <> ":"%char -> x = lower_char c -> Ascii.eqb c ":" = false).
    { intros c x Hx Hl. apply Ascii.eqb_neq. intros ->. apply Hx. by rewrite Hl. }
    assert (Hcolon : forall c, ":"%char = lower_char c -> c = ":"%char).
    { intros c. unfold lower_char. destruct (is_upper c) eqn:Hu; [|by intros ->].
      intros Hc. exfalso. revert Hu Hc.
      destruct c as [[] [] [] [] [] [] [] []]; vm_compute; congruence. }
    repeat match goal with
           | H : ":"%char = lower_char ?c |- _ => apply Hcolon in H; subst c
           end.
    cbn [partition take drop].
    repeat match goal with
           | H : ?x = lower_char ?c |- context [Ascii.eqb ?c ":"] =>
               rewrite (Hne c x) by (first [discriminate | exact H])
           end.
    reflexivity. }
  by rewrite Hp.
Qed.

Lemma sitemap_lines_app l1 l2 : sitemap_lines (l1 ++ l2) = sitemap_lines l1 ++ sitemap_lines l2.
Proof. unfold sitemap_lines. apply omap_app. Qed.

End CacheFacts.

(* ===================================================================== *)
(** ** Sitemap discovery *)
(* ===================================================================== *)

Module DiscoverFacts.
Import Str Url Crawl Props DiscoverProps.

Lemma mem_In u l : mem u l = true <-> In u l.
Proof.
  unfold mem. rewrite existsb_exists. split.
  - intros (x & Hin & Heq). apply String.eqb_eq in Heq. by subst.
  - intros Hin. exists u. split; [exact Hin | apply String.eqb_refl].
Qed.

Lemma set_update_spec s new :
  (forall u, In u (set_update s new) <-> In u s \/ In u new) /\
  (NoDup s -> NoDup (set_update s new)).
Proof.
  unfold set_update. revert s. induction new as [|x new IH]; intros s; simpl.
  - split; [intros u; tauto | auto].
  - destruct (mem x s) eqn:Hm.
    + destruct (IH s) as [Hin Hnd]. split; [|exact Hnd].
      intros u. rewrite Hin. apply mem_In in Hm.
      split; [tauto | intros [?|[<-|?]]; auto].
    + destruct (IH (s ++ [x])) as [Hin Hnd]. split.
      * intros u. rewrite Hin, in_app_iff. simpl. tauto.
      * intros Hs. apply Hnd. apply NoDup_app. split; [exact Hs|]. split.
        -- intros y Hy Hx. apply list_elem_of_In in Hx as [<-|[]].
           apply list_elem_of_In, mem_In in Hy. congruence.
        -- apply NoDup_singleton.
Qed.






End DiscoverFacts.

(* ===================================================================== *)
(** ** The rate limiter *)
(* ===================================================================== *)

Module LimiterFacts.
Import Str Url Crawl Props.


End LimiterFacts.

(* ===================================================================== *)
(** ** The kind of a saved blob *)
(* ===================================================================== *)

Module KindFacts.
Import Str Url Crawl Props StrFacts StoreProps StoreFacts.

(** What the loop takes for a PDF, [_guess_kind] files as a PDF. *)
Lemma is_pdf_kind ct url : is_pdf ct url = true -> _guess_kind url ct = "pdf".
Proof.
  unfold is_pdf, _guess_kind. intros H. apply orb_true_iff in H as [H|H].
  - unfold mem, PDF_CT in H. simpl in H. rewrite orb_false_r in H.
    apply String.eqb_eq in H as ->. by rewrite orb_true_r.
  - by rewrite H.
Qed.

Lemma save_blob_pdf env raw now fs url body ct fs' rel :
  is_pdf ct url = true ->
  _save_blob env raw now fs url body ct = (fs', Some rel) ->
  rel = "pdf/" +:+ _hash_name env url +:+ ".pdf".
Proof.
  intros Hp Hs. apply save_blob_spec in Hs as [-> _]. cbv zeta.
  by rewrite (is_pdf_kind _ _ Hp).
Qed.

End KindFacts.

(* ===================================================================== *)
(** ** Crawls that fetch nothing, and crawls with robots off *)
(* ===================================================================== *)

Module IdleFacts.
Import Str Url Crawl Props LoopFacts.



(** With robots off, a pass of the loop never touches the robots cache and
    always issues a fetch. *)
Lemma step_robots_off env cfg st st' :
  obey_robots_txt cfg = false ->
  step env cfg st = Continue st' \/ step env cfg st = Raise st' ->
  robots st' = robots st /\
  (step env cfg st = Continue st' -> fetched st' = (fetched st + 1)%Z).
Proof.
  intros Hoff H. unfold step in *. rewrite Hoff in *.
  destruct (q st) as [|url rest]; [destruct H; discriminate|].
  destruct (negb (fetched st <? max_pages cfg)%Z); [destruct H; discriminate|].
  destruct (wait _ (last st) (clock st) url) as [[last' woke]|].
  2: { destruct H as [H|H]; [discriminate|]. injection H as <-. by split. }
  destruct (client_get env url) as [r|].
  2: { destruct H as [H|H]; [|discriminate]. injection H as <-. by split. }
  destruct (if is_html (media_type r) url then _ else _) as [qs sn].
  destruct (is_pdf (media_type r) url || is_html (media_type r) url).
  - destruct (_save_blob _ _ _ _ _ _ _) as [fs [path|]];
      destruct H as [H|H]; try discriminate; injection H as <-; by split.
  - destruct H as [H|H]; [|discriminate]. injection H as <-. by split.
Qed.

Lemma crawl_robots_off env cfg seeds d fuel o :
  obey_robots_txt cfg = false ->
  crawl fuel env cfg seeds d = Some o ->
  robots (final o) = RobotsCache_init.
Proof.
  intros Hoff. unfold crawl. destruct (start env cfg seeds d) as [st|] eqn:Hst.
  - intros Hrun.
    apply (loop_invariant env cfg (fun s => robots s = RobotsCache_init))
      with (fuel := fuel) (st := st); [| | |exact Hrun].
    + intros s s' HP Hs. destruct (step_robots_off env cfg s s' Hoff) as [-> _]; auto.
    + intros s s' HP Hs. destruct (step_robots_off env cfg s s' Hoff) as [-> _]; auto.
    + by apply CapFacts.start_fresh in Hst as (_ & _ & _ & _ & _ & -> & _).
  - by intros [= <-].
Qed.

End IdleFacts.

(* ===================================================================== *)
(** ** The PDF scripts *)
(* ===================================================================== *)

Module PdfFacts.
Import Str Url Crawl StrFacts PdfScripts PdfProps.

Lemma lower_app_inv u a b :
  lower u = a +:+ b -> exists x y, u = x +:+ y /\ lower x = a /\ lower y = b.
Proof.
  revert u. induction a as [|c a IH]; intros u H.
  - exists "", u. by rewrite app_nil_l in *.
  - destruct u as [|d u]; [discriminate H|]. rewrite app_cons in H. cbn [lower] in H.
    injection H as Hc H. apply IH in H as (x & y & -> & <- & <-).
    exists (String d x), y. rewrite app_cons. cbn [lower]. by rewrite Hc.
Qed.

(** [looks_pdf] holds exactly when [.pdf], in any letter case, stands at the
    end of the text, before a final newline or before a question mark. *)
Lemma looks_pdf_iff u :
  looks_pdf u = true <->
  exists pre ext rest,
    u = pre +:+ ext +:+ rest /\ lower ext = ".pdf" /\ at_dollar_or_query rest = true.
Proof.
  split.
  - induction u as [|c u IH]; intros H.
    + vm_compute in H. discriminate H.
    + cbn [looks_pdf] in H. apply orb_true_iff in H as [H|H].
      * apply andb_true_iff in H as [He Hr]. apply String.eqb_eq in He.
        exists "", (take 4 (String c u)), (drop 4 (String c u)).
        rewrite app_nil_l, take_drop. auto.
      * apply IH in H as (pre & ext & rest & -> & He & Hr).
        exists (String c pre), ext, rest. by rewrite app_cons.
  - intros (pre & ext & rest & -> & He & Hr).
    assert (Hl : String.length ext = 4%nat) by (by rewrite <- length_lower, He).
    assert (Hhere : String.eqb (lower (take 4 (ext +:+ rest))) ".pdf"
                    && at_dollar_or_query (drop 4 (ext +:+ rest)) = true).
    { rewrite <- Hl, take_app, drop_app, He, Hr. reflexivity. }
    induction pre as [|c pre IH].
    + rewrite app_nil_l. destruct (ext +:+ rest) eqn:E; cbn [looks_pdf]; by rewrite Hhere.
    + rewrite app_cons. cbn [looks_pdf]. rewrite IH. apply orb_true_r.
Qed.

(** A URL that ends in [.pdf], in any letter case, looks like a PDF. *)
Lemma endswith_pdf_looks_pdf u : endswith ".pdf" (lower u) = true -> looks_pdf u = true.
Proof.
  intros H. apply endswith_iff in H as [pre H].
  apply lower_app_inv in H as (x & y & -> & _ & Hy).
  apply looks_pdf_iff. exists x, y, "". by rewrite app_empty_r.
Qed.

(** What the loop of [crawl.py] takes for a PDF, the scripts take for one. *)
Lemma is_pdf_worker_is_pdf ct u : is_pdf ct u = true -> worker_is_pdf ct u = true.
Proof.
  unfold is_pdf, worker_is_pdf. intros H. apply orb_true_iff in H as [H|H].
  - unfold mem, PDF_CT in H. simpl in H. rewrite orb_false_r in H.
    apply String.eqb_eq in H as ->. reflexivity.
  - rewrite (endswith_pdf_looks_pdf _ H). apply orb_true_r.
Qed.

Lemma sanitize_safe name : all_chars is_safe (sanitize name) = true.
Proof.
  induction name as [|c name IH]; [reflexivity|]. cbn [sanitize all_chars].
  rewrite IH, andb_true_r. fold (is_safe c). by destruct (is_safe c) eqn:Hc.
Qed.

Lemma all_chars_app p a b : all_chars p (a +:+ b) = all_chars p a && all_chars p b.
Proof.
  induction a as [|c a IH]; [by rewrite app_nil_l|].
  rewrite app_cons. cbn [all_chars]. by rewrite IH, andb_assoc.
Qed.

Lemma endswith_app suf pre : endswith suf (pre +:+ suf) = true.
Proof. apply endswith_iff. by exists pre. Qed.

(** The two paths of a download: the file name is made of safe characters
    and ends in [.pdf]; the sidecar is a different file. *)
Lemma target_paths_spec env out url pdf_path meta_path :
  target_paths_for env out url = Some (pdf_path, meta_path) ->
  exists name,
    pdf_path = out +:+ "/" +:+ sha16 env url +:+ "_" +:+ name /\
    meta_path = out +:+ "/" +:+ sha16 env url +:+ ".meta.json" /\
    all_chars is_safe name = true /\
    endswith ".pdf" (lower name) = true /\
    pdf_path <> meta_path.
Proof.
  unfold target_paths_for. destruct (urlparse url) as [parsed|]; [|discriminate].
  cbn [mbind option_bind].
  set (name1 := sanitize (if truthy (basename (path parsed)) then basename (path parsed)
                          else sha16 env url +:+ ".pdf")).
  intros [= <- <-].
  exists (if endswith ".pdf" (lower name1) then name1 else name1 +:+ ".pdf").
  split; [reflexivity|]. split; [reflexivity|]. split; [|split].
  - destruct (endswith ".pdf" (lower name1)); [apply sanitize_safe|].
    rewrite all_chars_app. unfold name1. by rewrite sanitize_safe.
  - destruct (endswith ".pdf" (lower name1)) eqn:He; [exact He|].
    rewrite lower_app. apply endswith_app.
  - intros H. do 3 apply app_inj_l in H. discriminate H.
Qed.

Lemma fetch_step env k url :
  fetch env (S k) url =
    match http_get env url with
    | Some (status, ct, body) =>
        if (status =? 200)%Z then (Some (ct, body), 1%nat)
        else let '(r, n) := fetch env k url in (r, S n)
    | None => let '(r, n) := fetch env k url in (r, S n)
    end.
Proof.
  cbn [fetch]. destruct (http_get env url) as [[[status ct] body]|]; [|reflexivity].
  destruct (Z.eqb_spec status 200) as [->|Hne]; [reflexivity|].
  destruct status as [|p|p]; try reflexivity.
  do 8 (try (destruct p as [p|p|]; try reflexivity)).
  exfalso. by apply Hne.
Qed.

(** When the first GET does not answer 200, no later one does: every try
    is used up and nothing is returned. *)
Lemma fetch_none env tries url :
  (forall ct body, http_get env url <> Some (200%Z, ct, body)) ->
  fetch env tries url = (None, tries).
Proof.
  intros Hno. induction tries as [|k IH]; [reflexivity|].
  rewrite fetch_step, IH. destruct (http_get env url) as [[[status ct] body]|] eqn:Hg;
    [|reflexivity].
  destruct (Z.eqb_spec status 200) as [->|Hne]; [|reflexivity].
  exfalso. by eapply Hno.
Qed.

(** [fetch] answers exactly when the GET answers 200, after one GET;
    otherwise it gives up after [tries] GETs. *)
Lemma fetch_spec env tries url :
  match http_get env url with
  | Some (200%Z, ct, body) =>
      fetch env (S tries) url = (Some (ct, body), 1%nat)
  | _ => fetch env tries url = (None, tries)
  end.
Proof.
  destruct (http_get env url) as [[[status ct] body]|] eqn:Hg.
  - destruct (Z.eqb_spec status 200) as [->|Hne].
    + by rewrite fetch_step, Hg.
    + assert (Hnone : fetch env tries url = (None, tries)).
      { apply fetch_none. intros ct' body'. rewrite Hg. congruence. }
      destruct status as [|p|p]; try exact Hnone.
      do 8 (try (destruct p as [p|p|]; try exact Hnone)).
      exfalso. by apply Hne.
  - apply fetch_none. intros ct' body'. by rewrite Hg.
Qed.

Lemma fetch_some env tries url ct body n :
  fetch env tries url = (Some (ct, body), n) ->
  http_get env url = Some (200%Z, ct, body) /\ n = 1%nat.
Proof.
  intros H. destruct tries as [|k]; [discriminate H|].
  rewrite fetch_step in H.
  destruct (http_get env url) as [[[status ct0] body0]|] eqn:Hg.
  - destruct (Z.eqb_spec status 200) as [->|Hne]; [by injection H as <- <- <-|].
    rewrite fetch_none in H; [discriminate H|].
    intros ct' body'. rewrite Hg. congruence.
  - rewrite fetch_none in H; [discriminate H|]. intros ct' body'. by rewrite Hg.
Qed.

Lemma fetch_count env tries url r n : fetch env tries url = (r, n) -> (n <= tries)%nat.
Proof.
  destruct r as [[ct body]|].
  - intros H. destruct tries; [discriminate H|]. apply fetch_some in H as [_ ->]. lia.
  - intros H. destruct (http_get env url) as [[[status ct] body]|] eqn:Hg.
    + destruct (Z.eqb_spec status 200) as [->|Hne].
      * destruct tries; [injection H as <-; lia|]. rewrite fetch_step, Hg in H. discriminate H.
      * rewrite fetch_none in H; [injection H as <-; lia|].
        intros ct' body'. rewrite Hg. congruence.
    + rewrite fetch_none in H; [injection H as <-; lia|]. intros ct' body'. by rewrite Hg.
Qed.

(** A download that reports success has left both files, and from then on
    the same URL is answered from the store without a request, as long as
    the PDF is not empty. *)
Lemma download_one_resumes env out now fs url r fs' n :
  download_one env out now fs url = (r, fs', n) ->
  d_ok r = true ->
  (n <= RETRIES)%nat /\
  exists pdf_path meta_path,
    target_paths_for env out url = Some (pdf_path, meta_path) /\
    r = mkResult url pdf_path true (d_size r) /\
    file_size fs' pdf_path = Some (d_size r) /\
    is_Some (fs' !! meta_path) /\
    ((0 < d_size r)%nat ->
     forall now', download_one env out now' fs' url = (r, fs', O)).
Proof.
  unfold download_one.
  destruct (target_paths_for env out url) as [[pdf_path meta_path]|] eqn:Ht;
    [|intros [= <- _ _]; discriminate].
  pose proof (target_paths_spec _ _ _ _ _ Ht) as (name & _ & _ & _ & _ & Hne).
  destruct (already_saved fs pdf_path meta_path) eqn:Hsaved.
  - intros [= <- <- <-] _. split; [lia|]. exists pdf_path, meta_path.
    unfold already_saved in Hsaved.
    destruct (file_size fs pdf_path) as [sz|] eqn:Hsz; [|discriminate].
    destruct (fs !! meta_path) as [m|] eqn:Hm; [|discriminate].
    cbn [d_size default]. repeat split; eauto.
    intros _ now'. unfold already_saved. by rewrite Hsz, Hm, Hsaved.
  - destruct (fetch env RETRIES url) as [[[ctype body]|] m] eqn:Hf;
      [|intros [= <- _ _]; discriminate].
    apply fetch_count in Hf.
    destruct (negb (contains "pdf" ctype) && negb (looks_pdf url));
      [intros [= <- _ _]; discriminate|].
    destruct (negb (write_ok env pdf_path)); [intros [= <- _ _]; discriminate|].
    destruct (write_ok env meta_path); [|intros [= <- _ _]; discriminate].
    intros [= <- <- <-] _. split; [exact Hf|]. exists pdf_path, meta_path.
    cbn [d_size].
    assert (Hsz : file_size
                    (<[meta_path := Sidecar url "application/pdf" pdf_path now]>
                       (<[pdf_path := Blob body]> fs)) pdf_path
                  = Some (String.length body)).
    { unfold file_size. rewrite lookup_insert_ne by (by intros ->).
      by rewrite lookup_insert_eq. }
    repeat split; auto.
    + rewrite lookup_insert_eq. eauto.
    + intros Hpos now'. unfold already_saved. rewrite Hsz, lookup_insert_eq.
      apply Nat.ltb_lt in Hpos. by rewrite Hpos.
Qed.

(** The block of [worker] that saves a PDF: the count goes up exactly when
    both writes went through, and then both files can be read back. *)
Lemma worker_save_spec env out now fs n u body fs' n' :
  worker_save env out now fs n u body = (fs', n') ->
  let pdf_path := out +:+ "/" +:+ sha16 env u +:+ ".pdf" in
  let meta_path := out +:+ "/" +:+ sha16 env u +:+ ".meta.json" in
  (n' = (n + 1)%Z /\
   fs' !! pdf_path = Some (Blob body) /\
   fs' !! meta_path = Some (Sidecar u "application/pdf" pdf_path now) /\
   forall p, p <> pdf_path -> p <> meta_path -> fs' !! p = fs !! p)
  \/
  (n' = n /\ (fs' = fs \/ fs' = <[pdf_path := Blob body]> fs)).
Proof.
  unfold worker_save. cbv zeta.
  assert (Hne : out +:+ "/" +:+ sha16 env u +:+ ".pdf"
                <> out +:+ "/" +:+ sha16 env u +:+ ".meta.json").
  { intros H. do 3 apply app_inj_l in H. discriminate H. }
  destruct (write_ok env _); [|intros [= <- <-]; right; auto].
  destruct (write_ok env _); intros [= <- <-]; [left|right; auto].
  split; [reflexivity|]. split; [|split].
  - rewrite lookup_insert_ne by (by apply not_eq_sym). apply lookup_insert_eq.
  - apply lookup_insert_eq.
  - intros p Hp Hm. rewrite lookup_insert_ne by (by apply not_eq_sym).
    by rewrite lookup_insert_ne by (by apply not_eq_sym).
Qed.

End PdfFacts.

(* ===================================================================== *)
(** ** Reading the sidecar back *)
(* ===================================================================== *)

Module ParseFacts.
Import Str Url Crawl StrFacts StoreProps StoreFacts Parse.

Lemma rpartition_last sep a b :
  has_char sep b = false -> rpartition sep (a +:+ String sep b) = Some (a, b).
Proof.
  intros Hb.
  assert (Hnone : rpartition sep b = None).
  { induction b as [|c b IH]; [reflexivity|]. simpl in Hb.
    apply orb_false_iff in Hb as [Hc Hb]. cbn [rpartition]. by rewrite (IH Hb), Hc. }
  induction a as [|c a IH].
  - rewrite app_nil_l. cbn [rpartition]. by rewrite Hnone, Ascii.eqb_refl.
  - rewrite app_cons. cbn [rpartition]. by rewrite IH.
Qed.

(** Beside [stem.pdf] and [stem.html], [with_suffix] names [stem.meta.json],
    when the stem is a non-empty name without a slash. *)
Lemma with_suffix_meta dir h kind :
  (kind = "pdf" \/ kind = "html") ->
  truthy h = true -> has_char "/" h = false ->
  with_suffix (dir +:+ "/" +:+ h +:+ ext_of kind) ".meta.json"
    = Some (dir +:+ "/" +:+ h +:+ ".meta.json").
Proof.
  intros Hk Ht Hs. unfold with_suffix.
  assert (Hname : has_char "/" (h +:+ ext_of kind) = false).
  { rewrite has_char_app, Hs. by destruct Hk as [-> | ->]. }
  change (dir +:+ "/" +:+ h +:+ ext_of kind)
    with (dir +:+ String "/" (h +:+ ext_of kind)).
  rewrite (rpartition_last _ _ _ Hname).
  assert (Htn : truthy (h +:+ ext_of kind) = true) by (by destruct h).
  rewrite Htn. cbn [negb].
  assert (Hsuf : suffix (h +:+ ext_of kind) = ext_of kind).
  { unfold suffix. destruct Hk as [-> | ->].
    - change (h +:+ ext_of "pdf") with (h +:+ String "." "pdf").
      rewrite rpartition_last by reflexivity. by rewrite Ht.
    - change (h +:+ ext_of "html") with (h +:+ String "." "html").
      rewrite rpartition_last by reflexivity. by rewrite Ht. }
  rewrite Hsuf.
  assert (Hte : truthy (ext_of kind) = true) by (by destruct Hk as [-> | ->]).
  rewrite Hte, length_app, Nat.add_sub, take_app.
  by rewrite !app_assoc_str.
Qed.

(** [parse.py] finds, beside a blob that [_save_blob] wrote, the sidecar
    with the URL and the content type of that save. *)
Lemma read_meta_after_save env raw now fs url body ct fs' rel :
  _save_blob env raw now fs url body ct = (fs', Some rel) ->
  truthy (sha256_hexdigest env url) = true ->
  all_chars is_hex (sha256_hexdigest env url) = true ->
  _read_meta_for fs' (raw +:+ "/" +:+ rel) = Some (Some (url, ct)).
Proof.
  intros Hsave Ht Hhex. apply save_blob_spec in Hsave as [-> ->]. cbv zeta.
  pose proof (guess_kind_cases url ct) as Hk.
  assert (Hh : truthy (_hash_name env url) = true).
  { unfold _hash_name. by destruct (sha256_hexdigest env url). }
  assert (Hs : has_char "/" (_hash_name env url) = false).
  { unfold _hash_name. apply has_char_take.
    eapply NormFacts.all_chars_excludes; [exact Hhex | reflexivity]. }
  unfold _read_meta_for.
  assert (Hp : raw +:+ "/" +:+ _guess_kind url ct +:+ "/" +:+ _hash_name env url
                 +:+ ext_of (_guess_kind url ct)
               = (raw +:+ "/" +:+ _guess_kind url ct) +:+ "/" +:+ _hash_name env url
                 +:+ ext_of (_guess_kind url ct)) by (by rewrite !app_assoc_str).
  rewrite Hp, (with_suffix_meta _ _ _ Hk Hh Hs). cbn [mbind option_bind].
  rewrite !app_assoc_str. by rewrite lookup_insert_eq.
Qed.

End ParseFacts.

(* ===================================================================== *)
(** ** The host test of the sitemap script *)
(* ===================================================================== *)

Module HostFacts.
Import Str Url Crawl StrFacts PolicyProps DomainFacts SitemapScript.

Lemma lower_lower s : lower (lower s) = lower s.
Proof.
  induction s as [|c s IH]; [reflexivity|]. cbn [lower]. rewrite IH. f_equal.
  unfold lower_char. destruct (is_upper c) eqn:Hu; [|by rewrite Hu].
  destruct c as [[] [] [] [] [] [] [] []]; try discriminate Hu; reflexivity.
Qed.

(** What the sitemap script accepts, the domain policy of [crawl.py] accepts
    for the same list with subdomains on. *)
Lemma is_allowed_host_domain_allowed u :
  is_allowed_host u = true -> _domain_allowed u ALLOWED true = Some true.
Proof.
  unfold is_allowed_host. destruct (urlparse u) as [p|] eqn:Hp; [|discriminate].
  destruct (hostname p) as [h|] eqn:Hh; [|discriminate]. cbn [or_empty].
  intros H. apply domain_allowed_iff. exists p, h. split; [exact Hp|]. split; [exact Hh|].
  apply orb_true_iff in H as [H|H].
  - apply existsb_exists in H as (d & Hin & Heq). apply String.eqb_eq in Heq as ->.
    exists d. split; [exact Hin|]. left.
    destruct Hin as [<-|[<-|[]]]; reflexivity.
  - apply existsb_exists in H as (d & Hin & He). apply endswith_iff in He as [pre ->].
    exists d. split; [exact Hin|]. right. split; [reflexivity|].
    exists (lower pre). rewrite !lower_app.
    destruct Hin as [<-|[<-|[]]]; reflexivity.
Qed.

End HostFacts.

(* ===================================================================== *)
(** ** The sitemap walk *)
(* ===================================================================== *)

Module GatherFacts.
Import Str Url Crawl PdfScripts SitemapScript Gather GatherProps StrFacts DiscoverFacts.

Lemma keep_pdfs_spec pages found found' :
  keep_pdfs pages found = Some found' ->
  (forall u, In u found' -> In u found \/ wanted u) /\
  (forall u, In u found -> In u found') /\
  (NoDup found -> NoDup found').
Proof.
  revert found. induction pages as [|p pages IH]; intros found H; cbn [keep_pdfs] in H.
  - injection H as <-. auto.
  - destruct (normalize_url p) as [u'|] eqn:Hn; [|discriminate].
    cbn [mbind option_bind] in H. apply IH in H as (Hin & Hkeep & Hnd).
    destruct (is_allowed_host u' && looks_pdf u') eqn:Hok; [|auto].
    destruct (set_update_spec found [u']) as [Hset Hsnd].
    apply andb_true_iff in Hok as [Ha Hl]. repeat split.
    + intros u Hu. apply Hin in Hu as [Hu|?]; [|by right].
      apply Hset in Hu as [?|[<-|[]]]; [by left|right].
      repeat split; auto. eapply NormFacts.urldefrag_no_hash. exact Hn.
    + intros u Hu. apply Hkeep, Hset. by left.
    + auto.
Qed.

(** When the loop ends, [found] holds only wanted URLs beyond what it held,
    and no sitemap was taken twice. *)
Lemma gather_loop_sound env web fuel to_visit seen_maps found f s :
  gather_loop fuel env web to_visit seen_maps found = Some (Found f s) ->
  (forall u, In u found -> wanted u) -> NoDup found -> NoDup seen_maps ->
  (forall u, In u f -> wanted u) /\ NoDup f /\ NoDup s.
Proof.
  revert to_visit seen_maps found.
  induction fuel as [|k IH]; intros to_visit seen_maps found H Hw Hnf Hns;
    destruct to_visit as [|sm rest]; cbn [gather_loop] in H;
    try discriminate H; try (injection H as <- <-; by auto).
  destruct (mem sm seen_maps) eqn:Hm; [by eapply IH; eauto|].
  assert (Hns' : NoDup (seen_maps ++ [sm])).
  { apply NoDup_app. split; [exact Hns|]. split; [|apply NoDup_singleton].
    intros y Hy Hx. apply list_elem_of_In in Hx as [<-|[]].
    apply list_elem_of_In, mem_In in Hy. congruence. }
  destruct (fetch env RETRIES sm) as [[[ct body]|] n]; [|by eapply IH; eauto].
  destruct (negb (truthy body)); [by eapply IH; eauto|].
  destruct (keep_pdfs _ found) as [found'|] eqn:Hk; [|discriminate H].
  apply keep_pdfs_spec in Hk as (Hin & _ & Hnd).
  eapply IH; [exact H| | |exact Hns']; [|by auto].
  intros u Hu. apply Hin in Hu as [?|?]; auto.
Qed.

Lemma filter_length_lt {A} (f g : A -> bool) (l : list A) x :
  (forall y, f y = true -> g y = true) ->
  In x l -> g x = true -> f x = false ->
  (length (List.filter f l) < length (List.filter g l))%nat.
Proof.
  intros Hfg. assert (Hle : forall l', (length (List.filter f l') <= length (List.filter g l'))%nat).
  { induction l' as [|y l' IH]; simpl; [lia|].
    destruct (f y) eqn:Hf; [rewrite (Hfg y Hf); simpl; lia|].
    destruct (g y); simpl; lia. }
  induction l as [|y l IH]; intros Hin Hg Hf; [destruct Hin|]. simpl.
  destruct Hin as [->|Hin].
  - rewrite Hf, Hg. simpl. specialize (Hle l). lia.
  - specialize (IH Hin Hg Hf). destruct (f y) eqn:Hfy; [rewrite (Hfg y Hfy); simpl; lia|].
    destruct (g y); simpl; lia.
Qed.

Lemma unseen_less U seen_maps sm :
  In sm U -> mem sm seen_maps = false ->
  (unseen U (seen_maps ++ [sm]) < unseen U seen_maps)%nat.
Proof.
  intros Hin Hm. unfold unseen. apply filter_length_lt with (x := sm); auto.
  - intros y Hy. apply negb_true_iff in Hy. apply negb_true_iff.
    apply not_true_is_false. intros Hy'. apply mem_In in Hy'.
    assert (Hc : mem y (seen_maps ++ [sm]) = true) by (apply mem_In, in_or_app; by left).
    congruence.
  - by rewrite Hm.
  - apply negb_false_iff, mem_In, in_or_app. right. by left.
Qed.

(** The loop ends when the sitemaps that can be reached are finitely many,
    whatever they name, each other included. *)
Lemma gather_loop_terminates env web U :
  closed env web U ->
  forall to_visit seen_maps found,
    (forall sm, In sm to_visit -> In sm U) ->
    exists fuel r, gather_loop fuel env web to_visit seen_maps found = Some r.
Proof.
  intros Hclosed.
  assert (Hn : forall n to_visit seen_maps found,
             (unseen U seen_maps < n)%nat ->
             (forall sm, In sm to_visit -> In sm U) ->
             exists fuel r, gather_loop fuel env web to_visit seen_maps found = Some r).
  { induction n as [|n IHn]; intros to_visit seen_maps found Hlt Hsub; [lia|].
    revert found Hsub. induction to_visit as [|sm rest IHr]; intros found Hsub.
    - exists O. eexists. reflexivity.
    - assert (Hrest : forall x, In x rest -> In x U) by (intros x Hx; apply Hsub; by right).
      destruct (mem sm seen_maps) eqn:Hm.
      + destruct (IHr found Hrest) as (fuel & r & Hrun).
        exists (S fuel), r. cbn [gather_loop]. by rewrite Hm.
      + assert (Hlt' : (unseen U (seen_maps ++ [sm]) < n)%nat).
        { pose proof (unseen_less U seen_maps sm (Hsub sm (or_introl eq_refl)) Hm). lia. }
        pose proof (Hclosed sm) as Hcl. unfold nested_of in Hcl.
        destruct (fetch env RETRIES sm) as [[[ct body]|] m] eqn:Hf.
        * destruct (truthy body) eqn:Hb.
          -- destruct (keep_pdfs
                         (List.filter (fun u => negb (endswith ".xml" u))
                            (parse_sitemap web body)) found) as [found'|] eqn:Hk.
             ++ destruct (IHn (List.rev (List.filter (endswith ".xml") (parse_sitemap web body))
                               ++ rest) (seen_maps ++ [sm]) found' Hlt')
                  as (fuel & r & Hrun).
                { intros x Hx. apply in_app_or in Hx as [Hx|Hx]; [|by apply Hrest].
                  apply in_rev in Hx. apply Hcl; [apply Hsub; by left | exact Hx]. }
                exists (S fuel), r. cbn [gather_loop]. by rewrite Hm, Hf, Hb, Hk.
             ++ exists 1%nat, Failed. cbn [gather_loop]. by rewrite Hm, Hf, Hb, Hk.
          -- destruct (IHn rest (seen_maps ++ [sm]) found Hlt' Hrest) as (fuel & r & Hrun).
             exists (S fuel), r. cbn [gather_loop]. by rewrite Hm, Hf, Hb.
        * destruct (IHn rest (seen_maps ++ [sm]) found Hlt' Hrest) as (fuel & r & Hrun).
          exists (S fuel), r. cbn [gather_loop]. by rewrite Hm, Hf. }
  intros to_visit seen_maps found Hsub.
  apply (Hn (S (unseen U seen_maps))); [lia | exact Hsub].
Qed.

End GatherFacts.

(* ===================================================================== *)
(** ** Further properties of the crawler and of the scripts *)
(* ===================================================================== *)

(** X1. What [_norm_url] returns never holds a fragment mark [#] and always
    starts with [http]. *)
Theorem norm_url_result_has_no_fragment base href out :
  _norm_url base href = Some out ->
  has_char "#" out = false /\ startswith "http" out = true.
Proof. apply NormFacts.norm_url_shape. Qed.

Lemma norm_url_result_has_no_fragment_witness :
  _norm_url Site.home "/a#x" = Some Site.page_a /\
  has_char "#" Site.page_a = false /\ startswith "http" Site.page_a = true.
Proof.
  assert (H : _norm_url Site.home "/a#x" = Some Site.page_a) by (vm_compute; reflexivity).
  split; [exact H|]. exact (norm_url_result_has_no_fragment _ _ _ H).
Defined.

(** X2. [_domain_allowed] accepts a URL exactly when it parses, has a host
    name and, lower-cased, that name is an entry of the allow-list (itself
    lower-cased and without leading dots) or, with subdomains on, ends in a
    dot followed by such an entry. *)
Theorem domain_allowed_characterised url allow sub :
  _domain_allowed url allow sub = Some true <->
  exists p h, urlparse url = Some p /\ hostname p = Some h /\
              exists dom, In dom allow /\ PolicyProps.entry_accepts (lower h) sub dom.
Proof. apply DomainFacts.domain_allowed_iff. Qed.

Lemma domain_allowed_characterised_witness :
  exists p h, urlparse "http://WWW.Example.org/x" = Some p /\ hostname p = Some h /\
              exists dom, In dom [".Example.ORG"] /\
                          PolicyProps.entry_accepts (lower h) true dom.
Proof.
  apply (proj1 (domain_allowed_characterised "http://WWW.Example.org/x" [".Example.ORG"] true)).
  vm_compute. reflexivity.
Defined.

(** X3. A URL the domain policy accepts stays accepted when the allow-list
    grows and when subdomains are turned on. *)
Theorem domain_allowed_survives_widening url allow sub allow' sub' :
  _domain_allowed url allow sub = Some true ->
  (forall dom, In dom allow -> In dom allow') ->
  (sub = true -> sub' = true) ->
  _domain_allowed url allow' sub' = Some true.
Proof. apply DomainFacts.domain_allowed_widen. Qed.

Lemma domain_allowed_survives_widening_witness :
  _domain_allowed Site.home ["other.org"; "example.org"] true = Some true.
Proof.
  apply (domain_allowed_survives_widening Site.home ["example.org"] false).
  - vm_compute. reflexivity.
  - intros dom [<-|[]]. right. left. reflexivity.
  - discriminate.
Defined.

(** X4. Every URL a crawl fetches, and every URL it leaves in the queue, was
    accepted by the domain policy of its configuration. *)
Theorem crawl_fetches_only_allowed_urls env cfg seeds d fuel o :
  crawl fuel env cfg seeds d = Some o ->
  (forall u t, In (u, t) (requests (final o)) ->
     _domain_allowed u (allow_domains cfg) (include_subdomains cfg) = Some true) /\
  (forall u, In u (q (final o)) ->
     _domain_allowed u (allow_domains cfg) (include_subdomains cfg) = Some true).
Proof.
  intros H. destruct (VisitFacts.crawl_within_policy _ _ _ _ _ _ H) as [Hq Hr].
  split; [exact Hr | exact Hq].
Qed.

Lemma crawl_fetches_only_allowed_urls_witness :
  exists o,
    crawl 20 Site.env (Site.config 3) [Site.home] Site.empty_disk = Some o /\
    length (requests (final o)) = 3%nat /\
    (forall u t, In (u, t) (requests (final o)) ->
       _domain_allowed u ["example.org"] true = Some true).
Proof.
  assert (H : option_map report
                (crawl 20 Site.env (Site.config 3) [Site.home] Site.empty_disk)
              = Some Site.capped_report) by (vm_compute; reflexivity).
  destruct (crawl 20 Site.env (Site.config 3) [Site.home] Site.empty_disk) as [o|] eqn:Hrun;
    [|discriminate H].
  exists o. split; [reflexivity|]. split.
  - assert (Hf : fetches (report o) = fetches Site.capped_report)
      by (cbn [option_map] in H; congruence).
    apply (f_equal (@length _)) in Hf. cbn [report fetches] in Hf.
    rewrite length_rev in Hf. exact Hf.
  - exact (proj1 (crawl_fetches_only_allowed_urls _ _ _ _ _ _ Hrun)).
Defined.

(** X5. A crawl whose starting queue holds no URL twice fetches no URL
    twice, and never fetches a URL that is still queued; in particular a
    crawl without sitemaps from seeds that are all different fetches no URL
    twice. *)
Theorem no_url_fetched_twice :
  (forall env cfg seeds d st0 fuel o,
     start env cfg seeds d = Some st0 -> NoDup (q st0) ->
     crawl fuel env cfg seeds d = Some o ->
     NoDup (map fst (requests (final o)) ++ q (final o))) /\
  (forall env cfg seeds d fuel o,
     use_sitemaps cfg = false -> NoDup seeds ->
     crawl fuel env cfg seeds d = Some o ->
     NoDup (map fst (requests (final o)))).
Proof.
  assert (H1 : forall env cfg seeds d st0 fuel o,
             start env cfg seeds d = Some st0 -> NoDup (q st0) ->
             crawl fuel env cfg seeds d = Some o ->
             NoDup (map fst (requests (final o)) ++ q (final o))).
  { intros env cfg seeds d st0 fuel o Hst Hnd Hrun. unfold crawl in Hrun. rewrite Hst in Hrun.
    apply (OnceFacts.loop_visited_once env cfg fuel st0 o); [|exact Hrun].
    eapply OnceFacts.start_visited_once; eauto. }
  split; [exact H1|].
  intros env cfg seeds d fuel o Hu Hnd Hrun.
  destruct (start env cfg seeds d) as [st0|] eqn:Hst.
  - assert (Hq : NoDup (q st0)).
    { pose proof (OnceFacts.start_queue_no_sitemaps _ _ _ _ _ Hu Hst) as Hsn.
      apply OnceFacts.seeds_n_sublist in Hsn. eapply sublist_NoDup; eauto. }
    specialize (H1 _ _ _ _ _ _ _ Hst Hq Hrun). by apply NoDup_app in H1 as [? _].
  - unfold crawl in Hrun. rewrite Hst in Hrun. injection Hrun as <-. constructor.
Qed.

Lemma no_url_fetched_twice_witness :
  exists o,
    crawl 20 Site.env (Site.config 1000) [Site.home; Site.page_a] Site.empty_disk = Some o /\
    NoDup (map fst (requests (final o))).
Proof.
  assert (Hc : exists o', crawl 20 Site.env (Site.config 1000) [Site.home; Site.page_a]
                            Site.empty_disk = Some o').
  { assert (H : is_Some (option_map report
                (crawl 20 Site.env (Site.config 1000) [Site.home; Site.page_a]
                   Site.empty_disk))) by (vm_compute; eauto).
    destruct (crawl 20 Site.env (Site.config 1000) [Site.home; Site.page_a]
                Site.empty_disk) as [o'|]; [eauto|]. by destruct H. }
  destruct Hc as [o' Hc]. exists o'. split; [exact Hc|].
  apply (proj2 no_url_fetched_twice Site.env (Site.config 1000) [Site.home; Site.page_a]
           Site.empty_disk 20 o'); [reflexivity| |exact Hc].
  apply NoDup_cons. split; [|apply NoDup_singleton].
  intros Hin. apply list_elem_of_In in Hin as [Hin|[]]. discriminate Hin.
Defined.

(** X6. [RobotsCache.allowed] asks for the robots.txt of a netloc once:
    asked again about the same URL it gives the same answer and leaves the
    cache as it is, and a question about any URL of the same netloc is
    answered from the cached rules. *)
Theorem robots_txt_asked_once_per_netloc env rc url b rc' :
  allowed env rc url = Some (b, rc') ->
  allowed env rc' url = Some (b, rc') /\
  forall url2,
    is_Some (netloc_of url2) -> netloc_of url2 = netloc_of url ->
    exists lines,
      cache rc' !! default "" (netloc_of url) = Some lines /\
      allowed env rc' url2 = Some (robots_can_fetch env lines USER_AGENT url2, rc').
Proof.
  intros H. split; [exact (CacheFacts.allowed_again _ _ _ _ _ H)|].
  intros url2 Hs Hn. eapply CacheFacts.allowed_same_netloc; eauto.
Qed.

Lemma robots_txt_asked_once_per_netloc_witness :
  exists rc',
    allowed Site.env RobotsCache_init Site.home = Some (true, rc') /\
    allowed Site.env rc' Site.home = Some (true, rc') /\
    allowed Site.env rc' Site.page_d = Some (false, rc').
Proof.
  assert (H : option_map fst (allowed Site.env RobotsCache_init Site.home) = Some true)
    by (vm_compute; reflexivity).
  destruct (allowed Site.env RobotsCache_init Site.home) as [[b rc']|] eqn:Ha;
    [|discriminate H].
  injection H as ->. exists rc'. split; [reflexivity|].
  destruct (robots_txt_asked_once_per_netloc _ _ _ _ _ Ha) as [Hagain Hsame].
  split; [exact Hagain|].
  destruct (Hsame Site.page_d) as (lines & Hl & Hd).
  - vm_compute. eauto.
  - vm_compute. reflexivity.
  - rewrite Hd. f_equal. f_equal.
    assert (Hc : cache rc' !! "example.org" = Some ["User-agent: *"; "Disallow: /private"]).
    { revert Ha. unfold allowed. vm_compute. intros [= <-]. reflexivity. }
    change (default "" (netloc_of Site.home)) with "example.org" in Hl.
    rewrite Hc in Hl. injection Hl as <-. vm_compute. reflexivity.
Defined.

(** X7. After the first question about a netloc, [sitemaps_for] gives the
    [Sitemap:] lines of its robots.txt when that answered with a status
    below 400, and nothing new when it answered with 400 or more or the
    request raised. *)
Theorem sitemaps_known_after_first_question env rc url p b rc' :
  urlparse url = Some p ->
  cache rc !! netloc p = None ->
  allowed env rc url = Some (b, rc') ->
  sitemaps_for rc' url =
    Some (match robots_get env (Props.robots_url p) with
          | Some (status, lines) =>
              if (status >=? 400)%Z then default [] (sitemap_urls rc !! netloc p)
              else sitemap_lines lines
          | None => []
          end).
Proof. apply CacheFacts.sitemaps_after_allowed. Qed.

Lemma sitemaps_known_after_first_question_witness :
  exists rc',
    option_map snd (allowed Samples.env_with_sitemap RobotsCache_init Site.home) = Some rc' /\
    sitemaps_for rc' Site.home = Some ["http://example.org/sitemap.xml"].
Proof.
  destruct (allowed Samples.env_with_sitemap RobotsCache_init Site.home) as [[b rc']|] eqn:Ha.
  - exists rc'. split; [reflexivity|].
    assert (Hp : is_Some (urlparse Site.home)) by (vm_compute; eauto).
    destruct Hp as [p Hp].
    rewrite (sitemaps_known_after_first_question _ _ _ p _ _ Hp (lookup_empty _) Ha).
    revert Hp. vm_compute. intros [= <-]. reflexivity.
  - exfalso. revert Ha. vm_compute. discriminate.
Defined.





(** X10. After a [_save_blob] whose two writes went through, the blob is at
    [raw_dir/saved_path], the sidecar with the URL, the content type and
    the same [saved_path] is beside it under [.meta.json], and no other
    file of the store has changed. *)
Theorem save_blob_can_be_read_back env raw now fs url body ct fs' rel :
  _save_blob env raw now fs url body ct = (fs', Some rel) ->
  let meta := raw +:+ "/" +:+ _guess_kind url ct +:+ "/" +:+ _hash_name env url
                +:+ ".meta.json" in
  rel = _guess_kind url ct +:+ "/" +:+ _hash_name env url
          +:+ StoreProps.ext_of (_guess_kind url ct) /\
  fs' !! (raw +:+ "/" +:+ rel) = Some (Blob body) /\
  fs' !! meta = Some (Sidecar url ct rel now) /\
  forall p, p <> raw +:+ "/" +:+ rel -> p <> meta -> fs' !! p = fs !! p.
Proof.
  intros H. split; [exact (proj1 (StoreFacts.save_blob_spec _ _ _ _ _ _ _ _ _ H))|].
  exact (StoreFacts.save_blob_lookup _ _ _ _ _ _ _ _ _ H).
Qed.

Lemma save_blob_can_be_read_back_witness :
  exists fs',
    _save_blob Site.env "data/raw" 0 ∅ "http://example.org/c.pdf" "%PDF-1.7" "application/pdf"
      = (fs', Some "pdf/fdp.c/gro.elpmax.pdf") /\
    fs' !! "data/raw/pdf/fdp.c/gro.elpmax.pdf" = Some (Blob "%PDF-1.7").
Proof.
  assert (H : snd (_save_blob Site.env "data/raw" 0 ∅ "http://example.org/c.pdf" "%PDF-1.7"
                     "application/pdf") = Some "pdf/fdp.c/gro.elpmax.pdf")
    by (vm_compute; reflexivity).
  destruct (_save_blob Site.env "data/raw" 0 ∅ "http://example.org/c.pdf" "%PDF-1.7"
              "application/pdf") as [fs' rel] eqn:Hs.
  cbn [snd] in H. subst rel. exists fs'. split; [reflexivity|].
  exact (proj1 (proj2 (save_blob_can_be_read_back _ _ _ _ _ _ _ _ _ Hs))).
Defined.

(** X11. What the loop of [crawl] takes for a PDF, [_save_blob] files under
    [pdf/] with the extension [.pdf]. *)
Theorem pdf_is_filed_under_pdf env raw now fs url body ct fs' rel :
  is_pdf ct url = true ->
  _save_blob env raw now fs url body ct = (fs', Some rel) ->
  _guess_kind url ct = "pdf" /\ rel = "pdf/" +:+ _hash_name env url +:+ ".pdf".
Proof.
  intros Hp Hs. split; [by apply KindFacts.is_pdf_kind|].
  eapply KindFacts.save_blob_pdf; eauto.
Qed.

Lemma pdf_is_filed_under_pdf_witness :
  _guess_kind "http://example.org/Report.PDF" "application/octet-stream" = "pdf" /\
  snd (_save_blob Site.env "data/raw" 0 ∅ "http://example.org/Report.PDF" "%PDF-1.7"
         "application/octet-stream")
    = Some ("pdf/" +:+ _hash_name Site.env "http://example.org/Report.PDF" +:+ ".pdf").
Proof.
  assert (H : is_Some (snd (_save_blob Site.env "data/raw" 0 ∅ "http://example.org/Report.PDF"
                              "%PDF-1.7" "application/octet-stream")))
    by (vm_compute; eauto).
  destruct (_save_blob Site.env "data/raw" 0 ∅ "http://example.org/Report.PDF" "%PDF-1.7"
              "application/octet-stream") as [fs' [rel|]] eqn:Hs; [|by destruct H].
  assert (Hp : is_pdf "application/octet-stream" "http://example.org/Report.PDF" = true)
    by (vm_compute; reflexivity).
  destruct (pdf_is_filed_under_pdf _ _ _ _ _ _ _ _ _ Hp Hs) as [Hk Hr].
  split; [exact Hk|]. cbn [snd]. by rewrite Hr.
Defined.

(** X12. Over a crawl the manifest and [urls.txt] only grow, by one line
    for each save; [saved] counts these lines; each line belongs to a fetch
    of the crawl and is backed by the store: its blob lies at
    [raw_dir/saved_path] and a sidecar naming the same [saved_path] lies
    beside it. *)
Theorem manifest_lines_are_backed env cfg seeds d fuel o :
  crawl fuel env cfg seeds d = Some o ->
  exists added,
    manifest (disk (final o)) = manifest d ++ added /\
    urls_txt (disk (final o)) = urls_txt d ++ map m_url added /\
    saved (final o) = Z.of_nat (length added) /\
    forall e, In e added ->
      In (m_url e) (map fst (requests (final o))) /\
      StoreProps.stored (raw_dir cfg) (files (disk (final o))) e.
Proof.
  intros H. destruct (ManifestFacts.crawl_manifest_backed _ _ _ _ _ _ H)
    as (added & (Hm & Hu & Hst) & Hs & Hr).
  exists added. repeat split; auto.
Qed.

Lemma manifest_lines_are_backed_witness :
  exists o added,
    crawl 20 Site.env (Site.config 3) [Site.home] Site.empty_disk = Some o /\
    manifest (disk (final o)) = added /\ length added = 3%nat /\
    forall e, In e added ->
      StoreProps.stored "data/raw" (files (disk (final o))) e.
Proof.
  assert (H : option_map report
                (crawl 20 Site.env (Site.config 3) [Site.home] Site.empty_disk)
              = Some Site.capped_report) by (vm_compute; reflexivity).
  destruct (crawl 20 Site.env (Site.config 3) [Site.home] Site.empty_disk) as [o|] eqn:Hrun;
    [|discriminate H].
  destruct (manifest_lines_are_backed _ _ _ _ _ _ Hrun) as (added & Hm & _ & Hs & Hb).
  exists o, added. split; [reflexivity|]. split; [exact Hm|]. split.
  - assert (Hsv : saved_count (report o) = saved_count Site.capped_report)
      by (cbn [option_map] in H; congruence).
    cbn [report saved_count Site.capped_report] in Hsv. rewrite Hs in Hsv. lia.
  - intros e He. exact (proj2 (Hb e He)).
Defined.



(** X14. With [obey_robots_txt] off the loop never asks for a robots.txt:
    the robots cache is still empty when the crawl ends. *)
Theorem robots_off_asks_for_no_robots_txt env cfg seeds d fuel o :
  obey_robots_txt cfg = false ->
  crawl fuel env cfg seeds d = Some o ->
  robots (final o) = RobotsCache_init.
Proof. apply IdleFacts.crawl_robots_off. Qed.

Lemma robots_off_asks_for_no_robots_txt_witness :
  exists o,
    crawl 20 Site.env Samples.config_no_robots [Site.home] Site.empty_disk = Some o /\
    In Site.page_d (map fst (requests (final o))) /\
    robots (final o) = RobotsCache_init.
Proof.
  assert (H : option_map (fun o => mem Site.page_d (map fst (requests (final o))))
                (crawl 20 Site.env Samples.config_no_robots [Site.home] Site.empty_disk)
              = Some true) by (vm_compute; reflexivity).
  destruct (crawl 20 Site.env Samples.config_no_robots [Site.home] Site.empty_disk)
    as [o|] eqn:Hrun; [|discriminate H].
  exists o. split; [reflexivity|]. split.
  - cbn [option_map] in H. injection H as H. by apply DiscoverFacts.mem_In.
  - exact (robots_off_asks_for_no_robots_txt Site.env Samples.config_no_robots _ _ _ _
             eq_refl Hrun).
Defined.

(** X15. [looks_pdf] of the scripts holds exactly when [.pdf], in any letter
    case, stands at the end of the URL, before a final newline, or before a
    question mark. *)
Theorem looks_pdf_characterised u :
  PdfScripts.looks_pdf u = true <->
  exists pre ext rest,
    u = pre +:+ ext +:+ rest /\ lower ext = ".pdf" /\
    PdfScripts.at_dollar_or_query rest = true.
Proof. apply PdfFacts.looks_pdf_iff. Qed.

Lemma looks_pdf_characterised_witness :
  PdfScripts.looks_pdf "http://example.org/Report.PDF?v=2" = true.
Proof.
  apply (proj2 (looks_pdf_characterised "http://example.org/Report.PDF?v=2")).
  exists "http://example.org/Report", ".PDF", "?v=2". repeat split.
Defined.

(** X16. Every response the loop of [crawl.py] takes for a PDF, the test of
    the scripts ([application/pdf] in the content type, or [looks_pdf])
    takes for one too. *)
Theorem scripts_accept_what_crawl_takes_for_pdf ct u :
  is_pdf ct u = true -> PdfScripts.worker_is_pdf ct u = true.
Proof. apply PdfFacts.is_pdf_worker_is_pdf. Qed.

Lemma scripts_accept_what_crawl_takes_for_pdf_witness :
  PdfScripts.worker_is_pdf "text/plain" "http://example.org/Report.PDF" = true.
Proof.
  apply scripts_accept_what_crawl_takes_for_pdf. vm_compute. reflexivity.
Defined.

(** X17. The two paths [target_paths_for] gives lie in the output directory
    and start with the 16 digits of the digest; the name of the PDF is made
    of letters, digits, dots, underscores and hyphens and ends in [.pdf] in
    some letter case; the sidecar is a different file. *)
Theorem target_paths_are_safe_and_distinct env out url pdf_path meta_path :
  PdfScripts.target_paths_for env out url = Some (pdf_path, meta_path) ->
  exists name,
    pdf_path = out +:+ "/" +:+ PdfScripts.sha16 env url +:+ "_" +:+ name /\
    meta_path = out +:+ "/" +:+ PdfScripts.sha16 env url +:+ ".meta.json" /\
    all_chars PdfProps.is_safe name = true /\
    endswith ".pdf" (lower name) = true /\
    pdf_path <> meta_path.
Proof. apply PdfFacts.target_paths_spec. Qed.

Lemma target_paths_are_safe_and_distinct_witness :
  exists name,
    PdfScripts.target_paths_for Site.scripts_env "data/raw" "http://example.org/a b/Jahres Bericht.PDF?x=1"
      = Some ("data/raw/" +:+ PdfScripts.sha16 Site.scripts_env "http://example.org/a b/Jahres Bericht.PDF?x=1"
                +:+ "_" +:+ name,
              "data/raw/" +:+ PdfScripts.sha16 Site.scripts_env "http://example.org/a b/Jahres Bericht.PDF?x=1"
                +:+ ".meta.json") /\
    name = "Jahres_Bericht.PDF".
Proof.
  assert (H : is_Some (PdfScripts.target_paths_for Site.scripts_env "data/raw"
                         "http://example.org/a b/Jahres Bericht.PDF?x=1"))
    by (vm_compute; eauto).
  destruct (PdfScripts.target_paths_for Site.scripts_env "data/raw"
              "http://example.org/a b/Jahres Bericht.PDF?x=1")
    as [[pdf_path meta_path]|] eqn:Ht; [|by destruct H].
  destruct (target_paths_are_safe_and_distinct _ _ _ _ _ Ht) as (name & -> & -> & _).
  exists name. split; [reflexivity|].
  revert Ht. vm_compute. intros [= <-]. reflexivity.
Defined.

(** X18. [fetch] of the sitemap-first script answers only with a response
    whose status is 200, and then after a single GET; when the GET does not
    answer 200 it gives up after exactly as many GETs as it has tries. *)
Theorem fetch_returns_only_status_200 env tries url :
  (forall ct body n,
     PdfScripts.fetch env tries url = (Some (ct, body), n) ->
     PdfScripts.http_get env url = Some (200%Z, ct, body) /\ n = 1%nat) /\
  ((forall ct body, PdfScripts.http_get env url <> Some (200%Z, ct, body)) ->
   PdfScripts.fetch env tries url = (None, tries)).
Proof.
  split.
  - intros ct body n. apply PdfFacts.fetch_some.
  - apply PdfFacts.fetch_none.
Qed.

Lemma fetch_returns_only_status_200_witness :
  PdfScripts.fetch Site.scripts_env PdfScripts.RETRIES Site.page_e = (None, 3%nat).
Proof.
  apply (proj2 (fetch_returns_only_status_200 Site.scripts_env PdfScripts.RETRIES Site.page_e)).
  intros ct body. vm_compute. discriminate.
Defined.

(** X19. A [download_one] that reports success has issued at most [RETRIES]
    GETs and has left the PDF, of the size it reports, and the sidecar; from
    then on, as long as the PDF is not empty, [download_one] of the same URL
    issues no request, leaves the store alone and reports the same. *)
Theorem download_one_is_resumable env out now fs url r fs' n :
  PdfScripts.download_one env out now fs url = (r, fs', n) ->
  PdfScripts.d_ok r = true ->
  (n <= PdfScripts.RETRIES)%nat /\
  exists pdf_path meta_path,
    PdfScripts.target_paths_for env out url = Some (pdf_path, meta_path) /\
    r = PdfScripts.mkResult url pdf_path true (PdfScripts.d_size r) /\
    PdfScripts.file_size fs' pdf_path = Some (PdfScripts.d_size r) /\
    is_Some (fs' !! meta_path) /\
    ((0 < PdfScripts.d_size r)%nat ->
     forall now', PdfScripts.download_one env out now' fs' url = (r, fs', O)).
Proof. apply PdfFacts.download_one_resumes. Qed.

Lemma download_one_is_resumable_witness :
  exists r fs',
    PdfScripts.download_one Site.scripts_env "data/raw" 0%Q ∅ Site.page_c = (r, fs', 1%nat) /\
    PdfScripts.d_size r = 8%nat /\
    PdfScripts.download_one Site.scripts_env "data/raw" 5%Q fs' Site.page_c = (r, fs', O).
Proof.
  assert (H : (fun x => (PdfScripts.d_ok (fst (fst x)), PdfScripts.d_size (fst (fst x)), snd x))
                (PdfScripts.download_one Site.scripts_env "data/raw" 0%Q ∅ Site.page_c)
              = (true, 8%nat, 1%nat)) by (vm_compute; reflexivity).
  destruct (PdfScripts.download_one Site.scripts_env "data/raw" 0%Q ∅ Site.page_c)
    as [[r fs'] n] eqn:Hd.
  cbn [fst snd] in H. injection H as Hok Hsz ->.
  exists r, fs'. split; [reflexivity|]. split; [exact Hsz|].
  destruct (download_one_is_resumable _ _ _ _ _ _ _ _ Hd Hok) as (_ & p & m & _ & _ & _ & _ & Hre).
  apply Hre. rewrite Hsz. lia.
Defined.

(** X20. A URL that [is_allowed_host] of the sitemap-first script accepts is
    accepted by [_domain_allowed] of [crawl.py] for the same two domains
    with subdomains on. *)
Theorem script_hosts_pass_the_domain_policy u :
  SitemapScript.is_allowed_host u = true ->
  _domain_allowed u SitemapScript.ALLOWED true = Some true.
Proof. apply HostFacts.is_allowed_host_domain_allowed. Qed.

Lemma script_hosts_pass_the_domain_policy_witness :
  _domain_allowed "https://www.scnat.ch/a.pdf" SitemapScript.ALLOWED true = Some true.
Proof.
  apply script_hosts_pass_the_domain_policy. vm_compute. reflexivity.
Defined.

(** X21. When the digest of the URL is a non-empty string of hexadecimal
    digits, [_read_meta_for] of [parse.py], given the path of a blob that
    [_save_blob] has just written, finds its sidecar and reads the URL and
    the content type of that save. *)
Theorem parse_finds_the_sidecar_of_a_blob env raw now fs url body ct fs' rel :
  _save_blob env raw now fs url body ct = (fs', Some rel) ->
  truthy (sha256_hexdigest env url) = true ->
  all_chars is_hex (sha256_hexdigest env url) = true ->
  Parse._read_meta_for fs' (raw +:+ "/" +:+ rel) = Some (Some (url, ct)).
Proof. apply ParseFacts.read_meta_after_save. Qed.

Lemma parse_finds_the_sidecar_of_a_blob_witness :
  exists fs',
    _save_blob Samples.env_hex "data/raw" 0 ∅ Site.home "<html>page</html>" "text/html"
      = (fs', Some "html/9f86d081884c7d65.html") /\
    Parse._read_meta_for fs' "data/raw/html/9f86d081884c7d65.html"
      = Some (Some (Site.home, "text/html")).
Proof.
  assert (H : snd (_save_blob Samples.env_hex "data/raw" 0 ∅ Site.home "<html>page</html>"
                     "text/html") = Some "html/9f86d081884c7d65.html")
    by (vm_compute; reflexivity).
  destruct (_save_blob Samples.env_hex "data/raw" 0 ∅ Site.home "<html>page</html>"
              "text/html") as [fs' rel] eqn:Hs.
  cbn [snd] in H. subst rel. exists fs'. split; [reflexivity|].
  apply (parse_finds_the_sidecar_of_a_blob _ _ _ _ _ _ _ _ _ Hs); vm_compute; reflexivity.
Defined.

(** X22. When [gather_from_sitemaps] ends, every URL it has found is of an
    allowed host, looks like a PDF and carries no fragment; it has found no
    URL twice and has taken no sitemap twice. *)
Theorem gather_finds_only_allowed_pdfs fuel env web hosts found seen_maps :
  Gather.gather_from_sitemaps fuel env web hosts = Some (Gather.Found found seen_maps) ->
  (forall u, In u found -> GatherProps.wanted u) /\ NoDup found /\ NoDup seen_maps.
Proof.
  unfold Gather.gather_from_sitemaps. intros H.
  eapply GatherFacts.gather_loop_sound; [exact H | intros u [] | constructor | constructor].
Qed.

Lemma gather_finds_only_allowed_pdfs_witness :
  Gather.gather_from_sitemaps 5 Samples.scnat_env Samples.scnat_web ["scnat.ch"]
    = Some (Gather.Found ["https://portal-cdn.scnat.ch/c.PDF?v=1"; "https://scnat.ch/docs/a.pdf"]
              [Samples.sitemap_b; Samples.sitemap_a]) /\
  GatherProps.wanted "https://scnat.ch/docs/a.pdf".
Proof.
  assert (H : Gather.gather_from_sitemaps 5 Samples.scnat_env Samples.scnat_web ["scnat.ch"]
              = Some (Gather.Found
                        ["https://portal-cdn.scnat.ch/c.PDF?v=1"; "https://scnat.ch/docs/a.pdf"]
                        [Samples.sitemap_b; Samples.sitemap_a]))
    by (vm_compute; reflexivity).
  split; [exact H|].
  apply (proj1 (gather_finds_only_allowed_pdfs _ _ _ _ _ _ H)). right. left. reflexivity.
Defined.

(** X23. [gather_from_sitemaps] ends when the sitemaps that can be reached
    from the hosts are finitely many, also when sitemaps name each other. *)
Theorem gather_ends_on_finitely_many_sitemaps env web U hosts :
  GatherProps.closed env web U ->
  (forall h m, In h hosts -> In m (Gather.get_robots_sitemaps web h) -> In m U) ->
  exists fuel r, Gather.gather_from_sitemaps fuel env web hosts = Some r.
Proof.
  intros Hc Hs. unfold Gather.gather_from_sitemaps.
  apply (GatherFacts.gather_loop_terminates env web U Hc).
  intros sm Hin. apply in_rev in Hin. apply in_concat in Hin as (l & Hl & Hin).
  apply in_map_iff in Hl as (h & <- & Hh). eauto.
Qed.

Lemma gather_ends_on_finitely_many_sitemaps_witness :
  In Samples.sitemap_a (GatherProps.nested_of Samples.scnat_env Samples.scnat_web Samples.sitemap_b) /\
  In Samples.sitemap_b (GatherProps.nested_of Samples.scnat_env Samples.scnat_web Samples.sitemap_a) /\
  exists fuel r,
    Gather.gather_from_sitemaps fuel Samples.scnat_env Samples.scnat_web ["scnat.ch"] = Some r.
Proof.
  split; [left; reflexivity|]. split; [left; reflexivity|].
  apply (gather_ends_on_finitely_many_sitemaps Samples.scnat_env Samples.scnat_web
           [Samples.sitemap_a; Samples.sitemap_b]).
  - intros sm u [<-|[<-|[]]] Hu; vm_compute in Hu; destruct Hu as [<-|[]]; simpl; auto.
  - intros h m [<-|[]] Hm. vm_compute in Hm. destruct Hm as [<-|[<-|[]]]; simpl; auto.
Defined.

(** X24. [_parse_links] returns exactly what [_norm_url] makes of the
    [href]s of the anchors; so no link it returns holds a fragment mark and
    each starts with [http]. *)
Theorem parsed_links_are_normalised base anchors u :
  (In u (_parse_links base anchors) <->
   exists href, In href anchors /\ _norm_url base href = Some u) /\
  (In u (_parse_links base anchors) ->
   has_char "#" u = false /\ startswith "http" u = true).
Proof.
  split; [apply NormFacts.parse_links_spec|].
  intros H. apply NormFacts.parse_links_spec in H as (href & _ & H).
  eapply NormFacts.norm_url_shape. exact H.
Qed.

Lemma parsed_links_are_normalised_witness :
  _parse_links Site.home ["/a#x"; "mailto:me@example.org"; ""; "b/../c.pdf#top"]
    = [Site.page_a; Site.page_c] /\
  has_char "#" Site.page_c = false /\ startswith "http" Site.page_c = true.
Proof.
  assert (H : _parse_links Site.home ["/a#x"; "mailto:me@example.org"; ""; "b/../c.pdf#top"]
              = [Site.page_a; Site.page_c]) by (vm_compute; reflexivity).
  split; [exact H|].
  apply (proj2 (parsed_links_are_normalised Site.home
                  ["/a#x"; "mailto:me@example.org"; ""; "b/../c.pdf#top"] Site.page_c)).
  rewrite H. right. left. reflexivity.
Defined.

(** X25. The block of [worker] in [crawl_pdfs.py] that saves a PDF raises
    [pdf_saved] exactly when both writes went through, and then the PDF and
    its sidecar can be read back and no other file has changed; otherwise
    the count stays and at most the PDF was written. *)
Theorem worker_counts_only_complete_saves env out now fs n u body fs' n' :
  PdfScripts.worker_save env out now fs n u body = (fs', n') ->
  let pdf_path := out +:+ "/" +:+ PdfScripts.sha16 env u +:+ ".pdf" in
  let meta_path := out +:+ "/" +:+ PdfScripts.sha16 env u +:+ ".meta.json" in
  (n' = (n + 1)%Z /\
   fs' !! pdf_path = Some (Blob body) /\
   fs' !! meta_path = Some (Sidecar u "application/pdf" pdf_path now) /\
   forall p, p <> pdf_path -> p <> meta_path -> fs' !! p = fs !! p)
  \/
  (n' = n /\ (fs' = fs \/ fs' = <[pdf_path := Blob body]> fs)).
Proof. apply PdfFacts.worker_save_spec. Qed.

Lemma worker_counts_only_complete_saves_witness :
  exists fs',
    PdfScripts.worker_save Site.scripts_env "data/raw" 0 ∅ 4 Site.page_c "%PDF-1.7" = (fs', 5%Z) /\
    fs' !! ("data/raw/" +:+ PdfScripts.sha16 Site.scripts_env Site.page_c +:+ ".pdf")
      = Some (Blob "%PDF-1.7").
Proof.
  assert (H : snd (PdfScripts.worker_save Site.scripts_env "data/raw" 0 ∅ 4 Site.page_c
                     "%PDF-1.7") = 5%Z) by (vm_compute; reflexivity).
  destruct (PdfScripts.worker_save Site.scripts_env "data/raw" 0 ∅ 4 Site.page_c "%PDF-1.7")
    as [fs' n'] eqn:Hw.
  cbn [snd] in H. subst n'. exists fs'. split; [reflexivity|].
  destruct (worker_counts_only_complete_saves _ _ _ _ _ _ _ _ _ Hw)
    as [(_ & Hb & _)|(Hn & _)]; [exact Hb | discriminate Hn].
Defined.
